(** * Computed-field preparation and aggregation compilation (teable)

    A shallow embedding of
    [apps/nestjs-backend/src/features/aggregation/aggregation.service.ts]
    ([AggregationService]) and of the field supplement service that follows
    it in the same source file ([FieldSupplementService]).

    - [Js]: the fragments of JavaScript the two services rely on
      (exceptions, [String.prototype.split], [Array.prototype.join],
      [ToString]);
    - [Dayjs]: [dayjs(a).diff(b, 'month')] on date-only strings;
    - [Aggregation]: value post-processing, the aggregation and row-count
      query compilers and the cascading grouped aggregation;
    - [FieldSupplement]: [prepareField], [supplementByCreate] and their
      helpers over a model of the prisma tables they read and write. *)

From Stdlib Require Import ZArith Ascii DecimalString.
From stdpp Require Import base option list strings gmap fin_maps.

(* ===================================================================== *)
(** ** JavaScript fragments                                               *)
(* ===================================================================== *)

Module Js.

(** What a [throw] carries.  [BadRequestException] is the NestJS exception
    both services raise on invalid input; [NotFoundError] is what prisma's
    [findUniqueOrThrow] / [findFirstOrThrow] raise and
    [PrismaClientValidationError] what prisma raises on a unique lookup
    without its key; [Error] is a plain [new Error(msg)]. *)
Inductive Exception : Type :=
| BadRequestException (message : string)
| NotFoundError
| PrismaClientValidationError
| TypeError
| RangeError
| Error (message : string).

(** The outcome of running a piece of code: a value or a thrown exception. *)
Inductive Result (A : Type) : Type :=
| Ok (a : A)
| Throw (e : Exception).
Arguments Ok {A} a.
Arguments Throw {A} e.

Definition rbind {A B} (r : Result A) (k : A -> Result B) : Result B :=
  match r with
  | Ok a => k a
  | Throw e => Throw e
  end.

(** A left-to-right [for ... of] loop whose body may throw. *)
Fixpoint foldM {A S} (body : S -> A -> Result S) (l : list A) (s : S) : Result S :=
  match l with
  | [] => Ok s
  | x :: l' => rbind (body s x) (foldM body l')
  end.

(** [s.split(sep)] for a one-character separator: the segments between the
    occurrences of [sep]; never the empty list ([''.split(',')] is ['']). *)
Fixpoint split (sep : ascii) (s : string) : list string :=
  match s with
  | EmptyString => [EmptyString]
  | String c rest =>
      if Ascii.eqb c sep then EmptyString :: split sep rest
      else match split sep rest with
           | seg :: segs => String c seg :: segs
           | [] => [String c EmptyString]
           end
  end.

(** [l.join(sep)] on an array of strings. *)
Fixpoint join (sep : string) (l : list string) : string :=
  match l with
  | [] => ""
  | [x] => x
  | x :: l' => x +:+ sep +:+ join sep l'
  end.

(** A string is truthy unless it is empty. *)
Definition truthy (s : string) : bool :=
  match s with
  | EmptyString => false
  | _ => true
  end.

(** Decimal rendering of an integer, as [String] does on a bigint. *)
Definition Z_to_string (z : Z) : string := NilZero.string_of_int (Z.to_int z).

(** Whether [c] occurs in [s]. *)
Fixpoint occurs (c : ascii) (s : string) : bool :=
  match s with
  | EmptyString => false
  | String c' rest => Ascii.eqb c' c || occurs c rest
  end.

(** JavaScript numbers are IEEE doubles; the services only pass them
    through, turn integers into them ([Number(bigint)], literals, a month
    count) and print them ([String(n)]), so they stay abstract. *)
Class Numbers : Type := {
  number : Type;
  Number_of_Z : Z -> number;
  number_to_string : number -> string;
}.

(** A value of type [unknown] as the database driver hands it over.  A
    [Date] carries its [toISOString()] ([None] for an invalid date, on which
    [toISOString] throws a [RangeError]) and its [toString()]; any other
    object carries its [toString()]. *)
Inductive Value `{Numbers} : Type :=
| VUndefined
| VNull
| VBoolean (b : bool)
| VNumber (n : number)
| VBigInt (z : Z)
| VString (s : string)
| VDate (iso : option string) (text : string)
| VObject (text : string).

(** [ToString] of a value. *)
Definition ToString `{Numbers} (v : Value) : string :=
  match v with
  | VUndefined => "undefined"
  | VNull => "null"
  | VBoolean b => if b then "true" else "false"
  | VNumber n => number_to_string n
  | VBigInt z => Z_to_string z
  | VString s => s
  | VDate _ text => text
  | VObject text => text
  end.

(** [l.join(sep)] on an array of values: [undefined] and [null] elements
    contribute the empty string, every other element its [ToString]. *)
Definition joinValues `{Numbers} (sep : string) (l : list Value) : string :=
  join sep (map (fun v => match v with
                          | VUndefined | VNull => ""
                          | _ => ToString v
                          end) l).

(** The property names a plain object ([{}], and so the result of lodash's
    [keyBy]) inherits from [Object.prototype].  Reading one of them from
    an object that has no own property of that name gives a function or,
    for [__proto__], the prototype itself: a truthy value. *)
Definition objectPrototype : list string :=
  [ "constructor"; "__defineGetter__"; "__defineSetter__"; "hasOwnProperty";
    "__lookupGetter__"; "__lookupSetter__"; "isPrototypeOf"; "propertyIsEnumerable";
    "toString"; "valueOf"; "__proto__"; "toLocaleString" ].

End Js.

(* ===================================================================== *)
(** ** dayjs: month difference of two dates                               *)
(* ===================================================================== *)

Module Dayjs.
Import Js.

(** A calendar date: [month] counts from 0 as [dayjs().month()] does. *)
Record Ymd : Type := { year : Z; month : Z; date : Z }.

Definition isLeapYear (y : Z) : bool :=
  (y mod 4 =? 0)%Z && (negb (y mod 100 =? 0)%Z || (y mod 400 =? 0)%Z).

Definition daysInMonth (y m : Z) : Z :=
  if (m =? 1)%Z then (if isLeapYear y then 29 else 28)%Z
  else if ((m =? 3) || (m =? 5) || (m =? 8) || (m =? 10))%Z then 30%Z
  else 31%Z.

(** Days from the start of the year to the start of month [m]. *)
Definition daysBeforeMonth (y m : Z) : Z :=
  (nth (Z.to_nat m) [0; 31; 59; 90; 120; 151; 181; 212; 243; 273; 304; 334] 0
   + (if isLeapYear y && (2 <=? m) then 1 else 0))%Z.

(** The number of the day in the proleptic Gregorian calendar; two dates at
    the same time of day are [86400000 * (dayNumber a - dayNumber b)]
    milliseconds apart. *)
Definition dayNumber (d : Ymd) : Z :=
  (let p := year d - 1 in
   365 * p + p / 4 - p / 100 + p / 400 + daysBeforeMonth (year d) (month d) + date d)%Z.

(** [a.add(n, 'month')]: the month moves by [n], the day of the month is
    clamped to the length of the month reached. *)
Definition addMonths (a : Ymd) (n : Z) : Ymd :=
  (let t := year a * 12 + month a + n in
   let y := t / 12 in
   let m := t mod 12 in
   {| year := y; month := m; date := Z.min (date a) (daysInMonth y m) |})%Z.

(** The body of dayjs's [monthDiff(a, b)] past its first test, as the
    fraction (numerator, denominator) of
    [-(wholeMonthDiff + (b - anchor) / (anchor2 - anchor))]. *)
Definition monthDiffBody (a b : Ymd) : Z * Z :=
  (let wholeMonthDiff := (year b - year a) * 12 + (month b - month a) in
   let anchor := dayNumber (addMonths a wholeMonthDiff) in
   let c := dayNumber b - anchor <? 0 in
   let anchor2 := dayNumber (addMonths a (wholeMonthDiff + (if c then -1 else 1))) in
   let den := if c then anchor - anchor2 else anchor2 - anchor in
   (- (wholeMonthDiff * den + (dayNumber b - anchor)), den))%Z.

(** [monthDiff(a, b)]: [if (a.date() < b.date()) return -monthDiff(b, a)];
    the swapped call never swaps again. *)
Definition monthDiff (a b : Ymd) : Z * Z :=
  if (date a <? date b)%Z
  then (let '(n, d) := monthDiffBody b a in (- n, d))%Z
  else monthDiffBody a b.

(** [absFloor]: rounding towards zero. *)
Definition absFloor (q : Z * Z) : Z := Z.quot (fst q) (snd q).

Definition digit (c : ascii) : option Z :=
  let n := Z.of_N (N_of_ascii c) in
  if ((48 <=? n) && (n <=? 57))%Z then Some (n - 48)%Z else None.

Definition isDash (c : ascii) : bool := Ascii.eqb c "-"%char.

(** A date-only string [YYYY-MM-DD] naming a day that exists, from year 100
    on (below, [new Date(y, ...)] maps the year into 1900..1999). *)
Definition parseDate (s : string) : option Ymd :=
  match s with
  | String y1 (String y2 (String y3 (String y4 (String s1 (String m1 (String m2
      (String s2 (String d1 (String d2 EmptyString))))))))) =>
      match digit y1, digit y2, digit y3, digit y4, digit m1, digit m2, digit d1, digit d2 with
      | Some a, Some b, Some c, Some d, Some e, Some f, Some g, Some h =>
          (let y := 1000 * a + 100 * b + 10 * c + d in
           let m := 10 * e + f - 1 in
           let dd := 10 * g + h in
           if isDash s1 && isDash s2 && (100 <=? y) && (0 <=? m) && (m <=? 11)
              && (1 <=? dd) && (dd <=? daysInMonth y m)
           then Some {| year := y; month := m; date := dd |}
           else None)%Z
      | _, _, _, _, _, _, _, _ => None
      end
  | _ => None
  end.

(** What the model takes from outside: whether the process's time zone
    keeps one UTC offset throughout (as UTC does), and what dayjs returns
    where the model does not follow it: on the inputs [parseDate] does not
    cover (times of day, other formats, invalid dates) and, in a zone whose
    offset changes, on date-only strings too (a midnight that the zone
    skips is read an hour or more late). *)
Class Unmodelled `{Numbers} : Type := {
  zoneOffsetFixed : bool;
  diffMonthOther : string -> string -> number;
}.

(** [dayjs(a).diff(b, 'month')]: the month difference rounded towards zero.
    A date-only string is read at midnight in the process's time zone. *)
Definition diffMonth `{Numbers} `{!Unmodelled} (a b : string) : number :=
  match parseDate a, parseDate b with
  | Some x, Some y =>
      if zoneOffsetFixed then Number_of_Z (absFloor (monthDiff x y)) else diffMonthOther a b
  | _, _ => diffMonthOther a b
  end.

(** *** The month difference in the specification's words *)

(** The months counted from year 0. *)
Definition monthIndex (d : Ymd) : Z := (year d * 12 + month d)%Z.

(** The whole months from [b] to [a]: the calendar months between the
    two, less one when the day of [a] has not reached the day of [b], or
    the last day of [a]'s month where that month is too short. *)
Definition wholeMonthsBetween (a b : Ymd) : Z :=
  (monthIndex a - monthIndex b
   - (if date a <? Z.min (date b) (daysInMonth (year a) (month a)) then 1 else 0))%Z.

(** A day that exists. *)
Definition validDate (d : Ymd) : Prop :=
  (0 <= month d <= 11 /\ 1 <= date d <= daysInMonth (year d) (month d))%Z.

(** [b] is the same day as [a] or an earlier one. *)
Definition notAfter (b a : Ymd) : Prop :=
  (monthIndex b < monthIndex a \/ (monthIndex b = monthIndex a /\ date b <= date a))%Z.

(** The day before the first day of the month with index [t], and the
    length of that month. *)
Definition firstDay (t : Z) : Z :=
  dayNumber {| year := t / 12; month := t mod 12; date := 0 |}.
Definition lengthOfMonth (t : Z) : Z := daysInMonth (t / 12) (t mod 12).

End Dayjs.

(* ===================================================================== *)
(** ** AggregationService                                                 *)
(* ===================================================================== *)

Module Aggregation.
Import Js.

(** The members of [StatisticsFunc] the service names.  The enum is
    declared in [@teable/core], outside the sources; at run time a member is
    its string value, and [aggFunc] may be any string ([performAggregation]
    cuts it out of a column alias). *)
Module StatisticsFunc.
Definition PercentEmpty : string := "percentEmpty".
Definition PercentFilled : string := "percentFilled".
Definition PercentUnique : string := "percentUnique".
Definition PercentChecked : string := "percentChecked".
Definition PercentUnChecked : string := "percentUnChecked".
Definition DateRangeOfMonths : string := "dateRangeOfMonths".
End StatisticsFunc.

(** [number | string | null] *)
Inductive NumberOrString `{Numbers} : Type :=
| Num (n : number)
| Str (s : string)
| Null.

Section Convert.
Context `{Numbers} `{!Dayjs.Unmodelled}.

Definition convertValueToNumberOrString (currentValue : Value) : Result NumberOrString :=
  match currentValue with
  | VBigInt z => Ok (Num (Number_of_Z z))
  | VNumber n => Ok (Num n)
  | VDate (Some iso) _ => Ok (Str iso)
  | VDate None _ => Throw RangeError
  | VUndefined | VNull => Ok Null
  | v => Ok (Str (ToString v))
  end.

Definition calculateDateRangeOfMonths (currentValue : string) : number :=
  let parts := split ","%char currentValue in
  match parts !! 0%nat, parts !! 1%nat with
  | Some maxTime, Some minTime =>
      if truthy maxTime && truthy minTime
      then Dayjs.diffMonth maxTime minTime
      else Number_of_Z 0
  | _, _ => Number_of_Z 0
  end.

Definition defaultToZero : list string :=
  [ StatisticsFunc.PercentEmpty;
    StatisticsFunc.PercentFilled;
    StatisticsFunc.PercentUnique;
    StatisticsFunc.PercentChecked;
    StatisticsFunc.PercentUnChecked ].

(** [defaultToZero.includes(aggFunc)] *)
Definition includes (l : list string) (x : string) : bool :=
  bool_decide (x ∈ l).

(** [convertValue ?? 0] *)
Definition orZero (convertValue : NumberOrString) : NumberOrString :=
  match convertValue with
  | Null => Num (Number_of_Z 0)
  | v => v
  end.

Definition formatConvertValue (currentValue : Value) (aggFunc : option string)
  : Result NumberOrString :=
  rbind (convertValueToNumberOrString currentValue) (fun convertValue =>
  match aggFunc with
  | None => Ok convertValue
  | Some aggFunc =>
      if negb (truthy aggFunc) then Ok convertValue
      else
        let convertValue :=
          match currentValue with
          | VString s =>
              if String.eqb aggFunc StatisticsFunc.DateRangeOfMonths
              then Num (calculateDateRangeOfMonths s)
              else convertValue
          | _ => convertValue
          end in
        let convertValue :=
          if includes defaultToZero aggFunc then orZero convertValue else convertValue in
        Ok convertValue
  end).

End Convert.

(** *** Query compilation *)

(** What the compilers read of a field instance. *)
Record IFieldInstance : Type := {
  id : string;
  name : string;
  dbFieldName : string;
}.

(** A filter is only handed on to the filter-fragment builder: its JSON text. *)
Definition IFilter : Type := string.

(** [search?: [string, string?, boolean?]] *)
Definition Search : Type := (string * option string * option bool)%type.

(** [search[2]] as a condition. *)
Definition searchApplies (search : Search) : bool :=
  match search with
  | (_, _, Some true) => true
  | _ => false
  end.

Module IAggregationField.
Record t : Type := { fieldId : string; statisticFunc : string }.
End IAggregationField.

Module IGroupItem.
Record t : Type := { fieldId : string; order : string }.
End IGroupItem.

(** [filterLinkCellCandidate] / [filterLinkCellSelected]: a field id, or a
    field id with a record id. *)
Definition FilterLinkCell : Type := (string * option string)%type.

(** [filterLinkCellCandidate] / [filterLinkCellSelected] as a condition: a
    pair is truthy, a field id alone unless it is the empty string. *)
Definition linkCellSet (c : option FilterLinkCell) : bool :=
  match c with
  | Some (fieldId, None) => truthy fieldId
  | Some (_, Some _) => true
  | None => false
  end.

(** The conditions the compilers put on a query builder, in the order of the
    calls.  [WFilter], [WSearch], [WLinkCandidate] and [WLinkSelected] record
    the call to the external builder with its arguments
    ([dbProvider.filterQuery(..).appendQueryBuilder()],
    [qb.where(b => dbProvider.searchQuery(b, ..))],
    [recordService.buildLinkCandidateQuery], [..buildLinkSelectedQuery]);
    [WhereIn] and [WhereNotIn] are knex's own. *)
Inductive Where : Type :=
| WFilter (fieldMap : gmap string IFieldInstance) (filter : IFilter) (withUserId : option string)
| WSearch (fieldMap : gmap string IFieldInstance) (search : Search)
| WhereIn (column : string) (values : list string)
| WhereNotIn (column : string) (values : list string)
| WLinkCandidate (tableId dbTableName : string) (candidate : FilterLinkCell)
| WLinkSelected (tableId dbTableName : string) (selected : FilterLinkCell).

(** [WITH main_table AS (SELECT * FROM from WHERE wheres) SELECT <aggregates>
    FROM main_table [GROUP BY ..]]: the arguments of
    [dbProvider.aggregationQuery] and [dbProvider.groupQuery]. *)
Record AggregationQuery : Type := {
  aq_from : string;
  aq_wheres : list Where;
  aq_aggregation : gmap string IFieldInstance * list IAggregationField.t;
  aq_group : option (gmap string IFieldInstance * list string);
}.

(** [knex(dbTableName)] with its conditions. *)
Record CountQuery : Type := {
  cq_table : string;
  cq_wheres : list Where;
}.

(** A result row, [{ [field: string]: unknown }]. *)
Abbreviation Row := (gmap string Value).

(** [row[key]] *)
Definition get `{Numbers} (row : Row) (key : string) : Value :=
  default VUndefined (row !! key).

(** A stored record: its [__id] and its cells. *)
Record DbRecord `{Numbers} : Type := {
  __id : string;
  cells : Row;
}.

(** The relational store behind [prisma.$queryRawUnsafe]: what an
    aggregation statement returns (or throws), the records of each table,
    and which records a fragment of an external builder lets through. *)
Class Store `{Numbers} : Type := {
  queryRawUnsafe : AggregationQuery -> Result (list Row);
  records : string -> list DbRecord;
  fragmentHolds : Where -> DbRecord -> bool;
}.

(** The helpers of [../../utils]. *)
Class Utils `{Numbers} : Type := {
  convertValueToStringify : Value -> Value;
  string2Hash : string -> number;
}.

Record AggregationParams : Type := {
  dbTableName : string;
  fieldInstanceMap : gmap string IFieldInstance;
  fieldInstanceMapWithoutHiddenFields : gmap string IFieldInstance;
  filter : option IFilter;
  groupBy : option (list IGroupItem.t);
  search : option Search;
  statisticFields : option (list IAggregationField.t);
  withUserId : option string;
}.

(** [handleAggregation] up to [qb.toQuery()]: [None] is the early
    [return] on [!statisticFields?.length]. *)
Definition compileAggregation (params : AggregationParams) : option AggregationQuery :=
  match statisticFields params with
  | None | Some [] => None
  | Some statisticFields =>
      let fieldInstanceMap := fieldInstanceMap params in
      let byFilter :=
        match filter params with
        | Some filter => [WFilter fieldInstanceMap filter (withUserId params)]
        | None => []
        end in
      let bySearch :=
        match search params with
        | Some search =>
            if searchApplies search then [WSearch fieldInstanceMap search] else []
        | None => []
        end in
      Some {| aq_from := dbTableName params;
              aq_wheres := byFilter ++ bySearch;
              aq_aggregation := (fieldInstanceMap, statisticFields);
              aq_group :=
                match groupBy params with
                | Some groupBy => Some (fieldInstanceMap, map IGroupItem.fieldId groupBy)
                | None => None
                end |}
  end.

Definition handleAggregation `{Numbers} `{!Store} (params : AggregationParams)
  : Result (option (list Row)) :=
  match compileAggregation params with
  | None => Ok None
  | Some aggSql => rbind (queryRawUnsafe aggSql) (fun rows => Ok (Some rows))
  end.

Record RowCountParams : Type := {
  rc_tableId : string;
  rc_dbTableName : string;
  rc_fieldInstanceMap : gmap string IFieldInstance;
  rc_fieldInstanceMapWithoutHiddenFields : gmap string IFieldInstance;
  rc_filter : option IFilter;
  rc_filterLinkCellCandidate : option FilterLinkCell;
  rc_filterLinkCellSelected : option FilterLinkCell;
  rc_selectedRecordIds : option (list string);
  rc_search : option Search;
  rc_withUserId : option string;
}.

(** [handleRowCount] up to the call of [getRowCount]. *)
Definition compileRowCount (params : RowCountParams) : CountQuery :=
  let dbTableName := rc_dbTableName params in
  let byFilter :=
    match rc_filter params with
    | Some filter => [WFilter (rc_fieldInstanceMap params) filter (rc_withUserId params)]
    | None => []
    end in
  let bySearch :=
    match rc_search params with
    | Some search =>
        if searchApplies search
        then [WSearch (rc_fieldInstanceMapWithoutHiddenFields params) search]
        else []
    | None => []
    end in
  let byRecordIds :=
    match rc_selectedRecordIds params with
    | Some selectedRecordIds =>
        if linkCellSet (rc_filterLinkCellCandidate params)
        then [WhereNotIn (dbTableName +:+ ".__id") selectedRecordIds]
        else [WhereIn (dbTableName +:+ ".__id") selectedRecordIds]
    | None => []
    end in
  let byCandidate :=
    match rc_filterLinkCellCandidate params with
    | Some c =>
        if linkCellSet (Some c) then [WLinkCandidate (rc_tableId params) dbTableName c] else []
    | None => []
    end in
  let bySelected :=
    match rc_filterLinkCellSelected params with
    | Some c =>
        if linkCellSet (Some c) then [WLinkSelected (rc_tableId params) dbTableName c] else []
    | None => []
    end in
  {| cq_table := dbTableName;
     cq_wheres := byFilter ++ bySearch ++ byRecordIds ++ byCandidate ++ bySelected |}.

(** The same request without [selectedRecordIds]. *)
Definition withoutSelectedRecordIds (params : RowCountParams) : RowCountParams :=
  {| rc_tableId := rc_tableId params;
     rc_dbTableName := rc_dbTableName params;
     rc_fieldInstanceMap := rc_fieldInstanceMap params;
     rc_fieldInstanceMapWithoutHiddenFields := rc_fieldInstanceMapWithoutHiddenFields params;
     rc_filter := rc_filter params;
     rc_filterLinkCellCandidate := rc_filterLinkCellCandidate params;
     rc_filterLinkCellSelected := rc_filterLinkCellSelected params;
     rc_selectedRecordIds := None;
     rc_search := rc_search params;
     rc_withUserId := rc_withUserId params |}.

Section RowCount.
Context `{Numbers} `{!Store}.

(** Whether a record of [table] passes one condition.  A knex condition on
    the table's [__id] column is decided by the record's id; a condition on
    any other column is the store's to decide, as are the fragments of the
    external builders. *)
Definition holds (table : string) (w : Where) (r : DbRecord) : bool :=
  match w with
  | WhereIn column values =>
      if String.eqb column (table +:+ ".__id") then bool_decide (__id r ∈ values)
      else fragmentHolds w r
  | WhereNotIn column values =>
      if String.eqb column (table +:+ ".__id") then negb (bool_decide (__id r ∈ values))
      else fragmentHolds w r
  | _ => fragmentHolds w r
  end.

(** The records a count query counts: those of its table that pass every
    condition. *)
Definition counted (q : CountQuery) : list DbRecord :=
  List.filter (fun r => forallb (fun w => holds (cq_table q) w r) (cq_wheres q))
              (records (cq_table q)).

(** [getRowCount]: the clauses cleared are ones [compileRowCount] never
    sets; the statement is [SELECT COUNT( * ) AS count] and returns one row. *)
Definition getRowCount (queryBuilder : CountQuery) : list Z :=
  [Z.of_nat (length (counted queryBuilder))].

Definition handleRowCount (params : RowCountParams) : list Z :=
  getRowCount (compileRowCount params).

End RowCount.

(** *** Grouped aggregation *)

(** [{ value, aggFunc }] *)
Record Aggregate `{Numbers} : Type := {
  value : NumberOrString;
  aggFunc : string;
}.

(** An element of [IRawAggregations]. *)
Record IRawAggregation `{Numbers} : Type := {
  fieldId : string;
  total : option Aggregate;
  group : option (gmap string Aggregate);
}.

Record GroupedParams `{Numbers} : Type := {
  g_aggregations : list IRawAggregation;
  g_statisticFields : option (list IAggregationField.t);
  g_filter : option IFilter;
  g_search : option Search;
  g_groupBy : option (list IGroupItem.t);
  g_dbTableName : string;
  g_fieldInstanceMap : gmap string IFieldInstance;
  g_fieldInstanceMapWithoutHiddenFields : gmap string IFieldInstance;
  (** [this.cls.get('user.id')] *)
  g_currentUserId : option string;
}.

(** An element of [groupByFields]. *)
Record GroupByField : Type := {
  gf_fieldId : string;
  gf_dbFieldName : string;
}.

Section Grouped.
Context `{Numbers} `{!Dayjs.Unmodelled} `{!Store} `{!Utils}.

(** lodash's [keyBy(aggregations, 'fieldId')]: a later element replaces an
    earlier one with the same key. *)
Definition keyBy (aggregations : list IRawAggregation) : gmap string IRawAggregation :=
  foldl (fun m a => <[fieldId a := a]> m) ∅ aggregations.

(** [groupBy.map(({ fieldId }) => ({ fieldId, dbFieldName:
    fieldInstanceMap[fieldId].dbFieldName }))]: reading [dbFieldName] of a
    missing field is a [TypeError]. *)
Fixpoint groupByFieldsOf (fieldInstanceMap : gmap string IFieldInstance)
    (groupBy : list IGroupItem.t) : Result (list GroupByField) :=
  match groupBy with
  | [] => Ok []
  | g :: rest =>
      match fieldInstanceMap !! IGroupItem.fieldId g with
      | None => Throw TypeError
      | Some f =>
          rbind (groupByFieldsOf fieldInstanceMap rest) (fun fs =>
          Ok ({| gf_fieldId := IGroupItem.fieldId g; gf_dbFieldName := dbFieldName f |} :: fs))
      end
  end.

(** The [groupId] of one row at level [i]. *)
Definition groupIdOf (groupByFields : list GroupByField) (i : nat)
    (currentGroupFieldId : string) (groupedAggregation : Row) : string :=
  let groupByValueString :=
    joinValues "_"
      (map (fun gf => convertValueToStringify (get groupedAggregation (gf_dbFieldName gf)))
           (take (i + 1) groupByFields)) in
  let flagString := currentGroupFieldId +:+ "_" +:+ groupByValueString in
  number_to_string (string2Hash flagString).

(** The body of [for (const statisticField of statisticFields)]. *)
Definition statisticStep (groupedAggregation : Row) (groupId : string)
    (aggregationByFieldId : gmap string IRawAggregation)
    (statisticField : IAggregationField.t) : Result (gmap string IRawAggregation) :=
  let fieldId := IAggregationField.fieldId statisticField in
  let statisticFunc := IAggregationField.statisticFunc statisticField in
  let aggKey := fieldId +:+ "_" +:+ statisticFunc in
  rbind (formatConvertValue (get groupedAggregation aggKey) (Some statisticFunc))
    (fun convertValue =>
  match aggregationByFieldId !! fieldId with
  | None => Throw TypeError
  | Some curFieldAggregation =>
      let entry := {| value := convertValue; aggFunc := statisticFunc |} in
      let group' :=
        match group curFieldAggregation with
        | None => {[ groupId := entry ]}
        | Some g => <[ groupId := entry ]> g
        end in
      Ok (<[ fieldId := {| fieldId := Aggregation.fieldId curFieldAggregation;
                           total := total curFieldAggregation;
                           group := Some group' |} ]> aggregationByFieldId)
  end).

(** The body of [for (const groupedAggregation of rawGroupedAggregationData)]. *)
Definition rowStep (groupByFields : list GroupByField) (i : nat)
    (currentGroupFieldId : string) (statisticFields : list IAggregationField.t)
    (aggregationByFieldId : gmap string IRawAggregation)
    (groupedAggregation : Row) : Result (gmap string IRawAggregation) :=
  let groupId := groupIdOf groupByFields i currentGroupFieldId groupedAggregation in
  foldM (statisticStep groupedAggregation groupId) statisticFields aggregationByFieldId.

(** The parameters of the level-[i] call of [handleAggregation]. *)
Definition levelParams (params : GroupedParams) (groupBy : list IGroupItem.t)
    (statisticFields : list IAggregationField.t) (i : nat) : AggregationParams :=
  {| dbTableName := g_dbTableName params;
     fieldInstanceMap := g_fieldInstanceMap params;
     fieldInstanceMapWithoutHiddenFields := g_fieldInstanceMapWithoutHiddenFields params;
     filter := g_filter params;
     groupBy := Some (take (i + 1) groupBy);
     search := g_search params;
     statisticFields := Some statisticFields;
     withUserId := g_currentUserId params |}.

(** The body of [for (let i = 0; i < groupBy.length; i++)]: iterating over
    the [undefined] that [handleAggregation] returns on an empty
    [statisticFields] is a [TypeError]. *)
Definition levelStep (params : GroupedParams) (groupBy : list IGroupItem.t)
    (statisticFields : list IAggregationField.t) (groupByFields : list GroupByField)
    (aggregationByFieldId : gmap string IRawAggregation) (i : nat)
    : Result (gmap string IRawAggregation) :=
  rbind (handleAggregation (levelParams params groupBy statisticFields i))
    (fun rawGroupedAggregationData =>
  match rawGroupedAggregationData, groupByFields !! i with
  | Some rows, Some cur =>
      foldM (rowStep groupByFields i (gf_fieldId cur) statisticFields) rows aggregationByFieldId
  | _, _ => Throw TypeError
  end).

Definition performGroupedAggregation (params : GroupedParams) : Result (list IRawAggregation) :=
  match g_groupBy params, g_statisticFields params with
  | Some groupBy, Some statisticFields =>
      let aggregationByFieldId := keyBy (g_aggregations params) in
      rbind (groupByFieldsOf (g_fieldInstanceMap params) groupBy) (fun groupByFields =>
      rbind (foldM (levelStep params groupBy statisticFields groupByFields)
                   (seq 0 (length groupBy)) aggregationByFieldId) (fun final =>
      Ok (map snd (map_to_list final))))
  | _, _ => Ok (g_aggregations params)
  end.

(** The group id as the specification words it: the hash, as a string, of
    the group field's id, an underscore and the underscore-joined
    stringifications of the group values of levels 0 to [i]. *)
Definition specGroupId (groupFieldId : string) (groupValues : list Value) : string :=
  number_to_string
    (string2Hash
       (groupFieldId +:+ "_" +:+ joinValues "_" (map convertValueToStringify groupValues))).

(** The group values of a row for levels 0 to [i]: the row's columns of
    the first [i + 1] group fields. *)
Definition groupValues (fieldInstanceMap : gmap string IFieldInstance)
    (groupBy : list IGroupItem.t) (i : nat) (row : Row) : list Value :=
  map (fun g => match fieldInstanceMap !! IGroupItem.fieldId g with
                | Some f => get row (dbFieldName f)
                | None => VUndefined
                end)
      (take (i + 1) groupBy).

(** How [groupByFields] relates to [groupBy] once it is built. *)
Definition groupByFieldOf (fieldInstanceMap : gmap string IFieldInstance)
    (g : IGroupItem.t) (gf : GroupByField) : Prop :=
  gf_fieldId gf = IGroupItem.fieldId g
  /\ exists f, fieldInstanceMap !! IGroupItem.fieldId g = Some f
               /\ gf_dbFieldName gf = dbFieldName f.

(** Every entry sits under its own field id. *)
Definition keyed (m : gmap string IRawAggregation) : Prop :=
  forall k a, m !! k = Some a -> fieldId a = k.

(** The entry of field [fid] has a group map with key [gid]. *)
Definition hasGroup (m : gmap string IRawAggregation) (fid gid : string) : Prop :=
  exists a g, m !! fid = Some a /\ group a = Some g /\ is_Some (g !! gid).

(** No group key is ever lost. *)
Definition grows (m m' : gmap string IRawAggregation) : Prop :=
  forall fid gid, hasGroup m fid gid -> hasGroup m' fid gid.

End Grouped.

(** [fetchStatisticsParams], the field map for search: a copy of
    [fieldInstanceMap] from which every key whose column meta is [hidden]
    is deleted. *)
Definition withoutHiddenFields (columnMeta : gmap string bool)
    (fieldInstanceMap : gmap string IFieldInstance) : gmap string IFieldInstance :=
  map_fold (fun key hidden m => if hidden : bool then delete key m else m)
           fieldInstanceMap columnMeta.

(** *** View statistics, field data and the search field map *)

(** An entry of a view's [columnMeta]. *)
Module ColumnMeta.
Record t : Type := {
  hidden : option bool;
  statisticFunc : option string;
  order : option Z;
}.
End ColumnMeta.

Module ICustomFieldStats.
Record t : Type := { fieldId : string; statisticFunc : option string }.
End ICustomFieldStats.

(** [get(value, ['hidden'])] as a condition, per key of the column meta. *)
Definition hiddenFlags (columnMeta : gmap string ColumnMeta.t) : gmap string bool :=
  (fun value => bool_decide (ColumnMeta.hidden value = Some true)) <$> columnMeta.

(** lodash's [groupBy(customFieldStats, 'fieldId')[fieldId]]: the requests
    for the field in their order, [undefined] when there is none. *)
Definition customStatsOf (customFieldStats : option (list ICustomFieldStats.t))
    (fieldId : string) : option (list ICustomFieldStats.t) :=
  match List.filter (fun c => String.eqb (ICustomFieldStats.fieldId c) fieldId)
                    (default [] customFieldStats) with
  | [] => None
  | l => Some l
  end.

(** [customFieldStats.filter((item) => item.statisticFunc).map((item) =>
    item.statisticFunc)] *)
Definition statisticFuncsOf (customFieldStats : list ICustomFieldStats.t) : list string :=
  omap (fun item => match ICustomFieldStats.statisticFunc item with
                    | Some f => if truthy f then Some f else None
                    | None => None
                    end) customFieldStats.

(** The [funcList] of one field instance in [getStatisticFields]: the
    requested functions when there is one, else the view's own. *)
Definition funcListOf (viewColumnMeta : option ColumnMeta.t)
    (customFieldStats : option (list ICustomFieldStats.t)) : list string :=
  match statisticFuncsOf <$> customFieldStats with
  | Some (f :: fs) => f :: fs
  | _ =>
      match viewColumnMeta ≫= ColumnMeta.statisticFunc with
      | Some statisticFunc => if truthy statisticFunc then [statisticFunc] else []
      | None => []
      end
  end.

(** The body of [fieldInstances.forEach] in [getStatisticFields]: what is
    pushed for one field instance (nothing: the empty list). *)
Definition statisticFieldListOf (columnMeta : option (gmap string ColumnMeta.t))
    (customFieldStats : option (list ICustomFieldStats.t)) (fieldInstance : IFieldInstance)
  : list IAggregationField.t :=
  let fieldId := id fieldInstance in
  let viewColumnMeta := columnMeta ≫= (fun m => m !! fieldId) in
  let customFieldStats := customStatsOf customFieldStats fieldId in
  match viewColumnMeta, customFieldStats with
  | None, None => []
  | _, _ =>
      let hidden := viewColumnMeta ≫= ColumnMeta.hidden in
      let funcList := funcListOf viewColumnMeta customFieldStats in
      if bool_decide (hidden = Some true) then []
      else map (fun item => {| IAggregationField.fieldId := fieldId;
                               IAggregationField.statisticFunc := item |}) funcList
  end.

(** [(calculatedStatisticFields = calculatedStatisticFields ?? []).push(..)],
    done only when there is something to push. *)
Definition pushStatisticFields (calculatedStatisticFields : option (list IAggregationField.t))
    (statisticFieldList : list IAggregationField.t) : option (list IAggregationField.t) :=
  match statisticFieldList with
  | [] => calculatedStatisticFields
  | _ => Some (default [] calculatedStatisticFields ++ statisticFieldList)
  end.

Definition getStatisticFields (fieldInstances : list IFieldInstance)
    (columnMeta : option (gmap string ColumnMeta.t))
    (customFieldStats : option (list ICustomFieldStats.t))
  : option (list IAggregationField.t) :=
  foldl (fun calculatedStatisticFields fieldInstance =>
           pushStatisticFields calculatedStatisticFields
             (statisticFieldListOf columnMeta customFieldStats fieldInstance))
        None fieldInstances.

(** A row of the [field] table as [getFieldsData] reads it: its table, its
    soft-deletion time and the field instance the factory makes of it. *)
Record FieldRow : Type := {
  fr_tableId : string;
  fr_deletedTime : option string;
  fr_instance : IFieldInstance;
}.

(** [getFieldsData]: the live fields of the table (those among [fieldIds]
    when given), and the map that holds each under its id and, unless
    [withName] is [false], under its name as well. *)
Definition getFieldsData (fieldTable : list FieldRow) (tableId : string)
    (fieldIds : option (list string)) (withName : option bool)
  : list IFieldInstance * gmap string IFieldInstance :=
  let fieldsRaw :=
    List.filter (fun row => String.eqb (fr_tableId row) tableId
                            && match fieldIds with
                               | Some ids => bool_decide (id (fr_instance row) ∈ ids)
                               | None => true
                               end
                            && bool_decide (fr_deletedTime row = None)) fieldTable in
  let fieldInstances := map fr_instance fieldsRaw in
  let fieldInstanceMap :=
    foldl (fun map field =>
             let map := <[id field := field]> map in
             if bool_decide (withName = Some false) then map
             else <[name field := field]> map)
          ∅ fieldInstances in
  (fieldInstances, fieldInstanceMap).

(** [filterFieldInstances] *)
Definition filterFieldInstances (fieldInstances : list IFieldInstance)
    (customFieldStats : option (list ICustomFieldStats.t)) (withFieldIds : option (list string))
  : list IFieldInstance :=
  let targetFieldIds :=
    match customFieldStats with
    | Some stats => Some (map ICustomFieldStats.fieldId stats)
    | None => withFieldIds
    end in
  match targetFieldIds with
  | Some (t :: ts) =>
      List.filter (fun instance => bool_decide (id instance ∈ t :: ts)) fieldInstances
  | _ => fieldInstances
  end.

(** The field map [getSearchCount] and [getRecordIndexBySearchOrder] search
    over: the hidden fields of the view's column meta are deleted, and with
    a non-empty [projection] every field outside it as well. *)
Definition searchFieldMap (fieldInstanceMap : gmap string IFieldInstance)
    (columnMeta : option (gmap string bool)) (projection : option (list string))
  : gmap string IFieldInstance :=
  let fieldInstanceMapWithoutHiddenFields :=
    match columnMeta with
    | Some columnMeta => withoutHiddenFields columnMeta fieldInstanceMap
    | None => fieldInstanceMap
    end in
  match projection with
  | Some (p :: ps) =>
      map_fold (fun fieldId _ m =>
                  if bool_decide (fieldId ∈ p :: ps) then m else delete fieldId m)
               fieldInstanceMapWithoutHiddenFields fieldInstanceMap
  | _ => fieldInstanceMapWithoutHiddenFields
  end.

(** *** The totals of [performAggregation] *)

Section Totals.
Context `{Numbers} `{!Dayjs.Unmodelled}.

(** The column alias of a statistic, [`${fieldId}_${statisticFunc}`]. *)
Definition aggKeyOf (statisticField : IAggregationField.t) : string :=
  IAggregationField.fieldId statisticField +:+ "_"
  +:+ IAggregationField.statisticFunc statisticField.

(** [const [fieldId, aggFunc] = key.split('_')] *)
Definition splitKey (key : string) : string * option string :=
  let parts := split "_"%char key in
  (default "" (parts !! 0%nat), parts !! 1%nat).

(** The body of the loop over [Object.entries(aggregationResult)]: the
    entry pushed, if any. *)
Definition totalOf (entry : string * Value) : Result (option IRawAggregation) :=
  let '(key, value) := entry in
  let '(fieldId, aggFunc) := splitKey key in
  rbind (formatConvertValue value aggFunc) (fun convertValue =>
  if truthy fieldId
  then Ok (Some {| fieldId := fieldId;
                   total :=
                     match aggFunc with
                     | Some f => if truthy f
                                 then Some {| value := convertValue; aggFunc := f |}
                                 else None
                     | None => None
                     end;
                   group := None |})
  else Ok None).

(** The [aggregations] of [performAggregation] from the entries of the
    first row of the total pass, in their order; no row gives none. *)
Fixpoint totalsOf (entries : list (string * Value)) : Result (list IRawAggregation) :=
  match entries with
  | [] => Ok []
  | entry :: rest =>
      rbind (totalOf entry) (fun pushed =>
      rbind (totalsOf rest) (fun aggregations =>
      Ok (match pushed with
          | Some a => a :: aggregations
          | None => aggregations
          end)))
  end.

End Totals.

Section Provenance.
Context `{Numbers} `{!Dayjs.Unmodelled} `{!Store} `{!Utils}.

(** Where an entry [e] under key [gid] of the group map of field [fid]
    comes from: a row of the statement of some level [i], under whose group
    id it is filed, and a requested statistic of the field, whose converted
    column it holds. *)
Definition groupOrigin (params : GroupedParams) (groupBy : list IGroupItem.t)
    (statisticFields : list IAggregationField.t)
    (fid gid : string) (e : Aggregate) : Prop :=
  exists (i : nat) (g : IGroupItem.t) (rows : list Row) (row : Row)
         (sf : IAggregationField.t),
    groupBy !! i = Some g
    /\ handleAggregation (levelParams params groupBy statisticFields i) = Ok (Some rows)
    /\ row ∈ rows
    /\ sf ∈ statisticFields
    /\ IAggregationField.fieldId sf = fid
    /\ gid = specGroupId (IGroupItem.fieldId g)
                         (groupValues (g_fieldInstanceMap params) groupBy i row)
    /\ aggFunc e = IAggregationField.statisticFunc sf
    /\ formatConvertValue (get row (aggKeyOf sf)) (Some (IAggregationField.statisticFunc sf))
       = Ok (value e).

(** The entry of field [fid] has, under the group id [gid], an entry with
    an origin. *)
Definition filed (params : GroupedParams) (groupBy : list IGroupItem.t)
    (statisticFields : list IAggregationField.t)
    (m : gmap string IRawAggregation) (fid gid : string) : Prop :=
  exists a grp e,
    m !! fid = Some a /\ group a = Some grp /\ grp !! gid = Some e
    /\ groupOrigin params groupBy statisticFields fid gid e.

(** What is filed stays filed. *)
Definition keepsFiled (params : GroupedParams) (groupBy : list IGroupItem.t)
    (statisticFields : list IAggregationField.t)
    (m m' : gmap string IRawAggregation) : Prop :=
  forall fid gid,
    filed params groupBy statisticFields m fid gid ->
    filed params groupBy statisticFields m' fid gid.

(** What the loop keeps of the entries it started from: every field of the
    map is one of [aggregations], under its own id and with its total. *)
Definition fromAggregations (aggregations : list IRawAggregation)
    (m : gmap string IRawAggregation) : Prop :=
  forall k a, m !! k = Some a ->
    fieldId a = k
    /\ exists a0, a0 ∈ aggregations /\ fieldId a0 = k /\ total a0 = total a.

(** The keys of [m] are keys of [m']. *)
Definition keeps (m m' : gmap string IRawAggregation) : Prop :=
  forall k, is_Some (m !! k) -> is_Some (m' !! k).

(** Every group entry of the map has an origin. *)
Definition groupsHaveOrigin (params : GroupedParams) (groupBy : list IGroupItem.t)
    (statisticFields : list IAggregationField.t) (m : gmap string IRawAggregation) : Prop :=
  forall fid a g gid e,
    m !! fid = Some a -> group a = Some g -> g !! gid = Some e ->
    groupOrigin params groupBy statisticFields fid gid e.

End Provenance.

End Aggregation.

(* ===================================================================== *)
(** ** FieldSupplementService                                             *)
(* ===================================================================== *)

Module FieldSupplement.
Import Js.

(** The members of [FieldType] the service names, by their string values
    (the enum is declared in [@teable-group/core], outside the sources). *)
Module FieldType.
Definition Link : string := "link".
Definition Formula : string := "formula".
Definition Rollup : string := "rollup".
End FieldType.

Inductive Relationship : Type := OneMany | ManyOne | ManyMany.

#[global] Instance Relationship_eq_dec : EqDecision Relationship.
Proof. solve_decision. Defined.

(** Modelled from the spec: the table [RelationshipRevert] of
    [@teable-group/core] is not among the sources; the spec gives the mirror
    rule as OneMany <-> ManyOne, ManyMany <-> ManyMany. *)
Definition RelationshipRevert (r : Relationship) : Relationship :=
  match r with
  | OneMany => ManyOne
  | ManyOne => OneMany
  | ManyMany => ManyMany
  end.

(** The kind-specific [options] of a field, as one object: the properties
    the service reads or writes, each possibly absent, and the remaining
    ones, which object spread carries over. *)
Module Options.
Record t : Type := {
  relationship : option Relationship;
  foreignTableId : option string;
  lookupFieldId : option string;
  dbForeignKeyName : option string;
  symmetricFieldId : option string;
  expression : option string;
  formatting : option string;
  others : list (string * string);
}.
End Options.

Module LookupOptions.
Record t : Type := {
  linkFieldId : string;
  lookupFieldId : string;
  foreignTableId : string;
  relationship : option Relationship;
  dbForeignKeyName : option string;
}.
End LookupOptions.

(** A field definition ([IFieldRo]); a field instance ([IFieldInstance],
    [LinkFieldDto]) carries the same properties. *)
Module IFieldRo.
Record t : Type := {
  id : option string;
  name : option string;
  type : string;
  isLookup : option bool;
  options : option Options.t;
  lookupOptions : option LookupOptions.t;
  cellValueType : option string;
  isMultipleCellValue : option bool;
}.
End IFieldRo.

(** A row of the [field] table; the JSON columns [options] and
    [lookupOptions] are held parsed ([None] for SQL [NULL]). *)
Module FieldRaw.
Record t : Type := {
  id : string;
  name : string;
  tableId : string;
  type : string;
  isLookup : option bool;
  isPrimary : option bool;
  options : option Options.t;
  lookupOptions : option LookupOptions.t;
  cellValueType : string;
  isMultipleCellValue : option bool;
  deletedTime : option string;
}.
End FieldRaw.

(** A row of the [table_meta] table. *)
Module TableMeta.
Record t : Type := {
  id : string;
  name : string;
  dbTableName : string;
}.
End TableMeta.

(** [ALTER TABLE table ADD COLUMN column varchar(255) NULL UNIQUE] *)
Record AlterTable : Type := {
  at_table : string;
  at_column : option string;
}.

(** What the service runs against: the two prisma tables it reads, the
    statements it has executed, and how many field ids it has drawn. *)
Record State : Type := {
  tableMeta : list TableMeta.t;
  field : list FieldRaw.t;
  executed : list AlterTable;
  generated : nat;
}.

(** The collaborators outside the sources: the random id generator (its
    [n]-th draw), default formatting per cell value type, and the formula
    and rollup parsers of the field DTOs ([None] / [inl message]: the parser
    throws). *)
Class Core : Type := {
  generateFieldIdAt : nat -> string;
  getDefaultFormatting : string -> option string;
  getReferenceFieldIds : option string -> option (list string);
  formulaParsedValueType :
    option string -> gmap string IFieldRo.t -> Result (string * bool);
  rollupParsedValueType : option string -> string + (string * bool);
}.

(** Code that reads and writes the state and may throw. *)
Definition M (A : Type) : Type := State -> Result (A * State).

Definition ret {A} (a : A) : M A := fun st => Ok (a, st).
Definition throw {A} (e : Exception) : M A := fun _ => Throw e.
Definition bind {A B} (m : M A) (k : A -> M B) : M B :=
  fun st => match m st with
            | Ok (a, st') => k a st'
            | Throw e => Throw e
            end.
Definition gets {A} (f : State -> A) : M A := fun st => Ok (f st, st).

Notation "'let*' x := m 'in' k" := (bind m (fun x => k))
  (at level 10, x name, m at level 100, k at level 200).
Notation "'let*' ' pat := m 'in' k" := (bind m (fun x => match x with pat => k end))
  (at level 10, pat pattern, m at level 100, k at level 200).

(** *** prisma queries *)

(** A [where] property that is [undefined] does not filter. *)
Definition whereEq (wanted : option string) (actual : string) : bool :=
  match wanted with
  | Some w => String.eqb w actual
  | None => true
  end.

(** The row of [table_meta] with the given id. *)
Definition findTable (id : string) (st : State) : option TableMeta.t :=
  List.find (fun t => String.eqb (TableMeta.id t) id) (tableMeta st).

(** The first primary field of a table. *)
Definition findPrimaryField (tableId : option string) (st : State) : option FieldRaw.t :=
  List.find (fun f => whereEq tableId (FieldRaw.tableId f)
                      && bool_decide (FieldRaw.isPrimary f = Some true)) (field st).

(** [prisma.tableMeta.findUnique({ where: { id } })] *)
Definition tableMeta_findUnique (id : option string) : M (option TableMeta.t) :=
  match id with
  | None => throw PrismaClientValidationError
  | Some id => gets (findTable id)
  end.

(** [prisma.tableMeta.findUniqueOrThrow({ where: { id } })] *)
Definition tableMeta_findUniqueOrThrow (id : option string) : M TableMeta.t :=
  let* found := tableMeta_findUnique id in
  match found with
  | Some t => ret t
  | None => throw NotFoundError
  end.

(** [prisma.field.findFirstOrThrow({ where: { tableId, isPrimary: true } })] *)
Definition field_findFirstPrimaryOrThrow (tableId : option string) : M FieldRaw.t :=
  let* found := gets (findPrimaryField tableId) in
  match found with
  | Some f => ret f
  | None => throw NotFoundError
  end.

(** [prisma.field.findFirst({ where: { id, deletedTime: null, type: FieldType.Link } })] *)
Definition field_findFirstLink (id : string) : M (option FieldRaw.t) :=
  gets (fun st =>
    List.find (fun f => String.eqb (FieldRaw.id f) id
                        && bool_decide (FieldRaw.deletedTime f = None)
                        && String.eqb (FieldRaw.type f) FieldType.Link) (field st)).

(** [prisma.field.findFirst({ where: { id, deletedTime: null } })] *)
Definition field_findFirstLive (id : string) : M (option FieldRaw.t) :=
  gets (fun st =>
    List.find (fun f => String.eqb (FieldRaw.id f) id
                        && bool_decide (FieldRaw.deletedTime f = None)) (field st)).

(** The rows of [field] whose id is among [fieldIds]. *)
Definition findFieldsIn (fieldIds : list string) (st : State) : list FieldRaw.t :=
  List.filter (fun f => bool_decide (FieldRaw.id f ∈ fieldIds)) (field st).

(** [prisma.field.findMany({ where: { id: { in: fieldIds } } })] *)
Definition field_findManyIn (fieldIds : list string) : M (list FieldRaw.t) :=
  gets (findFieldsIn fieldIds).

(** [prisma.$executeRawUnsafe(alterTableQuery)] *)
Definition executeRawUnsafe (q : AlterTable) : M unit :=
  fun st => Ok (tt, {| tableMeta := tableMeta st; field := field st;
                       executed := executed st ++ [q]; generated := generated st |}).

(** [generateFieldId()] *)
Definition generateFieldId `{Core} : M string :=
  fun st => Ok (generateFieldIdAt (generated st),
                {| tableMeta := tableMeta st; field := field st;
                   executed := executed st; generated := S (generated st) |}).

(** *** The field factory *)

(** Modelled from the spec: the factory [./model/factory] is not among the
    sources; the field model is "data definitions, no behavior", so an
    instance made from a definition carries the definition's properties. *)
Definition createFieldInstanceByRo (fieldRo : IFieldRo.t) : IFieldRo.t := fieldRo.

(** Modelled from the spec: as [createFieldInstanceByRo], from a row of the
    [field] table. *)
Definition createFieldInstanceByRaw (fieldRaw : FieldRaw.t) : IFieldRo.t :=
  {| IFieldRo.id := Some (FieldRaw.id fieldRaw);
     IFieldRo.name := Some (FieldRaw.name fieldRaw);
     IFieldRo.type := FieldRaw.type fieldRaw;
     IFieldRo.isLookup := FieldRaw.isLookup fieldRaw;
     IFieldRo.options := FieldRaw.options fieldRaw;
     IFieldRo.lookupOptions := FieldRaw.lookupOptions fieldRaw;
     IFieldRo.cellValueType := Some (FieldRaw.cellValueType fieldRaw);
     IFieldRo.isMultipleCellValue := FieldRaw.isMultipleCellValue fieldRaw |}.

(** *** The service *)

Section Service.
Context `{Core}.

(** A possibly absent string inside a template literal. *)
Definition interpolate (o : option string) : string := default "undefined" o.

(** [x ?? await y] *)
Definition orElse {A} (o : option A) (m : M A) : M A :=
  match o with
  | Some a => ret a
  | None => m
  end.

Definition getDbTableName (tableId : option string) : M string :=
  let* tableMeta := tableMeta_findUniqueOrThrow tableId in
  ret (TableMeta.dbTableName tableMeta).

Definition getForeignKeyFieldName (fieldId : string) : string :=
  "__fk_" +:+ fieldId.

Definition getDefaultLinkName (foreignTableId : option string) : M string :=
  let* tableRaw := tableMeta_findUnique foreignTableId in
  match tableRaw with
  | None =>
      throw (BadRequestException
               ("foreignTableId " +:+ interpolate foreignTableId +:+ " is invalid"))
  | Some tableRaw => ret (TableMeta.name tableRaw)
  end.

Definition prepareLinkField (field : IFieldRo.t) : M IFieldRo.t :=
  match IFieldRo.options field with
  | None => throw TypeError
  | Some options =>
      let relationship := Options.relationship options in
      let foreignTableId := Options.foreignTableId options in
      let* primary := field_findFirstPrimaryOrThrow foreignTableId in
      let lookupFieldId := FieldRaw.id primary in
      let* fieldId := orElse (IFieldRo.id field) generateFieldId in
      let* symmetricFieldId := generateFieldId in
      let dbForeignKeyName := "" in
      let dbForeignKeyName :=
        if decide (relationship = Some ManyOne)
        then getForeignKeyFieldName fieldId else dbForeignKeyName in
      let dbForeignKeyName :=
        if decide (relationship = Some OneMany)
        then getForeignKeyFieldName symmetricFieldId else dbForeignKeyName in
      let* name := orElse (IFieldRo.name field) (getDefaultLinkName foreignTableId) in
      ret {| IFieldRo.id := Some fieldId;
             IFieldRo.name := Some name;
             IFieldRo.type := IFieldRo.type field;
             IFieldRo.isLookup := IFieldRo.isLookup field;
             IFieldRo.options :=
               Some {| Options.relationship := relationship;
                       Options.foreignTableId := foreignTableId;
                       Options.lookupFieldId := Some lookupFieldId;
                       Options.dbForeignKeyName := Some dbForeignKeyName;
                       Options.symmetricFieldId := Some symmetricFieldId;
                       Options.expression := None;
                       Options.formatting := None;
                       Options.others := [] |};
             IFieldRo.lookupOptions := IFieldRo.lookupOptions field;
             IFieldRo.cellValueType := IFieldRo.cellValueType field;
             IFieldRo.isMultipleCellValue := IFieldRo.isMultipleCellValue field |}
  end.

(** A definition of the batch read through the type [ILinkFieldOptions]: it
    has none of the properties of link options. *)
Definition asLinkFieldOptions (fieldRo : IFieldRo.t) : Options.t :=
  {| Options.relationship := None; Options.foreignTableId := None;
     Options.lookupFieldId := None; Options.dbForeignKeyName := None;
     Options.symmetricFieldId := None; Options.expression := None;
     Options.formatting := None; Options.others := [] |}.

(** [batchFieldRos?.find((field) => field.id === linkFieldId)] *)
Definition findInBatch (batchFieldRos : option (list IFieldRo.t)) (linkFieldId : string)
  : option IFieldRo.t :=
  match batchFieldRos with
  | None => None
  | Some l => List.find (fun f => bool_decide (IFieldRo.id f = Some linkFieldId)) l
  end.

Definition prepareLookupOptions (field : IFieldRo.t) (batchFieldRos : option (list IFieldRo.t))
  : M (LookupOptions.t * FieldRaw.t * FieldRaw.t) :=
  match IFieldRo.lookupOptions field with
  | None => throw (BadRequestException "lookupOptions is required")
  | Some lookupOptions =>
      let linkFieldId := LookupOptions.linkFieldId lookupOptions in
      let lookupFieldId := LookupOptions.lookupFieldId lookupOptions in
      let foreignTableId := LookupOptions.foreignTableId lookupOptions in
      let* linkFieldRaw := field_findFirstLink linkFieldId in
      let optionsRaw := linkFieldRaw ≫= FieldRaw.options in
      let linkFieldOptions :=
        match optionsRaw with
        | Some o => Some o
        | None => asLinkFieldOptions <$> findInBatch batchFieldRos linkFieldId
        end in
      match linkFieldOptions, linkFieldRaw with
      | Some linkFieldOptions, Some linkFieldRaw =>
          if negb (bool_decide (Some foreignTableId = Options.foreignTableId linkFieldOptions))
          then throw (BadRequestException ("foreignTableId " +:+ foreignTableId +:+ " is invalid"))
          else
            let* lookupFieldRaw := field_findFirstLive lookupFieldId in
            match lookupFieldRaw with
            | None =>
                throw (BadRequestException ("Lookup field " +:+ lookupFieldId +:+ " is not exist"))
            | Some lookupFieldRaw =>
                ret ({| LookupOptions.linkFieldId := linkFieldId;
                        LookupOptions.lookupFieldId := lookupFieldId;
                        LookupOptions.foreignTableId := foreignTableId;
                        LookupOptions.relationship := Options.relationship linkFieldOptions;
                        LookupOptions.dbForeignKeyName :=
                          Options.dbForeignKeyName linkFieldOptions |},
                     lookupFieldRaw, linkFieldRaw)
            end
      | _, _ =>
          throw (BadRequestException ("linkFieldId " +:+ linkFieldId +:+ " is invalid"))
      end
  end.

(** [{ ...options, formatting }] *)
Definition withFormatting (options : Options.t) (formatting : string) : Options.t :=
  {| Options.relationship := Options.relationship options;
     Options.foreignTableId := Options.foreignTableId options;
     Options.lookupFieldId := Options.lookupFieldId options;
     Options.dbForeignKeyName := Options.dbForeignKeyName options;
     Options.symmetricFieldId := Options.symmetricFieldId options;
     Options.expression := Options.expression options;
     Options.formatting := Some formatting;
     Options.others := Options.others options |}.

(** [(field.options as ..)?.formatting ?? getDefaultFormatting(cellValueType)] *)
Definition formattingOf (options : option Options.t) (cellValueType : string) : option string :=
  match options ≫= Options.formatting with
  | Some f => Some f
  | None => getDefaultFormatting cellValueType
  end.

Definition prepareLookupField (field : IFieldRo.t) (batchFieldRos : option (list IFieldRo.t))
  : M IFieldRo.t :=
  let* '(lookupOptions, lookupFieldRaw, linkFieldRaw) :=
    prepareLookupOptions field batchFieldRos in
  if negb (String.eqb (FieldRaw.type lookupFieldRaw) (IFieldRo.type field))
  then throw (BadRequestException
                ("Current field type " +:+ IFieldRo.type field
                 +:+ " is not equal to lookup field (" +:+ FieldRaw.type lookupFieldRaw
                 +:+ ")"))
  else
    let lookupFieldOptions := FieldRaw.options lookupFieldRaw in
    let formatting :=
      formattingOf (IFieldRo.options field) (FieldRaw.cellValueType lookupFieldRaw) in
    let options :=
      match lookupFieldOptions with
      | Some lookupFieldOptions =>
          match formatting with
          | Some formatting => Some (withFormatting lookupFieldOptions formatting)
          | None => Some lookupFieldOptions
          end
      | None => None
      end in
    ret {| IFieldRo.id := IFieldRo.id field;
           IFieldRo.name :=
             Some (default (FieldRaw.name lookupFieldRaw +:+ " (from "
                            +:+ FieldRaw.name linkFieldRaw +:+ ")")
                           (IFieldRo.name field));
           IFieldRo.type := IFieldRo.type field;
           IFieldRo.isLookup := IFieldRo.isLookup field;
           IFieldRo.options := options;
           IFieldRo.lookupOptions := Some lookupOptions;
           IFieldRo.cellValueType := IFieldRo.cellValueType field;
           IFieldRo.isMultipleCellValue := IFieldRo.isMultipleCellValue field |}.

(** lodash's [keyBy(fields, 'id')]: the key of a field without id is the
    string ["undefined"]; a later field replaces an earlier one. *)
Definition keyById (fields : list IFieldRo.t) : gmap string IFieldRo.t :=
  foldl (fun m f => <[interpolate (IFieldRo.id f) := f]> m) ∅ fields.

(** [!fieldMap[id]] on the object [keyBy] returns: the id is neither a key
    of the map (a field, which is truthy) nor a name the object inherits. *)
Definition unresolved (fieldMap : gmap string IFieldRo.t) (id : string) : bool :=
  bool_decide (fieldMap !! id = None) && negb (bool_decide (id ∈ objectPrototype)).

(** [fieldIds.find((id) => !fieldMap[id])] *)
Definition firstUnresolved (fieldMap : gmap string IFieldRo.t) (fieldIds : list string)
  : option string :=
  List.find (unresolved fieldMap) fieldIds.

(** The field map [prepareFormulaField] resolves references against. *)
Definition formulaFieldMap (fieldRaws : list FieldRaw.t)
    (batchFieldRos : option (list IFieldRo.t)) : gmap string IFieldRo.t :=
  let fields := map createFieldInstanceByRaw fieldRaws in
  let batchFields := map createFieldInstanceByRo <$> batchFieldRos in
  keyById (fields ++ default [] batchFields).

Definition prepareFormulaField (field : IFieldRo.t) (batchFieldRos : option (list IFieldRo.t))
  : M IFieldRo.t :=
  let expression := IFieldRo.options field ≫= Options.expression in
  match (match IFieldRo.options field with
         | None => None
         | Some _ => getReferenceFieldIds expression
         end) with
  | None => throw (BadRequestException "expression parse error")
  | Some fieldIds =>
      let* fieldRaws := field_findManyIn fieldIds in
      let fieldMap := formulaFieldMap fieldRaws batchFieldRos in
      if from_option truthy false (firstUnresolved fieldMap fieldIds)
      then throw (BadRequestException
                    ("formula field reference " +:+ join "," fieldIds +:+ " not found"))
      else
        match formulaParsedValueType expression fieldMap with
        | Throw e => throw e
        | Ok (cellValueType, isMultipleCellValue) =>
            let formatting := formattingOf (IFieldRo.options field) cellValueType in
            let options :=
              match formatting with
              | Some formatting =>
                  (fun o => withFormatting o formatting) <$> IFieldRo.options field
              | None => IFieldRo.options field
              end in
            ret {| IFieldRo.id := IFieldRo.id field;
                   IFieldRo.name := IFieldRo.name field;
                   IFieldRo.type := IFieldRo.type field;
                   IFieldRo.isLookup := IFieldRo.isLookup field;
                   IFieldRo.options := options;
                   IFieldRo.lookupOptions := IFieldRo.lookupOptions field;
                   IFieldRo.cellValueType := Some cellValueType;
                   IFieldRo.isMultipleCellValue := Some isMultipleCellValue |}
        end
  end.

Definition prepareRollupField (field : IFieldRo.t) (batchFieldRos : option (list IFieldRo.t))
  : M IFieldRo.t :=
  let* '(lookupOptions, lookupFieldRaw, linkFieldRaw) :=
    prepareLookupOptions field batchFieldRos in
  match IFieldRo.options field with
  | None => throw (BadRequestException "rollup field options is required")
  | Some options =>
      match rollupParsedValueType (Options.expression options) with
      | inl message => throw (BadRequestException message)
      | inr (cellValueType, isMultipleCellValue) =>
          let formatting := formattingOf (Some options) cellValueType in
          let fulfilledOptions :=
            match formatting with
            | Some formatting => withFormatting options formatting
            | None => options
            end in
          ret {| IFieldRo.id := IFieldRo.id field;
                 IFieldRo.name :=
                   Some (default (FieldRaw.name lookupFieldRaw +:+ " Rollup (from "
                                  +:+ FieldRaw.name linkFieldRaw +:+ ")")
                                 (IFieldRo.name field));
                 IFieldRo.type := IFieldRo.type field;
                 IFieldRo.isLookup := IFieldRo.isLookup field;
                 IFieldRo.options := Some fulfilledOptions;
                 IFieldRo.lookupOptions := Some lookupOptions;
                 IFieldRo.cellValueType := Some cellValueType;
                 IFieldRo.isMultipleCellValue := Some isMultipleCellValue |}
      end
  end.

(** [fieldRo.isLookup] as a condition. *)
Definition isLookupSet (fieldRo : IFieldRo.t) : bool :=
  bool_decide (IFieldRo.isLookup fieldRo = Some true).

Definition prepareField (fieldRo : IFieldRo.t) (batchFieldRos : option (list IFieldRo.t))
  : M IFieldRo.t :=
  if isLookupSet fieldRo then prepareLookupField fieldRo batchFieldRos
  else if String.eqb (IFieldRo.type fieldRo) FieldType.Rollup
  then prepareRollupField fieldRo batchFieldRos
  else if String.eqb (IFieldRo.type fieldRo) FieldType.Link
  then prepareLinkField fieldRo
  else if String.eqb (IFieldRo.type fieldRo) FieldType.Formula
  then prepareFormulaField fieldRo batchFieldRos
  else ret fieldRo.

(** [field.options.p]: reading a property of absent options is a
    [TypeError]. *)
Definition optionsOf (field : IFieldRo.t) : M Options.t :=
  match IFieldRo.options field with
  | Some o => ret o
  | None => throw TypeError
  end.

Definition generateSymmetricField (tableId : string) (field : IFieldRo.t) : M IFieldRo.t :=
  let* tableMeta := tableMeta_findUniqueOrThrow (Some tableId) in
  let tableName := TableMeta.name tableMeta in
  let* primary := field_findFirstPrimaryOrThrow (Some tableId) in
  let lookupFieldId := FieldRaw.id primary in
  let* options := optionsOf field in
  let relationship := RelationshipRevert <$> Options.relationship options in
  ret (createFieldInstanceByRo
         {| IFieldRo.id := Options.symmetricFieldId options;
            IFieldRo.name := Some tableName;
            IFieldRo.type := FieldType.Link;
            IFieldRo.isLookup := None;
            IFieldRo.options :=
              Some {| Options.relationship := relationship;
                      Options.foreignTableId := Some tableId;
                      Options.lookupFieldId := Some lookupFieldId;
                      Options.dbForeignKeyName := Options.dbForeignKeyName options;
                      Options.symmetricFieldId := IFieldRo.id field;
                      Options.expression := None;
                      Options.formatting := None;
                      Options.others := [] |};
            IFieldRo.lookupOptions := None;
            IFieldRo.cellValueType := None;
            IFieldRo.isMultipleCellValue := None |}).

Definition createForeignKeyField (tableId : option string) (field : IFieldRo.t) : M unit :=
  let* options := optionsOf field in
  if negb (bool_decide (Options.relationship options = Some ManyOne))
  then throw (Error "only many-one relationship should create foreign key field")
  else
    let* dbTableName := getDbTableName tableId in
    executeRawUnsafe {| at_table := dbTableName;
                        at_column := Options.dbForeignKeyName options |}.

Definition supplementByCreate (tableId : string) (field : IFieldRo.t) : M IFieldRo.t :=
  if negb (String.eqb (IFieldRo.type field) FieldType.Link)
  then throw (Error "only link field need to create supplement field")
  else
    let* options := optionsOf field in
    let foreignTableId := Options.foreignTableId options in
    let* symmetricField := generateSymmetricField tableId field in
    let* symmetricOptions := optionsOf symmetricField in
    let* _ :=
      (if bool_decide (Options.relationship symmetricOptions = Some ManyOne)
       then createForeignKeyField foreignTableId symmetricField
       else ret tt) in
    let* _ :=
      (if bool_decide (Options.relationship options = Some ManyOne)
       then createForeignKeyField (Some tableId) field
       else ret tt) in
    ret symmetricField.

(** A valid request to create a link field on table [tableId]: a link
    definition that is not a lookup, with a relationship and a foreign
    table; both tables exist and have a primary field. *)
Definition validLinkRequest (st : State) (tableId : string) (field : IFieldRo.t) : Prop :=
  IFieldRo.type field = FieldType.Link
  /\ isLookupSet field = false
  /\ exists options relationship foreignTableId,
      IFieldRo.options field = Some options
      /\ Options.relationship options = Some relationship
      /\ Options.foreignTableId options = Some foreignTableId
      /\ is_Some (findTable foreignTableId st)
      /\ is_Some (findPrimaryField (Some foreignTableId) st)
      /\ is_Some (findTable tableId st)
      /\ is_Some (findPrimaryField (Some tableId) st).

(** The foreign-key columns [supplementByCreate] adds for a relationship:
    on the foreign table when the symmetric field is the ManyOne side, on
    the field's own table when the field is. *)
Definition foreignKeyColumns (r : Relationship) (own foreign : TableMeta.t)
    (column : option string) : list AlterTable :=
  match r with
  | OneMany => [{| at_table := TableMeta.dbTableName foreign; at_column := column |}]
  | ManyOne => [{| at_table := TableMeta.dbTableName own; at_column := column |}]
  | ManyMany => []
  end.

(** What a referenced id of an accepted formula can be: the id of a row of
    the field table, the id of a definition of the batch (a definition
    without id counts under [undefined]), or a name every object
    inherits. *)
Definition referenceResolves (st : State) (batchFieldRos : option (list IFieldRo.t))
    (id : string) : Prop :=
  (exists raw, raw ∈ FieldSupplement.field st /\ FieldRaw.id raw = id)
  \/ (exists batch b,
         batchFieldRos = Some batch /\ b ∈ batch /\ interpolate (IFieldRo.id b) = id)
  \/ id ∈ objectPrototype.

(** [sub] occurs in [s]. *)
Definition occursIn (sub s : string) : Prop :=
  exists before after, s = before +:+ sub +:+ after.

(** *** Reference edges *)

(** A row of the [reference] table: the field at [toFieldId] is computed
    from the field at [fromFieldId]. *)
Record Reference : Type := {
  fromFieldId : string;
  toFieldId : string;
}.

(** [prisma.reference.create({ data: { fromFieldId, toFieldId } })]: the row
    created; both columns are required. *)
Definition reference_create (fromFieldId toFieldId : option string) : Result Reference :=
  match fromFieldId, toFieldId with
  | Some f, Some t => Ok {| fromFieldId := f; toFieldId := t |}
  | _, _ => Throw PrismaClientValidationError
  end.

Definition createLookupReference (field : IFieldRo.t) : Result (list Reference) :=
  let toFieldId := IFieldRo.id field in
  match IFieldRo.lookupOptions field with
  | None => Throw (Error "lookupOptions is required")
  | Some lookupOptions =>
      rbind (reference_create (Some (LookupOptions.lookupFieldId lookupOptions)) toFieldId)
            (fun r => Ok [r])
  end.

Definition createLinkReference (field : IFieldRo.t) : Result (list Reference) :=
  let toFieldId := IFieldRo.id field in
  match IFieldRo.options field with
  | None => Throw TypeError
  | Some options =>
      rbind (reference_create (Options.lookupFieldId options) toFieldId)
            (fun r => Ok [r])
  end.

(** [for (const fromFieldId of fieldIds) await prisma.reference.create(..)] *)
Fixpoint createReferences (fieldIds : list string) (toFieldId : option string)
  : Result (list Reference) :=
  match fieldIds with
  | [] => Ok []
  | fromFieldId :: rest =>
      rbind (reference_create (Some fromFieldId) toFieldId) (fun r =>
      rbind (createReferences rest toFieldId) (fun rs => Ok (r :: rs)))
  end.

(** The method [field.getReferenceFieldIds()] of the formula DTO reads the
    field's own expression; when the parser throws, its error (whose
    message the sources do not show) passes through. *)
Definition createFormulaReference (field : IFieldRo.t) : Result (list Reference) :=
  match getReferenceFieldIds (IFieldRo.options field ≫= Options.expression) with
  | None => Throw (Error "")
  | Some fieldIds => createReferences fieldIds (IFieldRo.id field)
  end.

(** [createReference]: the rows it inserts, in their order. *)
Definition createReference (field : IFieldRo.t) : Result (list Reference) :=
  if isLookupSet field then createLookupReference field
  else if String.eqb (IFieldRo.type field) FieldType.Formula then createFormulaReference field
  else if String.eqb (IFieldRo.type field) FieldType.Rollup then createLookupReference field
  else if String.eqb (IFieldRo.type field) FieldType.Link then createLinkReference field
  else Ok [].

End Service.

End FieldSupplement.

(* ===================================================================== *)
(** ** Example collaborators and data                                     *)
(* ===================================================================== *)

Module Fixtures.
Import Js.

(** Integers as numbers. *)
Definition intNumbers : Numbers :=
  {| number := Z; Number_of_Z := fun z => z; number_to_string := Z_to_string |}.

(** A process in a zone with a fixed offset, and a dayjs that answers [0]
    outside the date-only strings. *)
Definition noDayjs : @Dayjs.Unmodelled intNumbers :=
  @Dayjs.Build_Unmodelled intNumbers true (fun _ _ => 0%Z).

(** A table with a visible field and a hidden one. *)
Definition fldA : Aggregation.IFieldInstance :=
  {| Aggregation.id := "fldA"; Aggregation.name := "Name"; Aggregation.dbFieldName := "name_col" |}.
Definition fldB : Aggregation.IFieldInstance :=
  {| Aggregation.id := "fldB"; Aggregation.name := "Secret"; Aggregation.dbFieldName := "secret_col" |}.

Definition fullMap : gmap string Aggregation.IFieldInstance :=
  <["fldA" := fldA]> (<["fldB" := fldB]> ∅).

Definition columnMeta : gmap string bool := <["fldB" := true]> ∅.

Definition visibleMap : gmap string Aggregation.IFieldInstance :=
  Aggregation.withoutHiddenFields columnMeta fullMap.

Definition appliedSearch : Aggregation.Search := ("x", None, Some true).

Definition countOfA : Aggregation.IAggregationField.t :=
  {| Aggregation.IAggregationField.fieldId := "fldA";
     Aggregation.IAggregationField.statisticFunc := "count" |}.

Definition searchAggregation : Aggregation.AggregationParams :=
  {| Aggregation.dbTableName := "tbl";
     Aggregation.fieldInstanceMap := fullMap;
     Aggregation.fieldInstanceMapWithoutHiddenFields := visibleMap;
     Aggregation.filter := None;
     Aggregation.groupBy := None;
     Aggregation.search := Some appliedSearch;
     Aggregation.statisticFields := Some [countOfA];
     Aggregation.withUserId := None |}.

Definition rowCountParams (candidate : option Aggregation.FilterLinkCell)
    (ids : option (list string)) (search : option Aggregation.Search)
  : Aggregation.RowCountParams :=
  {| Aggregation.rc_tableId := "tblId";
     Aggregation.rc_dbTableName := "tbl";
     Aggregation.rc_fieldInstanceMap := fullMap;
     Aggregation.rc_fieldInstanceMapWithoutHiddenFields := visibleMap;
     Aggregation.rc_filter := None;
     Aggregation.rc_filterLinkCellCandidate := candidate;
     Aggregation.rc_filterLinkCellSelected := None;
     Aggregation.rc_selectedRecordIds := ids;
     Aggregation.rc_search := search;
     Aggregation.rc_withUserId := None |}.

Definition rec (id : string) : @Aggregation.DbRecord intNumbers :=
  {| Aggregation.__id := id; Aggregation.cells := ∅ |}.

(** A store whose every table holds the records r1, r2, r3, whose external
    fragments let every record through and whose aggregation statements
    return no row. *)
Definition threeRecords : @Aggregation.Store intNumbers :=
  {| Aggregation.queryRawUnsafe := fun _ => Ok [];
     Aggregation.records := fun _ => [rec "r1"; rec "r2"; rec "r3"];
     Aggregation.fragmentHolds := fun _ _ => true |}.

(** Helpers of [../../utils] for the examples: values stringify to
    themselves and a string hashes to its length. *)
Definition lengthHash : @Aggregation.Utils intNumbers :=
  @Aggregation.Build_Utils intNumbers (fun v => v) (fun s => Z.of_nat (String.length s)).

Definition rowA : gmap string (@Value intNumbers) :=
  <["name_col" := @VString intNumbers "A"]> (<["fldA_count" := @VBigInt intNumbers 2]> ∅).

(** A store whose aggregation statements return the one row [rowA]. *)
Definition oneRowStore : @Aggregation.Store intNumbers :=
  {| Aggregation.queryRawUnsafe := fun _ => Ok [rowA];
     Aggregation.records := fun _ => [];
     Aggregation.fragmentHolds := fun _ _ => true |}.

Definition groupByA : Aggregation.IGroupItem.t :=
  {| Aggregation.IGroupItem.fieldId := "fldA"; Aggregation.IGroupItem.order := "asc" |}.

Definition groupedParams : @Aggregation.GroupedParams intNumbers :=
  {| Aggregation.g_aggregations :=
       [ {| Aggregation.fieldId := "fldA";
            Aggregation.total :=
              Some {| Aggregation.value := @Aggregation.Num intNumbers 2%Z;
                      Aggregation.aggFunc := "count" |};
            Aggregation.group := None |} ];
     Aggregation.g_statisticFields := Some [countOfA];
     Aggregation.g_filter := None;
     Aggregation.g_search := None;
     Aggregation.g_groupBy := Some [groupByA];
     Aggregation.g_dbTableName := "tbl";
     Aggregation.g_fieldInstanceMap := fullMap;
     Aggregation.g_fieldInstanceMapWithoutHiddenFields := visibleMap;
     Aggregation.g_currentUserId := None |}.

(** Collaborators of the field supplement service for the examples: the
    [n]-th generated id is [fldGen<n>], there is no default formatting, an
    expression references the ids between its [+] signs, and every
    expression is a single-valued string (formula) or number (rollup). *)
Definition core : FieldSupplement.Core :=
  {| FieldSupplement.generateFieldIdAt := fun n => "fldGen" +:+ Z_to_string (Z.of_nat n);
     FieldSupplement.getDefaultFormatting := fun _ => None;
     FieldSupplement.getReferenceFieldIds := fun e => split "+"%char <$> e;
     FieldSupplement.formulaParsedValueType := fun _ _ => Ok ("string", false);
     FieldSupplement.rollupParsedValueType := fun _ => inr ("number", false) |}.

Definition linkOptions (r : FieldSupplement.Relationship) (foreignTableId : string)
  : FieldSupplement.Options.t :=
  {| FieldSupplement.Options.relationship := Some r;
     FieldSupplement.Options.foreignTableId := Some foreignTableId;
     FieldSupplement.Options.lookupFieldId := None;
     FieldSupplement.Options.dbForeignKeyName := None;
     FieldSupplement.Options.symmetricFieldId := None;
     FieldSupplement.Options.expression := None;
     FieldSupplement.Options.formatting := None;
     FieldSupplement.Options.others := [] |}.

Definition rawField (id name tableId type : string) (isPrimary : bool)
    (options : option FieldSupplement.Options.t) : FieldSupplement.FieldRaw.t :=
  {| FieldSupplement.FieldRaw.id := id;
     FieldSupplement.FieldRaw.name := name;
     FieldSupplement.FieldRaw.tableId := tableId;
     FieldSupplement.FieldRaw.type := type;
     FieldSupplement.FieldRaw.isLookup := None;
     FieldSupplement.FieldRaw.isPrimary := Some isPrimary;
     FieldSupplement.FieldRaw.options := options;
     FieldSupplement.FieldRaw.lookupOptions := None;
     FieldSupplement.FieldRaw.cellValueType := "string";
     FieldSupplement.FieldRaw.isMultipleCellValue := None;
     FieldSupplement.FieldRaw.deletedTime := None |}.

Definition fldOrderName := rawField "fldOrderName" "Order" "tblOrders" "singleLineText" true None.
Definition fldCustomerName :=
  rawField "fldCustomerName" "Customer" "tblCustomers" "singleLineText" true None.
Definition fldAmount := rawField "fldAmount" "Amount" "tblCustomers" "number" false None.
Definition fldLink :=
  rawField "fldLink" "Customers" "tblOrders" "link" false
           (Some (linkOptions FieldSupplement.ManyOne "tblCustomers")).

(** Two tables, each with a primary field; the orders link to customers. *)
Definition shop : FieldSupplement.State :=
  {| FieldSupplement.tableMeta :=
       [ {| FieldSupplement.TableMeta.id := "tblOrders";
            FieldSupplement.TableMeta.name := "Orders";
            FieldSupplement.TableMeta.dbTableName := "orders" |};
         {| FieldSupplement.TableMeta.id := "tblCustomers";
            FieldSupplement.TableMeta.name := "Customers";
            FieldSupplement.TableMeta.dbTableName := "customers" |} ];
     FieldSupplement.field := [fldOrderName; fldCustomerName; fldAmount; fldLink];
     FieldSupplement.executed := [];
     FieldSupplement.generated := 0 |}.

Definition definition (type : string) (isLookup : option bool)
    (options : option FieldSupplement.Options.t)
    (lookupOptions : option FieldSupplement.LookupOptions.t) : FieldSupplement.IFieldRo.t :=
  {| FieldSupplement.IFieldRo.id := None;
     FieldSupplement.IFieldRo.name := None;
     FieldSupplement.IFieldRo.type := type;
     FieldSupplement.IFieldRo.isLookup := isLookup;
     FieldSupplement.IFieldRo.options := options;
     FieldSupplement.IFieldRo.lookupOptions := lookupOptions;
     FieldSupplement.IFieldRo.cellValueType := None;
     FieldSupplement.IFieldRo.isMultipleCellValue := None |}.

(** A request for a link from orders to customers. *)
Definition linkRequest (r : FieldSupplement.Relationship) : FieldSupplement.IFieldRo.t :=
  definition "link" None (Some (linkOptions r "tblCustomers")) None.

Definition amountLookup : FieldSupplement.LookupOptions.t :=
  {| FieldSupplement.LookupOptions.linkFieldId := "fldLink";
     FieldSupplement.LookupOptions.lookupFieldId := "fldAmount";
     FieldSupplement.LookupOptions.foreignTableId := "tblCustomers";
     FieldSupplement.LookupOptions.relationship := None;
     FieldSupplement.LookupOptions.dbForeignKeyName := None |}.

(** A lookup of the number field Amount, declared as text. *)
Definition textLookupOfAmount : FieldSupplement.IFieldRo.t :=
  definition "singleLineText" (Some true) None (Some amountLookup).

(** A formula over an existing field and one that does not exist. *)
Definition ghostFormula : FieldSupplement.IFieldRo.t :=
  definition "formula" None
    (Some {| FieldSupplement.Options.relationship := None;
             FieldSupplement.Options.foreignTableId := None;
             FieldSupplement.Options.lookupFieldId := None;
             FieldSupplement.Options.dbForeignKeyName := None;
             FieldSupplement.Options.symmetricFieldId := None;
             FieldSupplement.Options.expression := Some "fldOrderName+fldGhost";
             FieldSupplement.Options.formatting := None;
             FieldSupplement.Options.others := [] |})
    None.

(** A view that counts the visible field fldA and hides fldB. *)
Definition viewColumnMeta : gmap string Aggregation.ColumnMeta.t :=
  <["fldA" := {| Aggregation.ColumnMeta.hidden := None;
                 Aggregation.ColumnMeta.statisticFunc := Some "count";
                 Aggregation.ColumnMeta.order := None |}]>
    (<["fldB" := {| Aggregation.ColumnMeta.hidden := Some true;
                    Aggregation.ColumnMeta.statisticFunc := Some "count";
                    Aggregation.ColumnMeta.order := None |}]> ∅).

(** A search term that is not applied. *)
Definition idleSearch : Aggregation.Search := ("x", None, Some false).

(** The grouped aggregation of [groupedParams] with the given statistics. *)
Definition groupedParamsWith (statisticFields : option (list Aggregation.IAggregationField.t))
  : @Aggregation.GroupedParams intNumbers :=
  {| Aggregation.g_aggregations := Aggregation.g_aggregations groupedParams;
     Aggregation.g_statisticFields := statisticFields;
     Aggregation.g_filter := None;
     Aggregation.g_search := None;
     Aggregation.g_groupBy := Some [groupByA];
     Aggregation.g_dbTableName := "tbl";
     Aggregation.g_fieldInstanceMap := fullMap;
     Aggregation.g_fieldInstanceMapWithoutHiddenFields := visibleMap;
     Aggregation.g_currentUserId := None |}.

(** A definition under a given id. *)
Definition withId (id : string) (fieldRo : FieldSupplement.IFieldRo.t)
  : FieldSupplement.IFieldRo.t :=
  {| FieldSupplement.IFieldRo.id := Some id;
     FieldSupplement.IFieldRo.name := FieldSupplement.IFieldRo.name fieldRo;
     FieldSupplement.IFieldRo.type := FieldSupplement.IFieldRo.type fieldRo;
     FieldSupplement.IFieldRo.isLookup := FieldSupplement.IFieldRo.isLookup fieldRo;
     FieldSupplement.IFieldRo.options := FieldSupplement.IFieldRo.options fieldRo;
     FieldSupplement.IFieldRo.lookupOptions := FieldSupplement.IFieldRo.lookupOptions fieldRo;
     FieldSupplement.IFieldRo.cellValueType := FieldSupplement.IFieldRo.cellValueType fieldRo;
     FieldSupplement.IFieldRo.isMultipleCellValue :=
       FieldSupplement.IFieldRo.isMultipleCellValue fieldRo |}.

(** A lookup of the number field Amount, declared as a number. *)
Definition numberLookupOfAmount : FieldSupplement.IFieldRo.t :=
  withId "fldLookup" (definition "number" (Some true) None (Some amountLookup)).

(** The options of a formula. *)
Definition formulaOptions (expression : string) : FieldSupplement.Options.t :=
  {| FieldSupplement.Options.relationship := None;
     FieldSupplement.Options.foreignTableId := None;
     FieldSupplement.Options.lookupFieldId := None;
     FieldSupplement.Options.dbForeignKeyName := None;
     FieldSupplement.Options.symmetricFieldId := None;
     FieldSupplement.Options.expression := Some expression;
     FieldSupplement.Options.formatting := None;
     FieldSupplement.Options.others := [] |}.

(** A formula over two existing fields. *)
Definition sumFormula : FieldSupplement.IFieldRo.t :=
  withId "fldSum"
    (definition "formula" None (Some (formulaOptions "fldOrderName+fldAmount")) None).

(** A formula over an existing field and the name [constructor], which is
    the id of no field. *)
Definition inheritedFormula : FieldSupplement.IFieldRo.t :=
  definition "formula" None (Some (formulaOptions "fldOrderName+constructor")) None.

(** A link to a table that does not exist. *)
Definition ghostLink : FieldSupplement.IFieldRo.t :=
  definition "link" None (Some (linkOptions FieldSupplement.OneMany "tblGhost")) None.

End Fixtures.

(* ===================================================================== *)
(** ** Facts about the JavaScript fragments                               *)
(* ===================================================================== *)

Section JsFacts.
Import Js.

Lemma rbind_Ok {A B} (r : Result A) (k : A -> Result B) (b : B) :
  rbind r k = Ok b -> exists a, r = Ok a /\ k a = Ok b.
Proof. destruct r as [a|e]; simpl; [eauto | discriminate]. Qed.

Lemma split_app sep a b :
  occurs sep a = false ->
  split sep (a +:+ String sep b) = a :: split sep b.
Proof.
  induction a as [|c a IH]; simpl; intros Hocc.
  - by rewrite Ascii.eqb_refl.
  - apply orb_false_iff in Hocc as [Hc Ha].
    by rewrite Hc, (IH Ha).
Qed.

Lemma split_no_sep sep a : occurs sep a = false -> split sep a = [a].
Proof.
  induction a as [|c a IH]; simpl; intros Hocc; [done|].
  apply orb_false_iff in Hocc as [Hc Ha].
  by rewrite Hc, (IH Ha).
Qed.

Lemma append_assoc (a b c : string) : (a +:+ b) +:+ c = a +:+ b +:+ c.
Proof.
  induction a as [|x a IH]; [done|].
  change (String x ((a +:+ b) +:+ c) = String x (a +:+ b +:+ c)). by f_equal.
Qed.

Lemma append_empty_r (a : string) : a +:+ "" = a.
Proof.
  induction a as [|x a IH]; [done|].
  change (String x (a +:+ "") = String x a). by f_equal.
Qed.

(** An element of an array occurs in the joined string. *)
Lemma join_occurs (sep x : string) (l : list string) :
  x ∈ l -> exists before after, join sep l = before +:+ x +:+ after.
Proof.
  induction l as [|y l IH]; intros Hx; [by apply elem_of_nil in Hx|].
  apply elem_of_cons in Hx as [->|Hx].
  - destruct l as [|z l].
    + exists "", "". simpl. by rewrite append_empty_r.
    + exists "", (sep +:+ join sep (z :: l)). reflexivity.
  - destruct (IH Hx) as (before & after & Hjoin).
    destruct l as [|z l]; [by apply elem_of_nil in Hx|].
    exists (y +:+ sep +:+ before), after.
    change (join sep (y :: z :: l)) with (y +:+ sep +:+ join sep (z :: l)).
    by rewrite Hjoin, !append_assoc.
Qed.

Lemma truthy_nonempty (s : string) : s <> "" -> truthy s = true.
Proof. by destruct s. Qed.

End JsFacts.

(* ===================================================================== *)
(** ** The month difference of two calendar days                         *)
(* ===================================================================== *)

Section CalendarFacts.
Import Dayjs.
Local Open Scope Z_scope.

(** The days of year [y]. *)
Lemma leap_year_days (y : Z) :
  365 * y + y / 4 - y / 100 + y / 400
  = 365 * (y - 1) + (y - 1) / 4 - (y - 1) / 100 + (y - 1) / 400
    + 365 + (if isLeapYear y then 1 else 0).
Proof.
  unfold isLeapYear.
  destruct (y mod 4 =? 0) eqn:H4, (y mod 100 =? 0) eqn:H100, (y mod 400 =? 0) eqn:H400;
    cbn [andb orb negb];
    rewrite ?Z.eqb_eq, ?Z.eqb_neq in *;
    Z.div_mod_to_equations; lia.
Qed.

(** Evaluates the table lookups and comparisons of closed numbers. *)
Ltac closed_tests :=
  repeat match goal with
         | |- context [nth (Z.to_nat ?m) ?l 0] =>
             let v := eval vm_compute in (nth (Z.to_nat m) l 0) in
             change (nth (Z.to_nat m) l 0) with v
         | |- context [Z.eqb ?a ?b] =>
             let v := eval vm_compute in (Z.eqb a b) in
             change (Z.eqb a b) with v
         | |- context [Z.leb ?a ?b] =>
             let v := eval vm_compute in (Z.leb a b) in
             change (Z.leb a b) with v
         end;
  cbn [andb orb negb].

Lemma firstDay_succ (t : Z) : firstDay (t + 1) = firstDay t + lengthOfMonth t.
Proof.
  unfold firstDay, lengthOfMonth, dayNumber. cbn [year month date].
  pose proof (Z.mod_pos_bound t 12 ltac:(lia)) as Hm.
  assert (Hcase : t mod 12 = 11 \/ t mod 12 < 11) by lia.
  destruct Hcase as [H11 | Hlt].
  - assert (Hy : (t + 1) / 12 = t / 12 + 1) by (Z.div_mod_to_equations; lia).
    assert (Hm' : (t + 1) mod 12 = 0) by (Z.div_mod_to_equations; lia).
    rewrite Hy, Hm', H11.
    replace (t / 12 + 1 - 1) with (t / 12) by lia.
    pose proof (leap_year_days (t / 12)) as Hyear.
    unfold daysBeforeMonth, daysInMonth.
    remember (isLeapYear (t / 12)) as leap.
    remember (isLeapYear (t / 12 + 1)) as leap'.
    closed_tests. destruct leap, leap'; closed_tests; lia.
  - assert (Hy : (t + 1) / 12 = t / 12) by (Z.div_mod_to_equations; lia).
    assert (Hm' : (t + 1) mod 12 = t mod 12 + 1) by (Z.div_mod_to_equations; lia).
    rewrite Hy, Hm'.
    assert (Hcases : t mod 12 = 0 \/ t mod 12 = 1 \/ t mod 12 = 2 \/ t mod 12 = 3
                     \/ t mod 12 = 4 \/ t mod 12 = 5 \/ t mod 12 = 6 \/ t mod 12 = 7
                     \/ t mod 12 = 8 \/ t mod 12 = 9 \/ t mod 12 = 10) by lia.
    unfold daysBeforeMonth, daysInMonth.
    remember (isLeapYear (t / 12)) as leap.
    destruct Hcases as [E|[E|[E|[E|[E|[E|[E|[E|[E|[E|E]]]]]]]]]]; rewrite E;
      closed_tests; destruct leap; closed_tests; lia.
Qed.

Lemma lengthOfMonth_bounds (t : Z) : 28 <= lengthOfMonth t <= 31.
Proof.
  unfold lengthOfMonth, daysInMonth.
  repeat match goal with |- context [if ?b then _ else _] => destruct b end; lia.
Qed.

Lemma dayNumber_date (y m d : Z) :
  dayNumber {| year := y; month := m; date := d |}
  = dayNumber {| year := y; month := m; date := 0 |} + d.
Proof. unfold dayNumber. cbn [year month date]. lia. Qed.

Lemma monthIndex_split (d : Ymd) :
  0 <= month d <= 11 ->
  monthIndex d / 12 = year d /\ monthIndex d mod 12 = month d.
Proof. unfold monthIndex. intros Hm. Z.div_mod_to_equations. lia. Qed.

Lemma dayNumber_valid (d : Ymd) :
  0 <= month d <= 11 -> dayNumber d = firstDay (monthIndex d) + date d.
Proof.
  intros Hm. destruct (monthIndex_split d Hm) as [Hy Hmo].
  unfold firstDay. rewrite Hy, Hmo. destruct d as [y m dd]. cbn [year month date].
  apply dayNumber_date.
Qed.

Lemma dayNumber_addMonths (a : Ymd) (n : Z) :
  dayNumber (addMonths a n)
  = firstDay (monthIndex a + n) + Z.min (date a) (lengthOfMonth (monthIndex a + n)).
Proof.
  unfold addMonths, firstDay, lengthOfMonth, monthIndex. cbv zeta.
  apply dayNumber_date.
Qed.

Lemma quot_whole (w den k : Z) :
  0 <= w -> 0 <= k < den -> (w * den + k) ÷ den = w.
Proof.
  intros Hw Hk. rewrite Z.quot_div_nonneg by nia.
  symmetry. apply (Z.div_unique_pos _ _ _ k); lia.
Qed.

Lemma lengthOfMonth_valid (d : Ymd) :
  0 <= month d <= 11 -> lengthOfMonth (monthIndex d) = daysInMonth (year d) (month d).
Proof.
  intros Hm. destruct (monthIndex_split d Hm) as [Hy Hmo].
  unfold lengthOfMonth. by rewrite Hy, Hmo.
Qed.

(** What dayjs computes for two days that exist, the second not after the
    first, is the whole months between them. *)
Lemma monthDiff_wholeMonths (a b : Ymd) :
  validDate a -> validDate b -> notAfter b a ->
  absFloor (monthDiff a b) = wholeMonthsBetween a b.
Proof.
  intros [Hma Hda] [Hmb Hdb] Horder.
  pose proof (lengthOfMonth_valid a Hma) as Hla.
  pose proof (lengthOfMonth_valid b Hmb) as Hlb.
  pose proof (dayNumber_valid a Hma) as Hna.
  pose proof (dayNumber_valid b Hmb) as Hnb.
  unfold wholeMonthsBetween, monthDiff, absFloor. rewrite <- Hla.
  set (ta := monthIndex a) in *. set (tb := monthIndex b) in *.
  destruct (date a <? date b) eqn:Hswap.
  - apply Z.ltb_lt in Hswap.
    assert (Hw : tb < ta) by (destruct Horder as [?|[? ?]]; lia).
    unfold monthDiffBody. cbv zeta.
    replace ((year a - year b) * 12 + (month a - month b)) with (ta - tb)
      by (unfold ta, tb, monthIndex; lia).
    rewrite !dayNumber_addMonths. fold tb.
    replace (tb + (ta - tb)) with ta by lia. rewrite Hna.
    set (target := Z.min (date b) (lengthOfMonth ta)).
    destruct (firstDay ta + date a - (firstDay ta + target) <? 0) eqn:Hc.
    + apply Z.ltb_lt in Hc.
      replace (tb + (ta - tb + -1)) with (ta - 1) by lia.
      pose proof (firstDay_succ (ta - 1)) as Hsucc.
      replace (ta - 1 + 1) with ta in Hsucc by lia.
      pose proof (lengthOfMonth_bounds (ta - 1)) as Hprev.
      cbn [fst snd].
      assert (Hlt : (date a <? target) = true) by (apply Z.ltb_lt; lia).
      rewrite Hlt.
      set (den := firstDay ta + target - (firstDay (ta - 1)
                  + Z.min (date b) (lengthOfMonth (ta - 1)))).
      replace (- (- ((ta - tb) * den + (firstDay ta + date a - (firstDay ta + target)))))
        with ((ta - tb - 1) * den + (den - (target - date a))) by lia.
      apply quot_whole; [lia|]. subst den. lia.
    + apply Z.ltb_ge in Hc.
      replace (tb + (ta - tb + 1)) with (ta + 1) by lia.
      pose proof (firstDay_succ ta) as Hsucc.
      pose proof (lengthOfMonth_bounds ta) as Hcur.
      pose proof (lengthOfMonth_bounds (ta + 1)) as Hnext.
      cbn [fst snd].
      assert (Hlt : (date a <? target) = false) by (apply Z.ltb_ge; lia).
      rewrite Hlt.
      assert (Heq : date a = target) by (subst target; lia).
      set (den := firstDay (ta + 1) + Z.min (date b) (lengthOfMonth (ta + 1))
                  - (firstDay ta + target)).
      replace (- (- ((ta - tb) * den + (firstDay ta + date a - (firstDay ta + target)))))
        with ((ta - tb) * den + 0) by lia.
      rewrite Z.sub_0_r.
      apply quot_whole; [lia|]. subst den. lia.
  - apply Z.ltb_ge in Hswap.
    assert (Hw : tb <= ta) by (destruct Horder as [?|[? ?]]; lia).
    assert (Hlt : (date a <? Z.min (date b) (lengthOfMonth ta)) = false)
      by (apply Z.ltb_ge; lia).
    rewrite Hlt, Z.sub_0_r.
    unfold monthDiffBody. cbv zeta.
    replace ((year b - year a) * 12 + (month b - month a)) with (tb - ta)
      by (unfold ta, tb, monthIndex; lia).
    rewrite !dayNumber_addMonths. fold ta.
    replace (ta + (tb - ta)) with tb by lia. rewrite Hnb.
    set (target := Z.min (date a) (lengthOfMonth tb)).
    destruct (firstDay tb + date b - (firstDay tb + target) <? 0) eqn:Hc.
    + apply Z.ltb_lt in Hc.
      replace (ta + (tb - ta + -1)) with (tb - 1) by lia.
      pose proof (firstDay_succ (tb - 1)) as Hsucc.
      replace (tb - 1 + 1) with tb in Hsucc by lia.
      pose proof (lengthOfMonth_bounds (tb - 1)) as Hprev.
      cbn [fst snd].
      set (den := firstDay tb + target - (firstDay (tb - 1)
                  + Z.min (date a) (lengthOfMonth (tb - 1)))).
      replace (- ((tb - ta) * den + (firstDay tb + date b - (firstDay tb + target))))
        with ((ta - tb) * den + (target - date b)) by lia.
      apply quot_whole; [lia|]. subst den. lia.
    + apply Z.ltb_ge in Hc.
      replace (ta + (tb - ta + 1)) with (tb + 1) by lia.
      pose proof (firstDay_succ tb) as Hsucc.
      pose proof (lengthOfMonth_bounds tb) as Hcur.
      pose proof (lengthOfMonth_bounds (tb + 1)) as Hnext.
      cbn [fst snd].
      assert (Heq : date b = target) by (subst target; lia).
      set (den := firstDay (tb + 1) + Z.min (date a) (lengthOfMonth (tb + 1))
                  - (firstDay tb + target)).
      replace (- ((tb - ta) * den + (firstDay tb + date b - (firstDay tb + target))))
        with ((ta - tb) * den + 0) by lia.
      apply quot_whole; [lia|]. subst den. lia.
Qed.

End CalendarFacts.

(* ===================================================================== *)
(** ** Value post-processing                                              *)
(* ===================================================================== *)

Section ConvertFacts.
Import Js Aggregation.
Context `{Numbers} `{!Dayjs.Unmodelled}.

Lemma defaultToZero_cases (aggFunc : string) :
  aggFunc ∈ defaultToZero ->
  truthy aggFunc = true
  /\ String.eqb aggFunc StatisticsFunc.DateRangeOfMonths = false
  /\ includes defaultToZero aggFunc = true.
Proof.
  intros Hin. split_and!.
  - apply list_elem_of_In in Hin. simpl in Hin.
    destruct Hin as [<-|[<-|[<-|[<-|[<-|[]]]]]]; reflexivity.
  - apply list_elem_of_In in Hin. simpl in Hin.
    destruct Hin as [<-|[<-|[<-|[<-|[<-|[]]]]]]; reflexivity.
  - unfold includes. by apply bool_decide_eq_true_2.
Qed.

Lemma orZero_not_null (v : NumberOrString) : orZero v <> Null.
Proof. by destruct v. Qed.

(** On a percent function the post-processing is the plain conversion
    followed by [?? 0]. *)
Lemma formatConvertValue_percent (currentValue : Value) (aggFunc : string) :
  aggFunc ∈ defaultToZero ->
  formatConvertValue currentValue (Some aggFunc)
  = rbind (convertValueToNumberOrString currentValue) (fun v => Ok (orZero v)).
Proof.
  intros Hin. destruct (defaultToZero_cases aggFunc Hin) as (Ht & Hd & Hi).
  unfold formatConvertValue. rewrite Ht, Hi. simpl.
  destruct currentValue; try reflexivity.
  by rewrite Hd.
Qed.

(** C4.  With a statistic function among [PercentEmpty], [PercentFilled],
    [PercentUnique], [PercentChecked] and [PercentUnChecked], the value
    [formatConvertValue] returns is never [null]; and whenever the raw value
    converts to [null], the result is the number 0. *)
Theorem percent_statistics_never_null (currentValue : Value) (aggFunc : string) :
  aggFunc ∈ defaultToZero ->
  (forall r, formatConvertValue currentValue (Some aggFunc) = Ok r -> r <> Null)
  /\ (convertValueToNumberOrString currentValue = Ok Null ->
      formatConvertValue currentValue (Some aggFunc) = Ok (Num (Number_of_Z 0))).
Proof.
  intros Hin. rewrite (formatConvertValue_percent _ _ Hin). split.
  - intros r Hr. apply rbind_Ok in Hr as (v & _ & Hv).
    injection Hv as <-. apply orZero_not_null.
  - intros ->. reflexivity.
Qed.

(** What [formatConvertValue] does to a string under [DateRangeOfMonths]. *)
Lemma formatConvertValue_dateRange (s : string) :
  formatConvertValue (VString s) (Some StatisticsFunc.DateRangeOfMonths)
  = Ok (Num (calculateDateRangeOfMonths s)).
Proof. reflexivity. Qed.

Lemma calculateDateRangeOfMonths_pair (maxTime minTime : string) :
  occurs ","%char maxTime = false ->
  occurs ","%char minTime = false ->
  calculateDateRangeOfMonths (maxTime +:+ "," +:+ minTime)
  = if truthy maxTime && truthy minTime
    then Dayjs.diffMonth maxTime minTime else Number_of_Z 0.
Proof.
  intros Hmax Hmin. unfold calculateDateRangeOfMonths.
  change ("," +:+ minTime) with (String ","%char minTime).
  rewrite (split_app _ _ _ Hmax), (split_no_sep _ _ Hmin). reflexivity.
Qed.

Lemma calculateDateRangeOfMonths_single (s : string) :
  occurs ","%char s = false ->
  calculateDateRangeOfMonths s = Number_of_Z 0.
Proof.
  intros Hs. unfold calculateDateRangeOfMonths.
  rewrite (split_no_sep _ _ Hs). reflexivity.
Qed.

Lemma digit_not_comma (c : ascii) (z : Z) :
  Dayjs.digit c = Some z -> Ascii.eqb c ","%char = false.
Proof.
  destruct c as [[] [] [] [] [] [] [] []]; vm_compute; congruence.
Qed.

Lemma isDash_not_comma (c : ascii) :
  Dayjs.isDash c = true -> Ascii.eqb c ","%char = false.
Proof.
  destruct c as [[] [] [] [] [] [] [] []]; vm_compute; congruence.
Qed.

(** A date-only string is not empty and holds no comma. *)
Lemma parseDate_shape (s : string) (d : Dayjs.Ymd) :
  Dayjs.parseDate s = Some d -> truthy s = true /\ occurs ","%char s = false.
Proof.
  unfold Dayjs.parseDate.
  repeat (destruct s as [|? s]; [discriminate|]).
  destruct s; [|discriminate].
  repeat match goal with
         | |- context [Dayjs.digit ?c] =>
             let E := fresh "E" in destruct (Dayjs.digit c) eqn:E; [|discriminate]
         end.
  intros Hd. split; [reflexivity|].
  repeat match goal with
         | E : Dayjs.digit _ = Some _ |- _ => apply digit_not_comma in E
         end.
  repeat match type of Hd with
         | context [Dayjs.isDash ?c] =>
             let E := fresh "D" in
             destruct (Dayjs.isDash c) eqn:E; [apply isDash_not_comma in E | discriminate]
         end.
  simpl. by repeat match goal with E : Ascii.eqb _ _ = false |- _ => rewrite E; clear E end.
Qed.

(** A date-only string names a day that exists. *)
Lemma parseDate_valid (s : string) (d : Dayjs.Ymd) :
  Dayjs.parseDate s = Some d -> Dayjs.validDate d.
Proof.
  unfold Dayjs.parseDate.
  repeat (destruct s as [|? s]; [discriminate|]).
  destruct s; [|discriminate].
  repeat match goal with
         | |- context [Dayjs.digit ?c] => destruct (Dayjs.digit c); [|discriminate]
         end.
  match goal with
  | |- (if ?cond then _ else _) = _ -> _ => destruct cond eqn:Hcond; [|discriminate]
  end.
  intros [= <-]. unfold Dayjs.validDate. cbn [Dayjs.year Dayjs.month Dayjs.date].
  repeat (apply andb_true_iff in Hcond as [Hcond ?]).
  repeat match goal with H : (_ <=? _)%Z = true |- _ => apply Z.leb_le in H end.
  lia.
Qed.


End ConvertFacts.

(** C4 at a [null] raw value under [PercentEmpty]. *)
Lemma percent_statistics_never_null_witness :
  Aggregation.StatisticsFunc.PercentEmpty ∈ Aggregation.defaultToZero
  /\ @Aggregation.formatConvertValue Fixtures.intNumbers Fixtures.noDayjs
       Js.VNull (Some Aggregation.StatisticsFunc.PercentEmpty)
     = Js.Ok (@Aggregation.Num Fixtures.intNumbers 0%Z).
Proof.
  assert (Hin : Aggregation.StatisticsFunc.PercentEmpty ∈ Aggregation.defaultToZero)
    by apply list_elem_of_here.
  split; [exact Hin|].
  apply (@percent_statistics_never_null Fixtures.intNumbers Fixtures.noDayjs
           Js.VNull _ Hin).
  reflexivity.
Defined.


(* ===================================================================== *)
(** ** The aggregation and row-count compilers                            *)
(* ===================================================================== *)

Section CompilerFacts.
Import Js Aggregation.
Context `{Numbers} `{!Store}.

(** A search term whose flag is not set leaves the aggregation statement as
    it is without the term. *)
Lemma compileAggregation_search_off (params : AggregationParams) (search : Search) :
  Aggregation.search params = Some search ->
  searchApplies search = false ->
  compileAggregation params
  = compileAggregation
      {| dbTableName := dbTableName params;
         fieldInstanceMap := fieldInstanceMap params;
         fieldInstanceMapWithoutHiddenFields := fieldInstanceMapWithoutHiddenFields params;
         filter := filter params;
         groupBy := groupBy params;
         search := None;
         statisticFields := statisticFields params;
         withUserId := withUserId params |}.
Proof.
  intros Hs Hoff. unfold compileAggregation. simpl. by rewrite Hs, Hoff.
Qed.

(** The same for the count statement. *)
Lemma compileRowCount_search_off (params : RowCountParams) (search : Search) :
  rc_search params = Some search ->
  searchApplies search = false ->
  compileRowCount params
  = compileRowCount
      {| rc_tableId := rc_tableId params;
         rc_dbTableName := rc_dbTableName params;
         rc_fieldInstanceMap := rc_fieldInstanceMap params;
         rc_fieldInstanceMapWithoutHiddenFields := rc_fieldInstanceMapWithoutHiddenFields params;
         rc_filter := rc_filter params;
         rc_filterLinkCellCandidate := rc_filterLinkCellCandidate params;
         rc_filterLinkCellSelected := rc_filterLinkCellSelected params;
         rc_selectedRecordIds := rc_selectedRecordIds params;
         rc_search := None;
         rc_withUserId := rc_withUserId params |}.
Proof.
  intros Hs Hoff. unfold compileRowCount. simpl. by rewrite Hs, Hoff.
Qed.

(** An applied search term is compiled by the count compiler over the field
    map without hidden fields. *)
Lemma compileRowCount_search_on (params : RowCountParams) (search : Search) :
  rc_search params = Some search ->
  searchApplies search = true ->
  WSearch (rc_fieldInstanceMapWithoutHiddenFields params) search
    ∈ cq_wheres (compileRowCount params).
Proof.
  intros Hs Hon. unfold compileRowCount. simpl. rewrite Hs, Hon.
  rewrite !elem_of_app. right. left. apply list_elem_of_here.
Qed.

(** Filtering twice is filtering by both tests. *)
Lemma filter_twice {A} (f g : A -> bool) (l : list A) :
  List.filter f (List.filter g l) = List.filter (fun x => g x && f x) l.
Proof.
  induction l as [|x l IH]; [done|]. cbn [List.filter].
  destruct (g x); cbn [List.filter andb]; [|done]. by rewrite IH.
Qed.

(** What the condition on the record ids lets through. *)
Lemma holds_record_ids (params : RowCountParams) (ids : list string) (r : DbRecord) :
  forallb (fun w => holds (rc_dbTableName params) w r)
    (if linkCellSet (rc_filterLinkCellCandidate params)
     then [WhereNotIn (rc_dbTableName params +:+ ".__id") ids]
     else [WhereIn (rc_dbTableName params +:+ ".__id") ids])
  = if linkCellSet (rc_filterLinkCellCandidate params)
    then negb (bool_decide (__id r ∈ ids)) else bool_decide (__id r ∈ ids).
Proof.
  destruct (linkCellSet _); cbn [forallb holds];
    rewrite String.eqb_refl; by rewrite andb_true_r.
Qed.

(** C6.  With [selectedRecordIds] given, the records the count statement
    counts are those the same request without [selectedRecordIds] counts,
    less the records whose id is in the list when [filterLinkCellCandidate]
    is set (truthy: the empty string is not), and less the records whose id
    is not in the list when it is not set, whatever
    [filterLinkCellSelected] is; the count returned is their number. *)
Theorem row_count_selected_record_ids (params : RowCountParams) (ids : list string) :
  rc_selectedRecordIds params = Some ids ->
  counted (compileRowCount params)
  = List.filter (fun r => if linkCellSet (rc_filterLinkCellCandidate params)
                          then negb (bool_decide (__id r ∈ ids))
                          else bool_decide (__id r ∈ ids))
                (counted (compileRowCount (withoutSelectedRecordIds params)))
  /\ handleRowCount params
     = [Z.of_nat
          (length
             (List.filter (fun r => if linkCellSet (rc_filterLinkCellCandidate params)
                                    then negb (bool_decide (__id r ∈ ids))
                                    else bool_decide (__id r ∈ ids))
                          (counted (compileRowCount (withoutSelectedRecordIds params)))))].
Proof.
  intros Hids.
  assert (Hcounted :
            counted (compileRowCount params)
            = List.filter (fun r => if linkCellSet (rc_filterLinkCellCandidate params)
                                    then negb (bool_decide (__id r ∈ ids))
                                    else bool_decide (__id r ∈ ids))
                          (counted (compileRowCount (withoutSelectedRecordIds params)))).
  { unfold counted, compileRowCount, withoutSelectedRecordIds.
    cbn [cq_table cq_wheres rc_tableId rc_dbTableName rc_fieldInstanceMap
         rc_fieldInstanceMapWithoutHiddenFields rc_filter rc_filterLinkCellCandidate
         rc_filterLinkCellSelected rc_selectedRecordIds rc_search rc_withUserId].
    rewrite Hids, filter_twice. apply filter_ext. intros r.
    rewrite !forallb_app, (holds_record_ids params ids r). cbn [forallb].
    destruct (forallb _ _), (forallb _ _), (forallb _ _), (forallb _ _),
      (if linkCellSet _ then _ else _); reflexivity. }
  split; [exact Hcounted|].
  unfold handleRowCount, getRowCount. by rewrite Hcounted.
Qed.

End CompilerFacts.

(** C6 on a table of three records with [selectedRecordIds = [r1, r2]]:
    as link candidates of field fldA one record is counted; with
    [filterLinkCellCandidate] absent, or the empty string, two are. *)
Lemma row_count_selected_record_ids_witness :
  @Aggregation.handleRowCount Fixtures.intNumbers Fixtures.threeRecords
    (Fixtures.rowCountParams (Some ("fldA", None)) (Some ["r1"; "r2"]) None) = [1%Z]
  /\ @Aggregation.handleRowCount Fixtures.intNumbers Fixtures.threeRecords
       (Fixtures.rowCountParams None (Some ["r1"; "r2"]) None) = [2%Z]
  /\ @Aggregation.handleRowCount Fixtures.intNumbers Fixtures.threeRecords
       (Fixtures.rowCountParams (Some ("", None)) (Some ["r1"; "r2"]) None) = [2%Z].
Proof.
  split_and!.
  - rewrite (proj2 (@row_count_selected_record_ids Fixtures.intNumbers Fixtures.threeRecords
                      (Fixtures.rowCountParams (Some ("fldA", None)) (Some ["r1"; "r2"]) None)
                      ["r1"; "r2"] eq_refl)).
    by vm_compute.
  - rewrite (proj2 (@row_count_selected_record_ids Fixtures.intNumbers Fixtures.threeRecords
                      (Fixtures.rowCountParams None (Some ["r1"; "r2"]) None)
                      ["r1"; "r2"] eq_refl)).
    by vm_compute.
  - rewrite (proj2 (@row_count_selected_record_ids Fixtures.intNumbers Fixtures.threeRecords
                      (Fixtures.rowCountParams (Some ("", None)) (Some ["r1"; "r2"]) None)
                      ["r1"; "r2"] eq_refl)).
    by vm_compute.
Defined.

(** C5.  The aggregation compiler compiles an applied search term over the
    full field map: with field fldB hidden, the search condition of the
    aggregation statement carries a map that still holds fldB, while the
    count statement for the same request carries the map without it. *)
Theorem search_over_hidden_fields_in_aggregation :
  Fixtures.visibleMap !! "fldB" = None
  /\ Fixtures.fullMap !! "fldB" = Some Fixtures.fldB
  /\ Aggregation.aq_wheres <$> Aggregation.compileAggregation Fixtures.searchAggregation
     = Some [Aggregation.WSearch Fixtures.fullMap Fixtures.appliedSearch]
  /\ Aggregation.cq_wheres
       (Aggregation.compileRowCount
          (Fixtures.rowCountParams None None (Some Fixtures.appliedSearch)))
     = [Aggregation.WSearch Fixtures.visibleMap Fixtures.appliedSearch].
Proof.
  split_and!.
  - by vm_compute.
  - by vm_compute.
  - reflexivity.
  - reflexivity.
Qed.

(* ===================================================================== *)
(** ** Grouped aggregation                                                *)
(* ===================================================================== *)

Section FoldFacts.
Import Js.
Context {A S : Type} (body : S -> A -> Result S).
Context (Inv : S -> Prop) (Le : S -> S -> Prop) (Post : A -> S -> Prop).
Hypothesis Le_refl : forall s, Le s s.
Hypothesis Le_trans : forall a b c, Le a b -> Le b c -> Le a c.
Hypothesis Post_mono : forall x s s', Le s s' -> Post x s -> Post x s'.
Hypothesis body_spec :
  forall s x s', Inv s -> body s x = Ok s' -> Inv s' /\ Le s s' /\ Post x s'.

(** A loop whose body keeps an invariant, only moves the state upwards and
    establishes a monotone property of its element, ends in a state where
    the property holds of every element. *)
Lemma foldM_invariant (l : list A) (s s' : S) :
  Inv s -> foldM body l s = Ok s' ->
  Inv s' /\ Le s s' /\ forall x, x ∈ l -> Post x s'.
Proof.
  revert s. induction l as [|x l IH]; simpl; intros s Hs Hrun.
  - injection Hrun as <-. split_and!; [done | done |].
    intros x Hx. by apply elem_of_nil in Hx.
  - apply rbind_Ok in Hrun as (s1 & Hstep & Hrest).
    destruct (body_spec _ _ _ Hs Hstep) as (Hs1 & Hle1 & Hpost1).
    destruct (IH _ Hs1 Hrest) as (Hs' & Hle' & Hall).
    split_and!; [done | by eapply Le_trans |].
    intros y Hy. apply elem_of_cons in Hy as [->|Hy].
    + by eapply Post_mono.
    + by apply Hall.
Qed.

End FoldFacts.

Section FoldMemberFacts.
Import Js.
Context {A S : Type} (body : S -> A -> Result S).
Context (Inv : S -> Prop) (Le : S -> S -> Prop) (Post : A -> S -> Prop).
Hypothesis Le_refl : forall s, Le s s.
Hypothesis Le_trans : forall a b c, Le a b -> Le b c -> Le a c.
Hypothesis Post_mono : forall x s s', Le s s' -> Post x s -> Post x s'.

(** As [foldM_invariant], for a body that is only known on the elements of
    the list. *)
Lemma foldM_invariant_in (l : list A) (s s' : S) :
  (forall s x s', x ∈ l -> Inv s -> body s x = Ok s' -> Inv s' /\ Le s s' /\ Post x s') ->
  Inv s -> foldM body l s = Ok s' ->
  Inv s' /\ Le s s' /\ forall x, x ∈ l -> Post x s'.
Proof.
  revert s. induction l as [|x l IH]; simpl; intros s Hbody Hs Hrun.
  - injection Hrun as <-. split_and!; [done | done |].
    intros x Hx. by apply elem_of_nil in Hx.
  - apply rbind_Ok in Hrun as (s1 & Hstep & Hrest).
    destruct (Hbody _ _ _ (list_elem_of_here _ _) Hs Hstep) as (Hs1 & Hle1 & Hpost1).
    destruct (IH s1 (fun s x' s' Hx => Hbody s x' s' (list_elem_of_further _ _ _ Hx))
                 Hs1 Hrest) as (Hs' & Hle' & Hall).
    split_and!; [done | by eapply Le_trans |].
    intros y Hy. apply elem_of_cons in Hy as [->|Hy].
    + by eapply Post_mono.
    + by apply Hall.
Qed.

End FoldMemberFacts.

Section GroupedFacts.
Import Js Aggregation.
Context `{Numbers} `{!Dayjs.Unmodelled} `{!Store} `{!Utils}.

Lemma grows_refl m : grows m m.
Proof. by intros fid gid. Qed.

Lemma grows_trans m1 m2 m3 : grows m1 m2 -> grows m2 m3 -> grows m1 m3.
Proof. intros H12 H23 fid gid Hg. by apply H23, H12. Qed.

Lemma keyBy_keyed (aggregations : list IRawAggregation) : keyed (keyBy aggregations).
Proof.
  unfold keyBy.
  assert (Hgen : forall l (m : gmap string IRawAggregation),
             keyed m -> keyed (foldl (fun m a => <[fieldId a := a]> m) m l)).
  { induction l as [|a l IH]; simpl; intros m Hm; [done|].
    apply IH. intros k b. rewrite lookup_insert.
    case_decide as Hk; [|by apply Hm].
    intros [= <-]. done. }
  apply Hgen. intros k a. by rewrite lookup_empty.
Qed.

Lemma statisticStep_spec (row : Row) (gid : string)
    (m m' : gmap string IRawAggregation) (sf : IAggregationField.t) :
  keyed m -> statisticStep row gid m sf = Ok m' ->
  keyed m' /\ grows m m' /\ hasGroup m' (IAggregationField.fieldId sf) gid.
Proof.
  intros Hm Hstep. unfold statisticStep in Hstep.
  apply rbind_Ok in Hstep as (cv & _ & Hstep).
  destruct (m !! IAggregationField.fieldId sf) as [cur|] eqn:Hcur; [|discriminate].
  injection Hstep as <-.
  set (fid := IAggregationField.fieldId sf) in *.
  split_and!.
  - intros k a. rewrite lookup_insert.
    case_decide as Hk; [|by apply Hm].
    intros [= <-]. simpl. subst k. by apply Hm.
  - intros fid0 gid0 (a & g & Ha & Hg & Hk).
    destruct (decide (fid = fid0)) as [<-|Hne].
    + rewrite Hcur in Ha. injection Ha as <-.
      eexists _, _. rewrite lookup_insert_eq. split_and!; [done | done |].
      rewrite Hg. rewrite lookup_insert. case_decide; [by eexists | done].
    + exists a, g. by rewrite lookup_insert_ne.
  - eexists _, _. rewrite lookup_insert_eq. split_and!; [done | done |].
    destruct (group cur); [rewrite lookup_insert_eq | rewrite lookup_singleton_eq];
      by eexists.
Qed.

Lemma rowStep_spec (gfs : list GroupByField) (i : nat) (cur : string)
    (sfs : list IAggregationField.t) (m m' : gmap string IRawAggregation) (row : Row) :
  keyed m -> rowStep gfs i cur sfs m row = Ok m' ->
  keyed m' /\ grows m m'
  /\ forall sf, sf ∈ sfs ->
       hasGroup m' (IAggregationField.fieldId sf) (groupIdOf gfs i cur row).
Proof.
  intros Hm Hrun. unfold rowStep in Hrun.
  apply (foldM_invariant (statisticStep row (groupIdOf gfs i cur row)) keyed grows
           (fun sf m => hasGroup m (IAggregationField.fieldId sf) (groupIdOf gfs i cur row))
           grows_refl grows_trans) with (s := m); try done.
  - intros x s s' Hle Hp. by apply Hle.
  - intros s x s' Hs Hx. by apply (statisticStep_spec row).
Qed.

Lemma levelStep_spec (params : GroupedParams) (groupBy : list IGroupItem.t)
    (sfs : list IAggregationField.t) (gfs : list GroupByField)
    (m m' : gmap string IRawAggregation) (i : nat) :
  keyed m -> levelStep params groupBy sfs gfs m i = Ok m' ->
  keyed m' /\ grows m m'
  /\ forall rows cur row sf,
       handleAggregation (levelParams params groupBy sfs i) = Ok (Some rows) ->
       gfs !! i = Some cur -> row ∈ rows -> sf ∈ sfs ->
       hasGroup m' (IAggregationField.fieldId sf) (groupIdOf gfs i (gf_fieldId cur) row).
Proof.
  intros Hm Hrun. unfold levelStep in Hrun.
  apply rbind_Ok in Hrun as (raw & Hraw & Hrun).
  destruct raw as [rows|]; [|discriminate].
  destruct (gfs !! i) as [cur|] eqn:Hcur; [|discriminate].
  destruct (foldM_invariant
              (rowStep gfs i (gf_fieldId cur) sfs) keyed grows
              (fun row m => forall sf, sf ∈ sfs ->
                 hasGroup m (IAggregationField.fieldId sf)
                          (groupIdOf gfs i (gf_fieldId cur) row))
              grows_refl grows_trans) with rows m m' as (Hk & Hg & Hall); try done.
  - intros x s s' Hle Hp sf Hsf. by apply Hle, Hp.
  - intros s x s' Hs Hx. by apply rowStep_spec.
  - split_and!; [done | done |].
    intros rows' cur' row sf Hraw' [= <-] Hrow Hsf.
    rewrite Hraw in Hraw'. injection Hraw' as <-. by apply Hall.
Qed.

End GroupedFacts.

Section GroupIdFacts.
Import Js Aggregation.
Context `{Numbers} `{!Dayjs.Unmodelled} `{!Store} `{!Utils}.

Lemma groupByFieldsOf_Ok (fim : gmap string IFieldInstance)
    (groupBy : list IGroupItem.t) (gfs : list GroupByField) :
  groupByFieldsOf fim groupBy = Ok gfs ->
  Forall2 (groupByFieldOf fim) groupBy gfs.
Proof.
  revert gfs. induction groupBy as [|g rest IH]; simpl; intros gfs Hrun.
  - injection Hrun as <-. constructor.
  - destruct (fim !! IGroupItem.fieldId g) as [f|] eqn:Hf; [|discriminate].
    apply rbind_Ok in Hrun as (fs & Hfs & Hrun). injection Hrun as <-.
    constructor; [|by apply IH].
    split; [done|]. by exists f.
Qed.

(** The stringified group values read through [groupByFields] are those
    read through [groupBy] and the field map. *)
Lemma groupValues_through_fields (fim : gmap string IFieldInstance) (row : Row)
    (gs : list IGroupItem.t) (gfs : list GroupByField) :
  Forall2 (groupByFieldOf fim) gs gfs ->
  map (fun gf => convertValueToStringify (get row (gf_dbFieldName gf))) gfs
  = map convertValueToStringify
      (map (fun g => match fim !! IGroupItem.fieldId g with
                     | Some f => get row (dbFieldName f)
                     | None => VUndefined
                     end) gs).
Proof.
  induction 1 as [|g gf gs gfs (_ & f & Hf & Hdb) _ IH]; simpl; [done|].
  by rewrite Hf, Hdb, IH.
Qed.

(** The group id the loop computes is the one the specification words. *)
Lemma groupIdOf_spec (fim : gmap string IFieldInstance)
    (groupBy : list IGroupItem.t) (gfs : list GroupByField)
    (i : nat) (g : IGroupItem.t) (cur : GroupByField) (row : Row) :
  Forall2 (groupByFieldOf fim) groupBy gfs ->
  groupBy !! i = Some g -> gfs !! i = Some cur ->
  groupIdOf gfs i (gf_fieldId cur) row
  = specGroupId (IGroupItem.fieldId g) (groupValues fim groupBy i row).
Proof.
  intros Hall Hg Hcur. unfold groupIdOf, specGroupId, groupValues.
  destruct (Forall2_lookup_lr _ _ _ _ _ _ Hall Hg Hcur) as [-> _].
  by rewrite (groupValues_through_fields fim row _ _ (Forall2_take _ _ _ (i + 1) Hall)).
Qed.

Lemma keepsFiled_refl (params : GroupedParams) (groupBy : list IGroupItem.t)
    (sfs : list IAggregationField.t) m :
  keepsFiled params groupBy sfs m m.
Proof. by intros fid gid. Qed.

Lemma keepsFiled_trans (params : GroupedParams) (groupBy : list IGroupItem.t)
    (sfs : list IAggregationField.t) m1 m2 m3 :
  keepsFiled params groupBy sfs m1 m2 -> keepsFiled params groupBy sfs m2 m3 ->
  keepsFiled params groupBy sfs m1 m3.
Proof. intros H12 H23 fid gid Hf. by apply H23, H12. Qed.

(** One statistic of one row: its converted column is filed under the
    row's group id in the entry of its field, and whatever was filed with an
    origin still is (under the same key, the new entry takes its place). *)
Lemma statisticStep_filed (params : GroupedParams) (groupBy : list IGroupItem.t)
    (sfs : list IAggregationField.t) (gfs : list GroupByField)
    (i : nat) (g : IGroupItem.t) (cur : GroupByField) (rows : list Row) (row : Row)
    (m m' : gmap string IRawAggregation) (sf : IAggregationField.t) :
  Forall2 (groupByFieldOf (g_fieldInstanceMap params)) groupBy gfs ->
  groupBy !! i = Some g -> gfs !! i = Some cur ->
  handleAggregation (levelParams params groupBy sfs i) = Ok (Some rows) ->
  row ∈ rows -> sf ∈ sfs ->
  keyed m ->
  statisticStep row (groupIdOf gfs i (gf_fieldId cur) row) m sf = Ok m' ->
  keyed m'
  /\ keepsFiled params groupBy sfs m m'
  /\ filed params groupBy sfs m' (IAggregationField.fieldId sf)
       (groupIdOf gfs i (gf_fieldId cur) row).
Proof.
  intros Hall Hg Hcur Hrows Hrow Hsf Hm Hstep. unfold statisticStep in Hstep.
  apply rbind_Ok in Hstep as (cv & Hcv & Hstep). cbv beta in Hstep.
  destruct (m !! IAggregationField.fieldId sf) as [old|] eqn:Hold; [|discriminate].
  injection Hstep as <-.
  set (fid := IAggregationField.fieldId sf) in *.
  set (gid := groupIdOf gfs i (gf_fieldId cur) row) in *.
  set (entry := {| value := cv; aggFunc := IAggregationField.statisticFunc sf |}).
  assert (Hentry : groupOrigin params groupBy sfs fid gid entry).
  { exists i, g, rows, row, sf. split_and!; try done.
    subst gid. by apply (groupIdOf_spec _ _ gfs). }
  split_and!.
  - intros k a. rewrite lookup_insert.
    case_decide as Hk; [|by apply Hm].
    intros [= <-]. simpl. subst k. by apply Hm.
  - intros fid0 gid0 (a & grp & e & Ha & Hgrp & He & Horigin).
    destruct (decide (fid = fid0)) as [<-|Hne].
    + rewrite Hold in Ha. injection Ha as <-. rewrite Hgrp.
      destruct (decide (gid = gid0)) as [<-|Hgid].
      * eexists _, _, entry. rewrite lookup_insert_eq. split_and!; [done | done | | done].
        by rewrite lookup_insert_eq.
      * eexists _, _, e. rewrite lookup_insert_eq. split_and!; [done | done | | done].
        by rewrite lookup_insert_ne.
    + exists a, grp, e. by rewrite lookup_insert_ne.
  - eexists _, _, entry. rewrite lookup_insert_eq. split_and!; [done | done | | done].
    destruct (group old); [by rewrite lookup_insert_eq | by rewrite lookup_singleton_eq].
Qed.

Lemma rowStep_filed (params : GroupedParams) (groupBy : list IGroupItem.t)
    (sfs : list IAggregationField.t) (gfs : list GroupByField)
    (i : nat) (g : IGroupItem.t) (cur : GroupByField) (rows : list Row) (row : Row)
    (m m' : gmap string IRawAggregation) :
  Forall2 (groupByFieldOf (g_fieldInstanceMap params)) groupBy gfs ->
  groupBy !! i = Some g -> gfs !! i = Some cur ->
  handleAggregation (levelParams params groupBy sfs i) = Ok (Some rows) ->
  row ∈ rows ->
  keyed m -> rowStep gfs i (gf_fieldId cur) sfs m row = Ok m' ->
  keyed m'
  /\ keepsFiled params groupBy sfs m m'
  /\ forall sf, sf ∈ sfs ->
       filed params groupBy sfs m' (IAggregationField.fieldId sf)
         (groupIdOf gfs i (gf_fieldId cur) row).
Proof.
  intros Hall Hg Hcur Hrows Hrow Hm Hrun. unfold rowStep in Hrun.
  apply (foldM_invariant_in
           (statisticStep row (groupIdOf gfs i (gf_fieldId cur) row)) keyed
           (keepsFiled params groupBy sfs)
           (fun sf m => filed params groupBy sfs m (IAggregationField.fieldId sf)
                          (groupIdOf gfs i (gf_fieldId cur) row))
           (keepsFiled_refl params groupBy sfs) (keepsFiled_trans params groupBy sfs))
    with (s := m); try done.
  - intros x s s' Hle Hp. by apply Hle.
  - intros s x s' Hx Hs Hstep.
    by apply (statisticStep_filed params groupBy sfs gfs i g cur rows row).
Qed.

Lemma levelStep_filed (params : GroupedParams) (groupBy : list IGroupItem.t)
    (sfs : list IAggregationField.t) (gfs : list GroupByField)
    (m m' : gmap string IRawAggregation) (i : nat) :
  Forall2 (groupByFieldOf (g_fieldInstanceMap params)) groupBy gfs ->
  keyed m -> levelStep params groupBy sfs gfs m i = Ok m' ->
  keyed m'
  /\ keepsFiled params groupBy sfs m m'
  /\ forall rows cur row sf,
       handleAggregation (levelParams params groupBy sfs i) = Ok (Some rows) ->
       gfs !! i = Some cur -> row ∈ rows -> sf ∈ sfs ->
       filed params groupBy sfs m' (IAggregationField.fieldId sf)
         (groupIdOf gfs i (gf_fieldId cur) row).
Proof.
  intros Hall Hm Hrun. unfold levelStep in Hrun.
  apply rbind_Ok in Hrun as (raw & Hraw & Hrun).
  destruct raw as [rows|]; [|discriminate].
  destruct (gfs !! i) as [cur|] eqn:Hcur; [|discriminate].
  destruct (Forall2_lookup_r _ _ _ _ _ Hall Hcur) as (g & Hg & _).
  destruct (foldM_invariant_in
              (rowStep gfs i (gf_fieldId cur) sfs) keyed (keepsFiled params groupBy sfs)
              (fun row m => forall sf, sf ∈ sfs ->
                 filed params groupBy sfs m (IAggregationField.fieldId sf)
                   (groupIdOf gfs i (gf_fieldId cur) row))
              (keepsFiled_refl params groupBy sfs) (keepsFiled_trans params groupBy sfs))
    with rows m m' as (Hk & Hkeeps & Hrowsdone); try done.
  - intros x s s' Hle Hp sf Hsf. by apply Hle, Hp.
  - intros s x s' Hx Hs Hstep.
    by apply (rowStep_filed params groupBy sfs gfs i g cur rows x).
  - split_and!; [done | done |].
    intros rows' cur' row sf Hraw' [= <-] Hrow Hsf.
    rewrite Hraw in Hraw'. injection Hraw' as <-. by apply Hrowsdone.
Qed.

(** C2.  When the grouped aggregation returns, then for every level [i]
    of [groupBy], every row of the level-[i] statement and every statistic
    field, the returned entry of that field has a group map that holds,
    under the row's group id, a statistic of a row with that group id: the
    converted column of a requested statistic of the field, with that
    statistic's function.  The group id is the string form of the hash of:
    the id of [groupBy[i]], an underscore, and the underscore-joined
    stringifications of the row's group values for levels 0 to [i]; it is
    a function of that field id and those values alone. *)
Theorem grouped_aggregation_group_ids (params : GroupedParams)
    (groupBy : list IGroupItem.t) (statisticFields : list IAggregationField.t)
    (result : list IRawAggregation) :
  g_groupBy params = Some groupBy ->
  g_statisticFields params = Some statisticFields ->
  performGroupedAggregation params = Ok result ->
  forall (i : nat) (g : IGroupItem.t) (rows : list Row) (row : Row)
         (sf : IAggregationField.t),
    groupBy !! i = Some g ->
    handleAggregation (levelParams params groupBy statisticFields i) = Ok (Some rows) ->
    row ∈ rows -> sf ∈ statisticFields ->
    let groupId :=
      specGroupId (IGroupItem.fieldId g)
                  (groupValues (g_fieldInstanceMap params) groupBy i row) in
    exists a grp e,
      a ∈ result
      /\ fieldId a = IAggregationField.fieldId sf
      /\ group a = Some grp
      /\ grp !! groupId = Some e
      /\ exists (i' : nat) (g' : IGroupItem.t) (rows' : list Row) (row' : Row)
                (sf' : IAggregationField.t),
          groupBy !! i' = Some g'
          /\ handleAggregation (levelParams params groupBy statisticFields i')
             = Ok (Some rows')
          /\ row' ∈ rows'
          /\ sf' ∈ statisticFields
          /\ IAggregationField.fieldId sf' = IAggregationField.fieldId sf
          /\ groupId
             = specGroupId (IGroupItem.fieldId g')
                           (groupValues (g_fieldInstanceMap params) groupBy i' row')
          /\ aggFunc e = IAggregationField.statisticFunc sf'
          /\ formatConvertValue
               (get row' (IAggregationField.fieldId sf' +:+ "_"
                          +:+ IAggregationField.statisticFunc sf'))
               (Some (IAggregationField.statisticFunc sf'))
             = Ok (value e).
Proof.
  intros HgroupBy Hsfs Hrun i g rows row sf Hg Hrows Hrow Hsf groupId.
  unfold performGroupedAggregation in Hrun. rewrite HgroupBy, Hsfs in Hrun.
  apply rbind_Ok in Hrun as (gfs & Hgfs & Hrun).
  apply rbind_Ok in Hrun as (final & Hfold & Hrun).
  injection Hrun as <-.
  pose proof (groupByFieldsOf_Ok _ _ _ Hgfs) as Hall.
  destruct (foldM_invariant
              (levelStep params groupBy statisticFields gfs) keyed
              (keepsFiled params groupBy statisticFields)
              (fun i m => forall rows cur row sf,
                 handleAggregation (levelParams params groupBy statisticFields i)
                 = Ok (Some rows) ->
                 gfs !! i = Some cur -> row ∈ rows -> sf ∈ statisticFields ->
                 filed params groupBy statisticFields m (IAggregationField.fieldId sf)
                       (groupIdOf gfs i (gf_fieldId cur) row))
              (keepsFiled_refl params groupBy statisticFields)
              (keepsFiled_trans params groupBy statisticFields))
    with (seq 0 (length groupBy)) (keyBy (g_aggregations params)) final
    as (Hkeyed & _ & Hlevels); try done.
  - intros x s s' Hle Hp rows' cur' row' sf' Hq Hc Hr Hs. by eapply Hle, Hp.
  - intros s x s' Hs Hx. by apply levelStep_filed.
  - apply keyBy_keyed.
  - destruct (Forall2_lookup_l _ _ _ _ _ Hall Hg) as (cur & Hcur & _).
    assert (Hi : i ∈ seq 0 (length groupBy)).
    { apply elem_of_seq. apply lookup_lt_Some in Hg. lia. }
    destruct (Hlevels i Hi rows cur row sf Hrows Hcur Hrow Hsf)
      as (a & grp & e & Ha & Hgrp & He & Horigin).
    rewrite (groupIdOf_spec _ _ _ _ _ _ _ Hall Hg Hcur) in He, Horigin.
    exists a, grp, e. split_and!.
    + apply list_elem_of_In, in_map_iff. exists (IAggregationField.fieldId sf, a).
      split; [done|]. by apply list_elem_of_In, elem_of_map_to_list.
    + by apply Hkeyed.
    + done.
    + done.
    + exact Horigin.
Qed.

End GroupIdFacts.

(** C2 on one group field and one row: the count 2 of the row named A of
    group field fldA is filed under the hash of [fldA_A]. *)
Lemma grouped_aggregation_group_ids_witness :
  @Aggregation.specGroupId Fixtures.intNumbers Fixtures.lengthHash
    "fldA" [@Js.VString Fixtures.intNumbers "A"] = "6"
  /\ exists result,
      @Aggregation.performGroupedAggregation Fixtures.intNumbers Fixtures.noDayjs
        Fixtures.oneRowStore Fixtures.lengthHash Fixtures.groupedParams = Js.Ok result
      /\ exists a grp,
          a ∈ result
          /\ Aggregation.fieldId a = "fldA"
          /\ Aggregation.group a = Some grp
          /\ grp !! "6"
             = Some {| Aggregation.value := @Aggregation.Num Fixtures.intNumbers 2%Z;
                       Aggregation.aggFunc := "count" |}.
Proof.
  split; [reflexivity|].
  set (e0 := {| Aggregation.value := @Aggregation.Num Fixtures.intNumbers 2%Z;
                Aggregation.aggFunc := "count" |}).
  set (a0 := {| Aggregation.fieldId := "fldA"; Aggregation.total := Some e0;
                Aggregation.group := Some (<["6" := e0]> ∅) |}).
  assert (Hrun : @Aggregation.performGroupedAggregation Fixtures.intNumbers Fixtures.noDayjs
                   Fixtures.oneRowStore Fixtures.lengthHash Fixtures.groupedParams
                 = Js.Ok [a0])
    by (vm_compute; reflexivity).
  exists [a0]. split; [exact Hrun|].
  destruct (@grouped_aggregation_group_ids Fixtures.intNumbers Fixtures.noDayjs
              Fixtures.oneRowStore Fixtures.lengthHash Fixtures.groupedParams
              [Fixtures.groupByA] [Fixtures.countOfA] [a0] eq_refl eq_refl Hrun
              0%nat Fixtures.groupByA [Fixtures.rowA] Fixtures.rowA Fixtures.countOfA
              eq_refl eq_refl (list_elem_of_here _ _) (list_elem_of_here _ _))
    as (a & grp & e & Ha & Hid & Hgrp & He & _).
  apply list_elem_of_singleton in Ha. subst a.
  injection Hgrp as <-.
  exists a0, (<["6" := e0]> ∅). split_and!; [apply list_elem_of_here | done | done |].
  apply lookup_insert_eq.
Defined.

(* ===================================================================== *)
(** ** Field preparation and link supplement                              *)
(* ===================================================================== *)

Section SupplementFacts.
Import Js FieldSupplement.
Context `{Core}.

(** Unfolds the state monad and the prisma queries down to the lists of
    the state. *)
Ltac run :=
  unfold getDbTableName, tableMeta_findUniqueOrThrow, tableMeta_findUnique,
    field_findFirstPrimaryOrThrow, orElse, optionsOf, generateFieldId, executeRawUnsafe,
    findTable, findPrimaryField in *;
  unfold bind, ret, throw, gets in *;
  cbn beta iota delta [tableMeta FieldSupplement.field executed generated] in *.

(** Settles the comparisons of relationships that are known. *)
Ltac decided :=
  repeat first
    [ rewrite bool_decide_eq_true_2 by done
    | rewrite bool_decide_eq_false_2 by done
    | rewrite decide_True by done
    | rewrite decide_False by done
    | progress cbn ].

Lemma prepareField_link (fieldRo : IFieldRo.t) (batchFieldRos : option (list IFieldRo.t)) :
  IFieldRo.type fieldRo = FieldType.Link -> isLookupSet fieldRo = false ->
  prepareField fieldRo batchFieldRos = prepareLinkField fieldRo.
Proof. intros Ht Hl. unfold prepareField. by rewrite Hl, Ht. Qed.

(** What a successful [prepareLinkField] returns: the field's id is the one
    given, if any; the options keep relationship and foreign table, name a
    symmetric field, and carry the foreign-key name of the ManyOne side.
    The tables and the executed statements are as before. *)
Lemma prepareLinkField_Ok (fieldRo a : IFieldRo.t) (st st1 : State) :
  prepareLinkField fieldRo st = Ok (a, st1) ->
  exists options oa fieldId symmetricFieldId,
    IFieldRo.options fieldRo = Some options
    /\ IFieldRo.options a = Some oa
    /\ IFieldRo.id a = Some fieldId
    /\ (forall i, IFieldRo.id fieldRo = Some i -> fieldId = i)
    /\ IFieldRo.type a = IFieldRo.type fieldRo
    /\ Options.symmetricFieldId oa = Some symmetricFieldId
    /\ Options.relationship oa = Options.relationship options
    /\ Options.foreignTableId oa = Options.foreignTableId options
    /\ Options.dbForeignKeyName oa
       = Some (match Options.relationship options with
               | Some ManyOne => getForeignKeyFieldName fieldId
               | Some OneMany => getForeignKeyFieldName symmetricFieldId
               | _ => ""
               end)
    /\ tableMeta st1 = tableMeta st
    /\ FieldSupplement.field st1 = FieldSupplement.field st
    /\ executed st1 = executed st.
Proof.
  unfold prepareLinkField, getDefaultLinkName.
  destruct (IFieldRo.options fieldRo) as [options|] eqn:Ho; [|discriminate].
  run.
  destruct (List.find _ (FieldSupplement.field st)) as [p|]; [|by cbn].
  destruct (IFieldRo.id fieldRo) as [fid|], (IFieldRo.name fieldRo) as [nm|],
    (Options.foreignTableId options) as [ft|] eqn:Hft;
    cbn beta iota delta [tableMeta FieldSupplement.field executed generated];
    try discriminate;
    try (destruct (List.find _ (tableMeta st)) as [t|]; [|by cbn]);
    intros [= <- <-];
    exists options; eexists _, _, _; (split_and!; try reflexivity);
    try (intros i; congruence);
    cbn; destruct (Options.relationship options) as [[]|]; by decided.
Qed.

(** A link definition with a foreign table that exists and has a primary
    field is prepared without error. *)
Lemma prepareLinkField_runs (fieldRo : IFieldRo.t) (st : State)
    (options : Options.t) (foreignTableId : string) :
  IFieldRo.options fieldRo = Some options ->
  Options.foreignTableId options = Some foreignTableId ->
  is_Some (findTable foreignTableId st) ->
  is_Some (findPrimaryField (Some foreignTableId) st) ->
  exists a st1, prepareLinkField fieldRo st = Ok (a, st1).
Proof.
  intros Ho Hft [t Ht] [p Hp].
  unfold prepareLinkField, getDefaultLinkName. rewrite Ho, Hft. run. rewrite Hp.
  destruct (IFieldRo.id fieldRo) as [fid|], (IFieldRo.name fieldRo) as [nm|];
    cbn beta iota delta [tableMeta FieldSupplement.field executed generated];
    rewrite ?Ht; eauto.
Qed.

(** What [supplementByCreate] does on a link field whose two tables exist. *)
Lemma supplementByCreate_runs (tableId : string) (a : IFieldRo.t) (st : State)
    (oa : Options.t) (r : Relationship) (foreignTableId : string)
    (own foreign : TableMeta.t) (primary : FieldRaw.t) :
  IFieldRo.type a = FieldType.Link ->
  IFieldRo.options a = Some oa ->
  Options.relationship oa = Some r ->
  Options.foreignTableId oa = Some foreignTableId ->
  findTable foreignTableId st = Some foreign ->
  findTable tableId st = Some own ->
  findPrimaryField (Some tableId) st = Some primary ->
  exists b ob st2,
    supplementByCreate tableId a st = Ok (b, st2)
    /\ IFieldRo.options b = Some ob
    /\ IFieldRo.id b = Options.symmetricFieldId oa
    /\ Options.symmetricFieldId ob = IFieldRo.id a
    /\ Options.dbForeignKeyName ob = Options.dbForeignKeyName oa
    /\ Options.foreignTableId ob = Some tableId
    /\ Options.relationship ob = Some (RelationshipRevert r)
    /\ executed st2
       = executed st ++ foreignKeyColumns r own foreign (Options.dbForeignKeyName oa).
Proof.
  intros Ht Ho Hr Hft Hforeign Hown Hprimary.
  unfold supplementByCreate, generateSymmetricField, createForeignKeyField.
  rewrite Ht. run. rewrite Ho. change (negb (FieldType.Link =? FieldType.Link)%string) with false.
  cbn beta iota. rewrite Hown. cbn beta iota. rewrite Hprimary.
  cbn beta iota delta [createFieldInstanceByRo IFieldRo.options Options.relationship
    Options.dbForeignKeyName].
  rewrite Hr, Hft.
  destruct r; decided; rewrite ?Hforeign, ?Hown; cbn;
    eexists _, _, _; (split_and!; try reflexivity).
  by rewrite app_nil_r.
Qed.

(** On a valid request both calls return, and the statements executed
    afterwards are the earlier ones followed by the foreign-key columns of
    the relationship. *)
Lemma valid_link_request_runs (st : State) (tableId : string) (field : IFieldRo.t)
    (batchFieldRos : option (list IFieldRo.t)) :
  validLinkRequest st tableId field ->
  exists a b oa ob r fieldId symmetricFieldId own foreign st1 st2,
    prepareField field batchFieldRos st = Ok (a, st1)
    /\ supplementByCreate tableId a st1 = Ok (b, st2)
    /\ IFieldRo.options a = Some oa /\ IFieldRo.options b = Some ob
    /\ IFieldRo.id a = Some fieldId
    /\ Options.symmetricFieldId oa = Some symmetricFieldId
    /\ Options.relationship oa = Some r
    /\ IFieldRo.id b = Options.symmetricFieldId oa
    /\ Options.symmetricFieldId ob = IFieldRo.id a
    /\ Options.dbForeignKeyName ob = Options.dbForeignKeyName oa
    /\ Options.foreignTableId ob = Some tableId
    /\ Options.relationship ob = Some (RelationshipRevert r)
    /\ executed st2
       = executed st ++ foreignKeyColumns r own foreign (Options.dbForeignKeyName oa).
Proof.
  intros (Ht & Hl & options & r & ft & Ho & Hr & Hft & Ht1 & Hp1 & Ht2 & Hp2).
  rewrite (prepareField_link _ _ Ht Hl).
  destruct (prepareLinkField_runs _ st _ _ Ho Hft Ht1 Hp1) as (a & st1 & Hrun).
  destruct (prepareLinkField_Ok _ _ _ _ Hrun)
    as (options' & oa & fid & sym & Ho' & Hoa & Hid & _ & Hty & Hsym & Hrel & Hfor & Hfk
        & Htm & Hfd & Hex).
  rewrite Ho in Ho'. injection Ho' as <-.
  destruct Ht1 as [foreign Hforeign], Ht2 as [own Hown], Hp2 as [primary Hprimary].
  destruct (supplementByCreate_runs tableId a st1 oa r ft own foreign primary)
    as (b & ob & st2 & Hsup & Hob & Hidb & Hsymb & Hfkb & Hforb & Hrelb & Hexb).
  { by rewrite Hty. }
  { done. }
  { by rewrite Hrel. }
  { by rewrite Hfor. }
  { unfold findTable. by rewrite Htm. }
  { unfold findTable. by rewrite Htm. }
  { unfold findPrimaryField. by rewrite Hfd. }
  exists a, b, oa, ob, r, fid, sym, own, foreign, st1, st2. split_and!; try done.
  - by rewrite Hrel.
  - by rewrite Hexb, Hex.
Qed.

(** C1.  For a valid request to create a link field on table [tableId],
    [prepareField] returns a field and [supplementByCreate] on it returns
    the symmetric field, and the two refer to each other through
    [symmetricFieldId], carry the same [dbForeignKeyName], the symmetric
    field's [foreignTableId] is [tableId], and its relationship is the
    mirror of the field's (OneMany <-> ManyOne, ManyMany <-> ManyMany). *)
Theorem link_pair_is_symmetric (st : State) (tableId : string) (field : IFieldRo.t)
    (batchFieldRos : option (list IFieldRo.t)) :
  validLinkRequest st tableId field ->
  exists a b oa ob st1 st2,
    prepareField field batchFieldRos st = Ok (a, st1)
    /\ supplementByCreate tableId a st1 = Ok (b, st2)
    /\ IFieldRo.options a = Some oa /\ IFieldRo.options b = Some ob
    /\ is_Some (IFieldRo.id a) /\ is_Some (IFieldRo.id b)
    /\ Options.symmetricFieldId oa = IFieldRo.id b
    /\ Options.symmetricFieldId ob = IFieldRo.id a
    /\ Options.dbForeignKeyName oa = Options.dbForeignKeyName ob
    /\ Options.foreignTableId ob = Some tableId
    /\ Options.relationship ob = RelationshipRevert <$> Options.relationship oa.
Proof.
  intros Hvalid.
  destruct (valid_link_request_runs st tableId field batchFieldRos Hvalid)
    as (a & b & oa & ob & r & fid & sym & own & foreign & st1 & st2 & Hrun & Hsup & Hoa & Hob
        & Hid & Hsym & Hrel & Hidb & Hsymb & Hfkb & Hforb & Hrelb & _).
  assert (Ha : is_Some (IFieldRo.id a)) by (rewrite Hid; by eexists).
  assert (Hb : is_Some (IFieldRo.id b)) by (rewrite Hidb, Hsym; by eexists).
  assert (Hmirror : Options.relationship ob = RelationshipRevert <$> Options.relationship oa)
    by (by rewrite Hrelb, Hrel).
  exists a, b, oa, ob, st1, st2. by split_and!.
Qed.

(** C3.  The foreign-key column name of a link field resolved by
    [prepareField] is computed from an id by the one naming function, whose
    result is the prefix [__fk_] followed by that id (so it differs for
    different ids): from the field's own id (the id given, or the one
    generated) when the relationship is ManyOne, and from the symmetric
    field's id when it is OneMany. *)
Theorem foreign_key_name_from_many_one_side (field a : IFieldRo.t)
    (batchFieldRos : option (list IFieldRo.t)) (st st1 : State) :
  IFieldRo.type field = FieldType.Link ->
  isLookupSet field = false ->
  prepareField field batchFieldRos st = Ok (a, st1) ->
  exists oa fieldId symmetricFieldId,
    IFieldRo.options a = Some oa
    /\ IFieldRo.id a = Some fieldId
    /\ (forall i, IFieldRo.id field = Some i -> fieldId = i)
    /\ Options.symmetricFieldId oa = Some symmetricFieldId
    /\ (Options.relationship oa = Some ManyOne ->
        Options.dbForeignKeyName oa = Some ("__fk_" +:+ fieldId)
        /\ getForeignKeyFieldName fieldId = "__fk_" +:+ fieldId)
    /\ (Options.relationship oa = Some OneMany ->
        Options.dbForeignKeyName oa = Some ("__fk_" +:+ symmetricFieldId)
        /\ getForeignKeyFieldName symmetricFieldId = "__fk_" +:+ symmetricFieldId)
    /\ (forall x y, getForeignKeyFieldName x = getForeignKeyFieldName y -> x = y).
Proof.
  intros Ht Hl Hrun. rewrite (prepareField_link _ _ Ht Hl) in Hrun.
  destruct (prepareLinkField_Ok _ _ _ _ Hrun)
    as (options & oa & fid & sym & _ & Hoa & Hid & Hgiven & _ & Hsym & Hrel & _ & Hfk & _).
  exists oa, fid, sym. split_and!; try done.
  - intros Hr. rewrite Hfk. rewrite Hrel in Hr. by rewrite Hr.
  - intros Hr. rewrite Hfk. rewrite Hrel in Hr. by rewrite Hr.
  - intros x y Hxy. unfold getForeignKeyFieldName in Hxy.
    change ("__fk_" +:+ x) with (String "_" (String "_" (String "f" (String "k" (String "_" x)))))
      in Hxy.
    change ("__fk_" +:+ y) with (String "_" (String "_" (String "f" (String "k" (String "_" y)))))
      in Hxy.
    by injection Hxy.
Qed.

(** [supplementByCreate] on a ManyMany link field executes no statement,
    and the symmetric field is ManyMany too. *)
Lemma supplementByCreate_manyMany (tableId : string) (a b : IFieldRo.t)
    (oa : Options.t) (st st2 : State) :
  IFieldRo.options a = Some oa ->
  Options.relationship oa = Some ManyMany ->
  supplementByCreate tableId a st = Ok (b, st2) ->
  executed st2 = executed st
  /\ exists ob, IFieldRo.options b = Some ob /\ Options.relationship ob = Some ManyMany.
Proof.
  intros Ho Hr. unfold supplementByCreate, generateSymmetricField, createForeignKeyField.
  destruct (negb (IFieldRo.type a =? FieldType.Link)%string); [by cbn|].
  run. rewrite Ho. cbn beta iota.
  destruct (List.find _ (tableMeta st)) as [own|]; [|by cbn]. cbn beta iota.
  destruct (List.find _ (FieldSupplement.field st)) as [primary|]; [|by cbn].
  cbn beta iota delta [createFieldInstanceByRo IFieldRo.options Options.relationship
    Options.dbForeignKeyName].
  rewrite Hr. decided. intros [= <- <-]. split; [done|]. by eexists.
Qed.

(** C10.  A ManyMany link field resolved by [prepareField] has the empty
    string as [dbForeignKeyName], and [supplementByCreate] on it creates no
    foreign-key column: the executed statements are those before, and the
    symmetric field is ManyMany as well.  On a valid request both calls
    return. *)
Theorem many_many_has_no_foreign_key (st : State) (tableId : string) (field : IFieldRo.t)
    (batchFieldRos : option (list IFieldRo.t)) (options : Options.t) :
  IFieldRo.type field = FieldType.Link ->
  isLookupSet field = false ->
  IFieldRo.options field = Some options ->
  Options.relationship options = Some ManyMany ->
  (forall a st1,
      prepareField field batchFieldRos st = Ok (a, st1) ->
      exists oa,
        IFieldRo.options a = Some oa
        /\ Options.relationship oa = Some ManyMany
        /\ Options.dbForeignKeyName oa = Some ""
        /\ forall b st2,
            supplementByCreate tableId a st1 = Ok (b, st2) ->
            executed st2 = executed st
            /\ exists ob, IFieldRo.options b = Some ob
                          /\ Options.relationship ob = Some ManyMany)
  /\ (validLinkRequest st tableId field ->
      exists a b st1 st2,
        prepareField field batchFieldRos st = Ok (a, st1)
        /\ supplementByCreate tableId a st1 = Ok (b, st2)).
Proof.
  intros Ht Hl Ho Hr. split.
  - intros a st1 Hrun. rewrite (prepareField_link _ _ Ht Hl) in Hrun.
    destruct (prepareLinkField_Ok _ _ _ _ Hrun)
      as (options' & oa & fid & sym & Ho' & Hoa & _ & _ & _ & _ & Hrel & _ & Hfk & _ & _ & Hex).
    rewrite Ho in Ho'. injection Ho' as <-. rewrite Hr in Hrel, Hfk.
    exists oa. split_and!; try done.
    intros b st2 Hsup. rewrite <- Hex.
    by apply (supplementByCreate_manyMany tableId a b oa).
  - intros Hvalid.
    destruct (valid_link_request_runs st tableId field batchFieldRos Hvalid)
      as (a & b & _ & _ & _ & _ & _ & _ & _ & st1 & st2 & Hrun & Hsup & _).
    by exists a, b, st1, st2.
Qed.

(** C7.  When the source field of a lookup definition resolves and its
    type differs from the declared one, [prepareField] throws a
    [BadRequestException] whose message holds both types; nothing is
    returned. *)
Theorem lookup_type_mismatch_is_rejected (field : IFieldRo.t)
    (batchFieldRos : option (list IFieldRo.t)) (st st' : State)
    (lookupOptions : LookupOptions.t) (lookupFieldRaw linkFieldRaw : FieldRaw.t) :
  isLookupSet field = true ->
  prepareLookupOptions field batchFieldRos st
  = Ok ((lookupOptions, lookupFieldRaw, linkFieldRaw), st') ->
  FieldRaw.type lookupFieldRaw <> IFieldRo.type field ->
  prepareField field batchFieldRos st
  = Throw (BadRequestException
             ("Current field type " +:+ IFieldRo.type field
              +:+ " is not equal to lookup field (" +:+ FieldRaw.type lookupFieldRaw
              +:+ ")")).
Proof.
  intros Hl Hopts Hne. unfold prepareField. rewrite Hl.
  unfold prepareLookupField, bind. rewrite Hopts.
  apply String.eqb_neq in Hne. by rewrite Hne.
Qed.

(** The part of the check that works: when the first referenced id that
    the field map does not resolve is not the empty string, [prepareField]
    throws a [BadRequestException]; its message lists every referenced id,
    comma separated, the unresolved one among them. *)
Lemma formula_unresolved_reference_is_rejected (field : IFieldRo.t)
    (batchFieldRos : option (list IFieldRo.t)) (st : State)
    (options : Options.t) (fieldIds : list string) (unresolved : string) :
  isLookupSet field = false ->
  IFieldRo.type field = FieldType.Formula ->
  IFieldRo.options field = Some options ->
  getReferenceFieldIds (Options.expression options) = Some fieldIds ->
  firstUnresolved (formulaFieldMap (findFieldsIn fieldIds st) batchFieldRos) fieldIds
  = Some unresolved ->
  unresolved <> "" ->
  exists message,
    prepareField field batchFieldRos st = Throw (BadRequestException message)
    /\ message = "formula field reference " +:+ join "," fieldIds +:+ " not found"
    /\ occursIn unresolved message.
Proof.
  intros Hl Ht Ho Hids Hfirst Hne.
  eexists. split_and!; [|reflexivity|].
  - unfold prepareField. rewrite Hl, Ht.
    change (FieldType.Formula =? FieldType.Rollup)%string with false.
    change (FieldType.Formula =? FieldType.Link)%string with false.
    change (FieldType.Formula =? FieldType.Formula)%string with true.
    cbn beta iota. unfold prepareFormulaField. rewrite Ho. cbn [mbind option_bind].
    rewrite Hids. unfold bind, field_findManyIn, gets. rewrite Hfirst.
    cbn [from_option]. by rewrite (truthy_nonempty _ Hne).
  - assert (Hin : unresolved ∈ fieldIds).
    { apply list_elem_of_In. by apply (find_some _ _ Hfirst). }
    destruct (join_occurs "," _ _ Hin) as (before & after & Hjoin).
    exists ("formula field reference " +:+ before), (after +:+ " not found").
    by rewrite Hjoin, !append_assoc.
Qed.

(** What a successful [prepareLookupOptions] found: a live link field with
    options that name the stated foreign table, and a live source field;
    the state is as before. *)
Lemma prepareLookupOptions_Ok (fieldRo : IFieldRo.t)
    (batchFieldRos : option (list IFieldRo.t)) (st st' : State)
    (lookupOptions : LookupOptions.t) (lookupFieldRaw linkFieldRaw : FieldRaw.t) :
  prepareLookupOptions fieldRo batchFieldRos st
  = Ok ((lookupOptions, lookupFieldRaw, linkFieldRaw), st') ->
  st' = st
  /\ exists given linkOptions,
      IFieldRo.lookupOptions fieldRo = Some given
      /\ linkFieldRaw ∈ FieldSupplement.field st
      /\ FieldRaw.id linkFieldRaw = LookupOptions.linkFieldId given
      /\ FieldRaw.type linkFieldRaw = FieldType.Link
      /\ FieldRaw.deletedTime linkFieldRaw = None
      /\ FieldRaw.options linkFieldRaw = Some linkOptions
      /\ Options.foreignTableId linkOptions = Some (LookupOptions.foreignTableId given)
      /\ lookupFieldRaw ∈ FieldSupplement.field st
      /\ FieldRaw.id lookupFieldRaw = LookupOptions.lookupFieldId given
      /\ FieldRaw.deletedTime lookupFieldRaw = None
      /\ lookupOptions
         = {| LookupOptions.linkFieldId := LookupOptions.linkFieldId given;
              LookupOptions.lookupFieldId := LookupOptions.lookupFieldId given;
              LookupOptions.foreignTableId := LookupOptions.foreignTableId given;
              LookupOptions.relationship := Options.relationship linkOptions;
              LookupOptions.dbForeignKeyName := Options.dbForeignKeyName linkOptions |}.
Proof.
  unfold prepareLookupOptions.
  destruct (IFieldRo.lookupOptions fieldRo) as [given|]; [|discriminate].
  unfold bind, field_findFirstLink, field_findFirstLive, gets, ret, throw.
  destruct (List.find _ (FieldSupplement.field st)) as [link|] eqn:Hlink.
  2: { cbn. by destruct (findInBatch batchFieldRos (LookupOptions.linkFieldId given)). }
  cbn [mbind option_bind].
  apply find_some in Hlink as [Hlin Hlcond].
  apply andb_true_iff in Hlcond as [Hlcond Hltype].
  apply andb_true_iff in Hlcond as [Hlid Hllive].
  apply bool_decide_eq_true in Hllive.
  apply String.eqb_eq in Hlid, Hltype.
  apply list_elem_of_In in Hlin.
  destruct (FieldRaw.options link) as [lopts|] eqn:Hlopts; cbv beta iota.
  - case_bool_decide as Hft; cbn [negb]; cbv beta iota; [|discriminate].
    destruct (List.find _ (FieldSupplement.field st)) as [src|] eqn:Hsrc; [|discriminate].
    intros [= <- <- <- <-].
    apply find_some in Hsrc as [Hsin Hscond].
    apply andb_true_iff in Hscond as [Hsid Hslive].
    apply bool_decide_eq_true in Hslive.
    apply String.eqb_eq in Hsid.
    apply list_elem_of_In in Hsin.
    split; [done|]. by exists given, lopts.
  - destruct (findInBatch batchFieldRos (LookupOptions.linkFieldId given)) as [b|];
      cbn [fmap option_fmap option_map]; cbv beta iota; [|discriminate].
    case_bool_decide as Hft; [by cbn in Hft | discriminate].
Qed.

(** X14.  A lookup definition that [prepareField] accepts rests on
    persisted fields: its link field is a live link row whose options name
    the stated foreign table (a link defined in the same batch only is not
    enough), its source is a live row of the declared type; the resolved
    field keeps id and type, takes relationship and foreign-key name from
    the link's options and, when unnamed, the name
    [<source> (from <link>)]; the state is as before. *)
Theorem lookup_prepared_from_persisted_fields (field a : IFieldRo.t)
    (batchFieldRos : option (list IFieldRo.t)) (st st1 : State) :
  isLookupSet field = true ->
  prepareField field batchFieldRos st = Ok (a, st1) ->
  st1 = st
  /\ exists given link source linkOptions,
      IFieldRo.lookupOptions field = Some given
      /\ link ∈ FieldSupplement.field st
      /\ FieldRaw.id link = LookupOptions.linkFieldId given
      /\ FieldRaw.type link = FieldType.Link
      /\ FieldRaw.deletedTime link = None
      /\ FieldRaw.options link = Some linkOptions
      /\ Options.foreignTableId linkOptions = Some (LookupOptions.foreignTableId given)
      /\ source ∈ FieldSupplement.field st
      /\ FieldRaw.id source = LookupOptions.lookupFieldId given
      /\ FieldRaw.deletedTime source = None
      /\ FieldRaw.type source = IFieldRo.type field
      /\ IFieldRo.id a = IFieldRo.id field
      /\ IFieldRo.type a = IFieldRo.type field
      /\ IFieldRo.name a
         = Some (default (FieldRaw.name source +:+ " (from " +:+ FieldRaw.name link +:+ ")")
                         (IFieldRo.name field))
      /\ IFieldRo.lookupOptions a
         = Some {| LookupOptions.linkFieldId := LookupOptions.linkFieldId given;
                   LookupOptions.lookupFieldId := LookupOptions.lookupFieldId given;
                   LookupOptions.foreignTableId := LookupOptions.foreignTableId given;
                   LookupOptions.relationship := Options.relationship linkOptions;
                   LookupOptions.dbForeignKeyName := Options.dbForeignKeyName linkOptions |}.
Proof.
  intros Hl. unfold prepareField. rewrite Hl. unfold prepareLookupField, bind.
  destruct (prepareLookupOptions field batchFieldRos st) as [[[[lo src] link] st']|] eqn:Hopts;
    [|discriminate].
  destruct (prepareLookupOptions_Ok _ _ _ _ _ _ _ Hopts)
    as (-> & given & lopts & Hgiven & Hlin & Hlid & Hlty & Hllive & Hlo & Hft
        & Hsin & Hsid & Hslive & ->).
  destruct (FieldRaw.type src =? IFieldRo.type field)%string eqn:Hty; cbn [negb];
    [|discriminate].
  intros [= <- <-]. split; [done|].
  exists given, link, src, lopts. split_and!; try done.
  by apply String.eqb_eq.
Qed.

(** X15.  Which lookup definition [prepareField] rejects with which
    message.  Without lookup options: [lookupOptions is required].  When
    no live link row has the stated link field id: [linkFieldId .. is
    invalid], whatever the batch holds.  When the link row has no options:
    [foreignTableId .. is invalid] if the batch has a definition under the
    link field id, [linkFieldId .. is invalid] if not.  When its options
    name another foreign table than the stated one:
    [foreignTableId .. is invalid].  When link and foreign table agree and
    no live row has the stated source id: [Lookup field .. is not exist]. *)
Theorem lookup_rejections (field : IFieldRo.t)
    (batchFieldRos : option (list IFieldRo.t)) (st : State) :
  isLookupSet field = true ->
  (IFieldRo.lookupOptions field = None ->
   prepareField field batchFieldRos st
   = Throw (BadRequestException "lookupOptions is required"))
  /\ forall given,
      IFieldRo.lookupOptions field = Some given ->
      let linkFieldId := LookupOptions.linkFieldId given in
      let foreignTableId := LookupOptions.foreignTableId given in
      let lookupFieldId := LookupOptions.lookupFieldId given in
      (field_findFirstLink linkFieldId st = Ok (None, st) ->
       prepareField field batchFieldRos st
       = Throw (BadRequestException ("linkFieldId " +:+ linkFieldId +:+ " is invalid")))
      /\ forall link,
          field_findFirstLink linkFieldId st = Ok (Some link, st) ->
          (FieldRaw.options link = None ->
           prepareField field batchFieldRos st
           = Throw (BadRequestException
                      (match findInBatch batchFieldRos linkFieldId with
                       | Some _ => "foreignTableId " +:+ foreignTableId +:+ " is invalid"
                       | None => "linkFieldId " +:+ linkFieldId +:+ " is invalid"
                       end)))
          /\ forall linkOptions,
              FieldRaw.options link = Some linkOptions ->
              (Options.foreignTableId linkOptions <> Some foreignTableId ->
               prepareField field batchFieldRos st
               = Throw (BadRequestException
                          ("foreignTableId " +:+ foreignTableId +:+ " is invalid")))
              /\ (Options.foreignTableId linkOptions = Some foreignTableId ->
                  field_findFirstLive lookupFieldId st = Ok (None, st) ->
                  prepareField field batchFieldRos st
                  = Throw (BadRequestException
                             ("Lookup field " +:+ lookupFieldId +:+ " is not exist"))).
Proof.
  intros Hl. unfold prepareField. rewrite Hl.
  unfold prepareLookupField, prepareLookupOptions, bind. split.
  - by intros ->.
  - intros given ->. cbv zeta. split.
    + intros ->. cbn [mbind option_bind].
      by destruct (findInBatch batchFieldRos (LookupOptions.linkFieldId given)).
    + intros link ->. cbn [mbind option_bind]. split.
      * intros ->.
        by destruct (findInBatch batchFieldRos (LookupOptions.linkFieldId given));
          cbn [fmap option_fmap option_map]; cbv beta iota;
          rewrite ?bool_decide_eq_false_2 by done.
      * intros linkOptions ->. cbv beta iota. split.
        -- intros Hne. rewrite bool_decide_eq_false_2 by (by intros Heq; apply Hne). done.
        -- intros Hft Hsource. rewrite bool_decide_eq_true_2 by done.
           cbn [negb]. cbv beta iota. unfold bind. by rewrite Hsource.
Qed.

(** The ids of a prepared link field are draws of the generator: the
    field's own id when none is given, then the symmetric field's; the
    field it reads values from is the primary field of the foreign table. *)
Lemma prepareLinkField_draws (fieldRo a : IFieldRo.t) (st st1 : State) :
  prepareLinkField fieldRo st = Ok (a, st1) ->
  exists options oa primary,
    IFieldRo.options fieldRo = Some options
    /\ IFieldRo.options a = Some oa
    /\ findPrimaryField (Options.foreignTableId options) st = Some primary
    /\ Options.lookupFieldId oa = Some (FieldRaw.id primary)
    /\ IFieldRo.id a = Some (default (generateFieldIdAt (generated st)) (IFieldRo.id fieldRo))
    /\ Options.symmetricFieldId oa
       = Some (generateFieldIdAt
                 (match IFieldRo.id fieldRo with Some _ => 0 | None => 1 end + generated st))
    /\ generated st1
       = match IFieldRo.id fieldRo with Some _ => 1 | None => 2 end + generated st
    /\ IFieldRo.isLookup a = IFieldRo.isLookup fieldRo
    /\ IFieldRo.type a = IFieldRo.type fieldRo.
Proof.
  unfold prepareLinkField, getDefaultLinkName, findPrimaryField.
  destruct (IFieldRo.options fieldRo) as [options|] eqn:Ho; [|discriminate].
  run.
  destruct (List.find _ (FieldSupplement.field st)) as [p|] eqn:Hp; [|by cbn].
  destruct (IFieldRo.id fieldRo) as [fid|], (IFieldRo.name fieldRo) as [nm|],
    (Options.foreignTableId options) as [ft|] eqn:Hft;
    cbn beta iota delta [tableMeta FieldSupplement.field executed generated];
    try discriminate;
    try (destruct (List.find _ (tableMeta st)) as [t|]; [|by cbn]);
    intros [= <- <-];
    exists options; eexists _, p; (split_and!; try reflexivity); by rewrite Hft.
Qed.

(** X16.  Preparing a field never writes: whenever [prepareField] returns,
    the tables, the fields and the executed statements are as before.  The
    only change is the number of generated ids, on a link definition: one
    draw when it has an id (the symmetric field's), two when it has none. *)
Theorem prepareField_reads_only (fieldRo a : IFieldRo.t)
    (batchFieldRos : option (list IFieldRo.t)) (st st1 : State) :
  prepareField fieldRo batchFieldRos st = Ok (a, st1) ->
  tableMeta st1 = tableMeta st
  /\ FieldSupplement.field st1 = FieldSupplement.field st
  /\ executed st1 = executed st
  /\ generated st1
     = (if isLookupSet fieldRo then 0
        else if String.eqb (IFieldRo.type fieldRo) FieldType.Rollup then 0
        else if String.eqb (IFieldRo.type fieldRo) FieldType.Link
        then match IFieldRo.id fieldRo with Some _ => 1 | None => 2 end
        else 0) + generated st.
Proof.
  unfold prepareField.
  destruct (isLookupSet fieldRo); [|destruct (IFieldRo.type fieldRo =? FieldType.Rollup)%string;
    [|destruct (IFieldRo.type fieldRo =? FieldType.Link)%string;
      [|destruct (IFieldRo.type fieldRo =? FieldType.Formula)%string]]].
  - unfold prepareLookupField, bind.
    destruct (prepareLookupOptions fieldRo batchFieldRos st) as [[[[lo src] link] st']|] eqn:Hopts;
      [|discriminate].
    destruct (prepareLookupOptions_Ok _ _ _ _ _ _ _ Hopts) as [-> _].
    destruct (negb _); [discriminate|]. by intros [= <- <-].
  - unfold prepareRollupField, bind.
    destruct (prepareLookupOptions fieldRo batchFieldRos st) as [[[[lo src] link] st']|] eqn:Hopts;
      [|discriminate].
    destruct (prepareLookupOptions_Ok _ _ _ _ _ _ _ Hopts) as [-> _].
    destruct (IFieldRo.options fieldRo) as [options|]; [|discriminate].
    destruct (rollupParsedValueType _) as [?|[? ?]]; [discriminate|].
    by intros [= <- <-].
  - intros Hrun.
    destruct (prepareLinkField_Ok _ _ _ _ Hrun)
      as (? & ? & ? & ? & _ & _ & _ & _ & _ & _ & _ & _ & _ & ? & ? & ?).
    destruct (prepareLinkField_draws _ _ _ _ Hrun) as (? & ? & ? & _ & _ & _ & _ & _ & _ & ? & _).
    done.
  - unfold prepareFormulaField.
    destruct (match IFieldRo.options fieldRo with
              | Some _ => getReferenceFieldIds (IFieldRo.options fieldRo ≫= Options.expression)
              | None => None
              end) as [fieldIds|]; [|discriminate].
    unfold bind, field_findManyIn, gets, throw, ret.
    destruct (from_option truthy false _); [discriminate|].
    destruct (formulaParsedValueType _ _) as [[? ?]|]; [|discriminate].
    by intros [= <- <-].
  - by intros [= <- <-].
Qed.

(** X17.  Which link definition (not a lookup) [prepareField] rejects
    with what.  Without options: a [TypeError].  When no primary field of
    the foreign table is found: [NotFoundError].  When one is found and the
    definition has no name: a validation error if no foreign table is
    stated, [foreignTableId .. is invalid] if the stated table does not
    exist.  When one is found and the definition has a name, the field is
    accepted under that name: the foreign table itself is never looked
    up. *)
Theorem link_rejections (fieldRo : IFieldRo.t)
    (batchFieldRos : option (list IFieldRo.t)) (st : State) :
  isLookupSet fieldRo = false ->
  IFieldRo.type fieldRo = FieldType.Link ->
  (IFieldRo.options fieldRo = None ->
   prepareField fieldRo batchFieldRos st = Throw TypeError)
  /\ forall options,
      IFieldRo.options fieldRo = Some options ->
      (findPrimaryField (Options.foreignTableId options) st = None ->
       prepareField fieldRo batchFieldRos st = Throw NotFoundError)
      /\ forall primary,
          findPrimaryField (Options.foreignTableId options) st = Some primary ->
          (IFieldRo.name fieldRo = None ->
           (Options.foreignTableId options = None ->
            prepareField fieldRo batchFieldRos st = Throw PrismaClientValidationError)
           /\ forall foreignTableId,
               Options.foreignTableId options = Some foreignTableId ->
               findTable foreignTableId st = None ->
               prepareField fieldRo batchFieldRos st
               = Throw (BadRequestException
                          ("foreignTableId " +:+ foreignTableId +:+ " is invalid")))
          /\ forall name,
              IFieldRo.name fieldRo = Some name ->
              exists a st1,
                prepareField fieldRo batchFieldRos st = Ok (a, st1)
                /\ IFieldRo.name a = Some name.
Proof.
  intros Hl Ht. rewrite (prepareField_link _ _ Ht Hl).
  unfold prepareLinkField, getDefaultLinkName. split.
  - by intros ->.
  - intros options ->. unfold field_findFirstPrimaryOrThrow, bind, gets, ret, throw. split.
    + by intros ->.
    + intros primary ->. cbv beta iota. split.
      * intros Hname. rewrite Hname. split.
        -- intros Hft. rewrite Hft. run.
           by destruct (IFieldRo.id fieldRo).
        -- intros foreignTableId Hft Htable. rewrite Hft. run. unfold findTable in Htable.
           destruct (IFieldRo.id fieldRo);
             cbn beta iota delta [tableMeta FieldSupplement.field executed generated];
             by rewrite Htable.
      * intros name Hname. rewrite Hname. run.
        destruct (IFieldRo.id fieldRo); by eexists _, _.
Qed.

(** X18.  Where the foreign-key column of a new link goes.  On a valid
    request, [prepareField] followed by [supplementByCreate] executes, after
    the earlier statements, exactly: for OneMany one ALTER TABLE on the
    foreign table, adding the column named after the symmetric field; for
    ManyOne one on the field's own table, adding the column named after
    the field itself; for ManyMany nothing. *)
Theorem foreign_key_column_placement (st : State) (tableId : string) (field : IFieldRo.t)
    (batchFieldRos : option (list IFieldRo.t)) :
  validLinkRequest st tableId field ->
  exists a b fieldId symmetricFieldId r foreignTableId own foreign st1 st2,
    prepareField field batchFieldRos st = Ok (a, st1)
    /\ supplementByCreate tableId a st1 = Ok (b, st2)
    /\ IFieldRo.id a = Some fieldId
    /\ IFieldRo.id b = Some symmetricFieldId
    /\ IFieldRo.options field ≫= Options.relationship = Some r
    /\ IFieldRo.options field ≫= Options.foreignTableId = Some foreignTableId
    /\ findTable tableId st = Some own
    /\ findTable foreignTableId st = Some foreign
    /\ executed st2
       = executed st
         ++ match r with
            | OneMany =>
                [{| at_table := TableMeta.dbTableName foreign;
                    at_column := Some (getForeignKeyFieldName symmetricFieldId) |}]
            | ManyOne =>
                [{| at_table := TableMeta.dbTableName own;
                    at_column := Some (getForeignKeyFieldName fieldId) |}]
            | ManyMany => []
            end.
Proof.
  intros (Ht & Hl & options & r & ft & Ho & Hr & Hft & Ht1 & Hp1 & Ht2 & Hp2).
  rewrite (prepareField_link _ _ Ht Hl).
  destruct (prepareLinkField_runs _ st _ _ Ho Hft Ht1 Hp1) as (a & st1 & Hrun).
  destruct (prepareLinkField_Ok _ _ _ _ Hrun)
    as (options' & oa & fid & sym & Ho' & Hoa & Hid & _ & Hty & Hsym & Hrel & Hfor & Hfk
        & Htm & Hfd & Hex).
  rewrite Ho in Ho'. injection Ho' as <-.
  destruct Ht1 as [foreign Hforeign], Ht2 as [own Hown], Hp2 as [primary Hprimary].
  destruct (supplementByCreate_runs tableId a st1 oa r ft own foreign primary)
    as (b & ob & st2 & Hsup & Hob & Hidb & _ & _ & _ & _ & Hexb).
  { by rewrite Hty. }
  { done. }
  { by rewrite Hrel. }
  { by rewrite Hfor. }
  { unfold findTable. by rewrite Htm. }
  { unfold findTable. by rewrite Htm. }
  { unfold findPrimaryField. by rewrite Hfd. }
  exists a, b, fid, sym, r, ft, own, foreign, st1, st2. split_and!; try done.
  - by rewrite Hidb.
  - by rewrite Ho.
  - by rewrite Ho.
  - rewrite Hexb, Hex, Hfk, Hr. by destruct r.
Qed.

(** X19.  Which field [supplementByCreate] rejects with what.  A field
    that is not a link: the [Error] that only link fields are
    supplemented.  A link without options: a [TypeError].  When the
    field's own table, or its primary field, is not found:
    [NotFoundError].  For OneMany, when both are found: a validation error
    if no foreign table is stated, [NotFoundError] if the stated table does
    not exist. *)
Theorem supplement_rejections (tableId : string) (field : IFieldRo.t) (st : State) :
  (IFieldRo.type field <> FieldType.Link ->
   supplementByCreate tableId field st
   = Throw (Error "only link field need to create supplement field"))
  /\ (IFieldRo.type field = FieldType.Link ->
      (IFieldRo.options field = None ->
       supplementByCreate tableId field st = Throw TypeError)
      /\ forall options,
          IFieldRo.options field = Some options ->
          (findTable tableId st = None ->
           supplementByCreate tableId field st = Throw NotFoundError)
          /\ forall own,
              findTable tableId st = Some own ->
              (findPrimaryField (Some tableId) st = None ->
               supplementByCreate tableId field st = Throw NotFoundError)
              /\ forall primary,
                  findPrimaryField (Some tableId) st = Some primary ->
                  Options.relationship options = Some OneMany ->
                  (Options.foreignTableId options = None ->
                   supplementByCreate tableId field st = Throw PrismaClientValidationError)
                  /\ forall foreignTableId,
                      Options.foreignTableId options = Some foreignTableId ->
                      findTable foreignTableId st = None ->
                      supplementByCreate tableId field st = Throw NotFoundError).
Proof.
  split.
  - intros Hty. unfold supplementByCreate.
    apply String.eqb_neq in Hty. by rewrite Hty.
  - intros Hty. unfold supplementByCreate, generateSymmetricField, createForeignKeyField.
    rewrite Hty. change (negb (FieldType.Link =? FieldType.Link)%string) with false.
    cbv beta iota. split.
    + intros Ho. run. by rewrite Ho.
    + intros options Ho. split.
      * intros Htable. run. rewrite Ho. cbn beta iota. by rewrite Htable.
      * intros own Hown. split.
        -- intros Hprimary. run. rewrite Ho. cbn beta iota. rewrite Hown. cbn beta iota.
           by rewrite Hprimary.
        -- intros primary Hprimary Hr. split.
           ++ intros Hft. run. rewrite Ho. cbn beta iota. rewrite Hown. cbn beta iota.
              rewrite Hprimary.
              cbn beta iota delta [createFieldInstanceByRo IFieldRo.options
                Options.relationship Options.dbForeignKeyName].
              rewrite Hr, Hft. by decided.
           ++ intros foreignTableId Hft Hforeign. run. rewrite Ho. cbn beta iota.
              rewrite Hown. cbn beta iota. rewrite Hprimary.
              cbn beta iota delta [createFieldInstanceByRo IFieldRo.options
                Options.relationship Options.dbForeignKeyName].
              rewrite Hr, Hft. decided. by rewrite Hforeign.
Qed.

(** A key of [keyById] is the id of one of the fields. *)
Lemma keyById_fold_lookup (fields : list IFieldRo.t) (m : gmap string IFieldRo.t)
    (key : string) :
  is_Some (foldl (fun m f => <[interpolate (IFieldRo.id f) := f]> m) m fields !! key) ->
  is_Some (m !! key)
  \/ exists f, f ∈ fields /\ interpolate (IFieldRo.id f) = key.
Proof.
  revert m. induction fields as [|f fields IH]; intros m; cbn [foldl]; [by left|].
  intros Hkey. destruct (IH _ Hkey) as [Hm | (g & Hg & Hgk)].
  - destruct (decide (interpolate (IFieldRo.id f) = key)) as [Heq|Hne].
    + right. exists f. split; [by constructor | done].
    + rewrite lookup_insert_ne in Hm by done. by left.
  - right. exists g. split; [by constructor | done].
Qed.

(** What a successful [prepareFormulaField] went through, and what it
    returns; the state is as before. *)
Lemma prepareFormulaField_Ok (fieldRo a : IFieldRo.t)
    (batchFieldRos : option (list IFieldRo.t)) (st st1 : State) :
  prepareFormulaField fieldRo batchFieldRos st = Ok (a, st1) ->
  st1 = st
  /\ exists options fieldIds cellValueType isMultipleCellValue,
      IFieldRo.options fieldRo = Some options
      /\ getReferenceFieldIds (Options.expression options) = Some fieldIds
      /\ from_option truthy false
           (firstUnresolved (formulaFieldMap (findFieldsIn fieldIds st) batchFieldRos) fieldIds)
         = false
      /\ formulaParsedValueType (Options.expression options)
           (formulaFieldMap (findFieldsIn fieldIds st) batchFieldRos)
         = Ok (cellValueType, isMultipleCellValue)
      /\ IFieldRo.id a = IFieldRo.id fieldRo
      /\ IFieldRo.type a = IFieldRo.type fieldRo
      /\ IFieldRo.isLookup a = IFieldRo.isLookup fieldRo
      /\ IFieldRo.options a ≫= Options.expression = Options.expression options
      /\ IFieldRo.cellValueType a = Some cellValueType
      /\ IFieldRo.isMultipleCellValue a = Some isMultipleCellValue.
Proof.
  unfold prepareFormulaField.
  destruct (IFieldRo.options fieldRo) as [options|] eqn:Ho; [|discriminate].
  cbn [mbind option_bind].
  destruct (getReferenceFieldIds (Options.expression options)) as [fieldIds|] eqn:Hids;
    [|discriminate].
  unfold bind, field_findManyIn, gets, throw, ret.
  destruct (from_option truthy false _) eqn:Hfirst; [discriminate|].
  destruct (formulaParsedValueType _ _) as [[cvt multi]|] eqn:Hparsed; [|discriminate].
  intros [= <- <-]. split; [done|].
  exists options, fieldIds, cvt, multi. split_and!; try done.
  cbn. by destruct (formattingOf (Some options) cvt).
Qed.

(** Where [find] stops: nothing before the element found passes the test. *)
Lemma find_first {A} (f : A -> bool) (l : list A) (x : A) :
  List.find f l = Some x ->
  exists before after,
    l = before ++ x :: after /\ Forall (fun y => f y = false) before /\ f x = true.
Proof.
  induction l as [|y l IH]; cbn [List.find]; [discriminate|].
  destruct (f y) eqn:Hy.
  - intros [= <-]. by exists [], l.
  - intros Hfind. destruct (IH Hfind) as (before & after & -> & Hbefore & Hx).
    exists (y :: before), after. split_and!; [done | by constructor | done].
Qed.

(** An id the field map of a formula does not leave unresolved is one of
    the three kinds of [referenceResolves]. *)
Lemma resolved_reference (st : State) (batchFieldRos : option (list IFieldRo.t))
    (fieldIds : list string) (id : string) :
  unresolved (formulaFieldMap (findFieldsIn fieldIds st) batchFieldRos) id = false ->
  referenceResolves st batchFieldRos id.
Proof.
  unfold unresolved. intros Hid.
  apply andb_false_iff in Hid as [Hown | Hinherited].
  - apply bool_decide_eq_false, not_eq_None_Some in Hown.
    unfold formulaFieldMap, keyById in Hown.
    apply keyById_fold_lookup in Hown as [Hnever | (f & Hf & Hkey)].
    { rewrite lookup_empty in Hnever. by destruct Hnever. }
    apply elem_of_app in Hf as [Hf | Hf].
    + left. apply list_elem_of_fmap in Hf as (raw & -> & Hraw). exists raw. split; [|done].
      unfold findFieldsIn in Hraw. apply list_elem_of_In in Hraw.
      apply filter_In in Hraw as [Hraw _]. by apply list_elem_of_In.
    + right. left.
      destruct batchFieldRos as [batch|]; cbn in Hf; [|by apply not_elem_of_nil in Hf].
      exists batch, f. split_and!; try done.
      apply list_elem_of_fmap in Hf as (g & -> & Hg). done.
  - right. right. apply negb_false_iff in Hinherited.
    by apply bool_decide_eq_true in Hinherited.
Qed.

(** X20.  What the references of an accepted formula can be.  When
    [prepareField] accepts a formula definition, every id its expression
    references is the id of a row of the field table (live or marked
    deleted), the id of a definition of the batch, or a name every object
    inherits from [Object.prototype]; the one exception is a referenced id
    that is the empty string and resolves to nothing: the ids before it are
    of those three kinds and the ids after it are not checked. *)
Theorem formula_references_resolve (field a : IFieldRo.t)
    (batchFieldRos : option (list IFieldRo.t)) (st st1 : State)
    (options : Options.t) (fieldIds : list string) :
  isLookupSet field = false ->
  IFieldRo.type field = FieldType.Formula ->
  IFieldRo.options field = Some options ->
  getReferenceFieldIds (Options.expression options) = Some fieldIds ->
  prepareField field batchFieldRos st = Ok (a, st1) ->
  Forall (referenceResolves st batchFieldRos) fieldIds
  \/ exists before after,
      fieldIds = before ++ "" :: after
      /\ Forall (referenceResolves st batchFieldRos) before.
Proof.
  intros Hl Ht Ho Hids. unfold prepareField. rewrite Hl, Ht.
  change (FieldType.Formula =? FieldType.Rollup)%string with false.
  change (FieldType.Formula =? FieldType.Link)%string with false.
  change (FieldType.Formula =? FieldType.Formula)%string with true.
  cbn beta iota. intros Hrun.
  destruct (prepareFormulaField_Ok _ _ _ _ _ Hrun)
    as (_ & options' & fieldIds' & cvt & multi & Ho' & Hids' & Hfirst & _).
  rewrite Ho in Ho'. injection Ho' as <-. rewrite Hids in Hids'. injection Hids' as <-.
  destruct (firstUnresolved _ fieldIds) as [u|] eqn:Hu.
  - right. cbn [from_option] in Hfirst.
    assert (Hempty : u = "").
    { destruct (decide (u = "")) as [|Hne]; [done|].
      by rewrite (truthy_nonempty _ Hne) in Hfirst. }
    subst u. apply find_first in Hu as (before & after & -> & Hbefore & _).
    exists before, after. split; [done|].
    apply Forall_forall. intros id Hid. rewrite Forall_forall in Hbefore.
    by apply (resolved_reference _ _ (before ++ "" :: after)), Hbefore.
  - left. apply Forall_forall. intros id Hid.
    apply (resolved_reference _ _ fieldIds).
    apply list_elem_of_In in Hid. by apply (find_none _ _ Hu).
Qed.

(** C8.  A formula whose expression references the name [constructor] is
    accepted, although no row of the field table and no definition of the
    batch has that id: [prepareField] returns the field, where a reference
    to the missing field fldGhost is rejected.  The check reads the field
    map as a JavaScript object, in which [constructor] is inherited. *)
Theorem formula_reference_to_inherited_name_is_accepted :
  @getReferenceFieldIds Fixtures.core
    (IFieldRo.options Fixtures.inheritedFormula ≫= Options.expression)
  = Some ["fldOrderName"; "constructor"]
  /\ Forall (fun raw => FieldRaw.id raw <> "constructor") (FieldSupplement.field Fixtures.shop)
  /\ @firstUnresolved
       (@formulaFieldMap (findFieldsIn ["fldOrderName"; "constructor"] Fixtures.shop) None)
       ["fldOrderName"; "constructor"]
     = None
  /\ (exists a,
         @prepareField Fixtures.core Fixtures.inheritedFormula None Fixtures.shop
         = Ok (a, Fixtures.shop))
  /\ @prepareField Fixtures.core Fixtures.ghostFormula None Fixtures.shop
     = Throw (BadRequestException "formula field reference fldOrderName,fldGhost not found").
Proof.
  split_and!.
  - reflexivity.
  - repeat constructor; discriminate.
  - by vm_compute.
  - eexists. vm_compute. reflexivity.
  - by vm_compute.
Qed.

(** One edge per id, in the order of the ids, each ending at [toFieldId]. *)
Lemma createReferences_Ok (fieldIds : list string) (toFieldId : string) :
  createReferences fieldIds (Some toFieldId)
  = Ok (map (fun fromFieldId => {| fromFieldId := fromFieldId; toFieldId := toFieldId |})
            fieldIds).
Proof.
  induction fieldIds as [|i fieldIds IH]; [done|].
  cbn [createReferences reference_create rbind map]. by rewrite IH.
Qed.

(** X21.  The reference of a prepared link field.  For a link definition
    that [prepareField] accepted, [createReference] inserts exactly one
    edge: from the primary field of the foreign table to the link field
    itself, under the id that [prepareField] gave it. *)
Theorem link_reference_from_foreign_primary (field a : IFieldRo.t)
    (batchFieldRos : option (list IFieldRo.t)) (st st1 : State) :
  isLookupSet field = false ->
  IFieldRo.type field = FieldType.Link ->
  prepareField field batchFieldRos st = Ok (a, st1) ->
  exists primary fieldId,
    findPrimaryField (IFieldRo.options field ≫= Options.foreignTableId) st = Some primary
    /\ IFieldRo.id a = Some fieldId
    /\ createReference a
       = Ok [{| fromFieldId := FieldRaw.id primary; toFieldId := fieldId |}].
Proof.
  intros Hl Ht Hrun. rewrite (prepareField_link _ _ Ht Hl) in Hrun.
  destruct (prepareLinkField_draws _ _ _ _ Hrun)
    as (options & oa & primary & Ho & Hoa & Hprimary & Hlookup & Hid & _ & _ & Hlk & Hty).
  exists primary, (default (generateFieldIdAt (generated st)) (IFieldRo.id field)).
  split_and!; [by rewrite Ho | done |].
  unfold createReference, isLookupSet in *. rewrite Hlk, Hl, Hty, Ht.
  change (FieldType.Link =? FieldType.Formula)%string with false.
  change (FieldType.Link =? FieldType.Rollup)%string with false.
  change (FieldType.Link =? FieldType.Link)%string with true.
  cbn beta iota. unfold createLinkReference. by rewrite Hoa, Hlookup, Hid.
Qed.

(** X22.  The reference of a prepared lookup or rollup.  For a lookup or
    rollup definition with an id that [prepareField] accepted,
    [createReference] inserts exactly one edge: from the field looked up
    to the field itself. *)
Theorem lookup_reference_from_source (field a : IFieldRo.t)
    (batchFieldRos : option (list IFieldRo.t)) (st st1 : State) (fieldId : string) :
  isLookupSet field = true \/ IFieldRo.type field = FieldType.Rollup ->
  IFieldRo.id field = Some fieldId ->
  prepareField field batchFieldRos st = Ok (a, st1) ->
  exists given,
    IFieldRo.lookupOptions field = Some given
    /\ createReference a
       = Ok [{| fromFieldId := LookupOptions.lookupFieldId given; toFieldId := fieldId |}].
Proof.
  intros Hkind Hid. unfold prepareField.
  destruct (isLookupSet field) eqn:Hl.
  - unfold prepareLookupField, bind.
    destruct (prepareLookupOptions field batchFieldRos st) as [[[[lo src] link] st']|] eqn:Hopts;
      [|discriminate].
    destruct (prepareLookupOptions_Ok _ _ _ _ _ _ _ Hopts)
      as (_ & given & lopts & Hgiven & _ & _ & _ & _ & _ & _ & _ & _ & _ & ->).
    destruct (negb _); [discriminate|]. intros [= <- <-].
    exists given. split; [done|].
    unfold createReference, isLookupSet in *. cbn [IFieldRo.isLookup]. rewrite Hl.
    unfold createLookupReference. cbn. by rewrite Hid.
  - destruct Hkind as [|Ht]; [done|]. rewrite Ht.
    change (FieldType.Rollup =? FieldType.Rollup)%string with true. cbn beta iota.
    unfold prepareRollupField, bind.
    destruct (prepareLookupOptions field batchFieldRos st) as [[[[lo src] link] st']|] eqn:Hopts;
      [|discriminate].
    destruct (prepareLookupOptions_Ok _ _ _ _ _ _ _ Hopts)
      as (_ & given & lopts & Hgiven & _ & _ & _ & _ & _ & _ & _ & _ & _ & ->).
    destruct (IFieldRo.options field) as [options|]; [|discriminate].
    destruct (rollupParsedValueType _) as [?|[? ?]]; [discriminate|].
    intros [= <- <-].
    exists given. split; [done|].
    unfold createReference, isLookupSet in *. cbn [IFieldRo.isLookup IFieldRo.type].
    rewrite Hl, Ht.
    change (FieldType.Rollup =? FieldType.Formula)%string with false.
    change (FieldType.Rollup =? FieldType.Rollup)%string with true.
    cbn beta iota. unfold createLookupReference. cbn. by rewrite Hid.
Qed.

(** X23.  The references of a prepared formula.  For a formula definition
    with an id that [prepareField] accepted, [createReference] inserts one
    edge per id its expression references, in their order (an id
    referenced twice gives two edges), each from the referenced field to
    the formula field. *)
Theorem formula_references_created (field a : IFieldRo.t)
    (batchFieldRos : option (list IFieldRo.t)) (st st1 : State)
    (options : Options.t) (fieldIds : list string) (fieldId : string) :
  isLookupSet field = false ->
  IFieldRo.type field = FieldType.Formula ->
  IFieldRo.options field = Some options ->
  getReferenceFieldIds (Options.expression options) = Some fieldIds ->
  IFieldRo.id field = Some fieldId ->
  prepareField field batchFieldRos st = Ok (a, st1) ->
  createReference a
  = Ok (map (fun fromFieldId => {| fromFieldId := fromFieldId; toFieldId := fieldId |})
            fieldIds).
Proof.
  intros Hl Ht Ho Hids Hid. unfold prepareField. rewrite Hl, Ht.
  change (FieldType.Formula =? FieldType.Rollup)%string with false.
  change (FieldType.Formula =? FieldType.Link)%string with false.
  change (FieldType.Formula =? FieldType.Formula)%string with true.
  cbn beta iota. intros Hrun.
  destruct (prepareFormulaField_Ok _ _ _ _ _ Hrun)
    as (_ & options' & fieldIds' & cvt & multi & Ho' & Hids' & _ & _ & Hida & Hty & Hlk
        & Hexpr & _).
  rewrite Ho in Ho'. injection Ho' as <-.
  unfold createReference, isLookupSet in *. rewrite Hlk, Hl, Hty, Ht.
  change (FieldType.Formula =? FieldType.Formula)%string with true.
  cbn beta iota. unfold createFormulaReference.
  rewrite Hexpr, Hids, Hida, Hid. apply createReferences_Ok.
Qed.

End SupplementFacts.

(** A OneMany link from orders to customers is a valid request. *)
Lemma shop_link_request_valid (r : FieldSupplement.Relationship) :
  FieldSupplement.validLinkRequest Fixtures.shop "tblOrders" (Fixtures.linkRequest r).
Proof.
  split; [reflexivity|]. split; [reflexivity|].
  exists (Fixtures.linkOptions r "tblCustomers"), r, "tblCustomers".
  split_and!; try reflexivity; by eexists.
Defined.

(** C1 on a OneMany link from orders to customers. *)
Lemma link_pair_is_symmetric_witness :
  exists a b oa ob st1 st2,
    @FieldSupplement.prepareField Fixtures.core
      (Fixtures.linkRequest FieldSupplement.OneMany) None Fixtures.shop = Js.Ok (a, st1)
    /\ FieldSupplement.supplementByCreate "tblOrders" a st1 = Js.Ok (b, st2)
    /\ FieldSupplement.IFieldRo.options a = Some oa
    /\ FieldSupplement.IFieldRo.options b = Some ob
    /\ is_Some (FieldSupplement.IFieldRo.id a) /\ is_Some (FieldSupplement.IFieldRo.id b)
    /\ FieldSupplement.Options.symmetricFieldId oa = FieldSupplement.IFieldRo.id b
    /\ FieldSupplement.Options.symmetricFieldId ob = FieldSupplement.IFieldRo.id a
    /\ FieldSupplement.Options.dbForeignKeyName oa = FieldSupplement.Options.dbForeignKeyName ob
    /\ FieldSupplement.Options.foreignTableId ob = Some "tblOrders"
    /\ FieldSupplement.Options.relationship ob
       = FieldSupplement.RelationshipRevert <$> FieldSupplement.Options.relationship oa.
Proof.
  exact (@link_pair_is_symmetric Fixtures.core Fixtures.shop "tblOrders"
           (Fixtures.linkRequest FieldSupplement.OneMany) None
           (shop_link_request_valid FieldSupplement.OneMany)).
Defined.

(** C3 on a ManyOne link from orders to customers: the key is named after
    the field's own, generated id. *)
Lemma foreign_key_name_from_many_one_side_witness :
  exists a st1 oa,
    @FieldSupplement.prepareField Fixtures.core
      (Fixtures.linkRequest FieldSupplement.ManyOne) None Fixtures.shop = Js.Ok (a, st1)
    /\ FieldSupplement.IFieldRo.options a = Some oa
    /\ FieldSupplement.IFieldRo.id a = Some "fldGen0"
    /\ FieldSupplement.Options.dbForeignKeyName oa = Some "__fk_fldGen0".
Proof.
  assert (Hrun : exists a st1,
             @FieldSupplement.prepareField Fixtures.core
               (Fixtures.linkRequest FieldSupplement.ManyOne) None Fixtures.shop
             = Js.Ok (a, st1)
             /\ FieldSupplement.IFieldRo.id a = Some "fldGen0"
             /\ (FieldSupplement.IFieldRo.options a
                 ≫= FieldSupplement.Options.relationship) = Some FieldSupplement.ManyOne)
    by (eexists _, _; split_and!; vm_compute; reflexivity).
  destruct Hrun as (a & st1 & Hrun & Hid & Hrel).
  destruct (@foreign_key_name_from_many_one_side Fixtures.core
              (Fixtures.linkRequest FieldSupplement.ManyOne) a None Fixtures.shop st1
              eq_refl eq_refl Hrun)
    as (oa & fid & sym & Hoa & Hid' & _ & _ & Hmany & _).
  exists a, st1, oa. split_and!; try done.
  rewrite Hoa in Hrel. destruct (Hmany Hrel) as [Hname _]. rewrite Hname.
  rewrite Hid in Hid'. by injection Hid' as <-.
Defined.

(** C10 on a ManyMany link from orders to customers. *)
Lemma many_many_has_no_foreign_key_witness :
  exists a b st1 st2,
    @FieldSupplement.prepareField Fixtures.core
      (Fixtures.linkRequest FieldSupplement.ManyMany) None Fixtures.shop = Js.Ok (a, st1)
    /\ FieldSupplement.supplementByCreate "tblOrders" a st1 = Js.Ok (b, st2).
Proof.
  exact (proj2 (@many_many_has_no_foreign_key Fixtures.core Fixtures.shop "tblOrders"
                  (Fixtures.linkRequest FieldSupplement.ManyMany) None
                  (Fixtures.linkOptions FieldSupplement.ManyMany "tblCustomers")
                  eq_refl eq_refl eq_refl eq_refl)
               (shop_link_request_valid FieldSupplement.ManyMany)).
Defined.

(** C7 on a lookup of the number field Amount declared as text. *)
Lemma lookup_type_mismatch_is_rejected_witness :
  @FieldSupplement.prepareField Fixtures.core Fixtures.textLookupOfAmount None Fixtures.shop
  = Js.Throw (Js.BadRequestException
                "Current field type singleLineText is not equal to lookup field (number)").
Proof.
  assert (Hopts : exists lookupOptions,
             @FieldSupplement.prepareLookupOptions
               Fixtures.textLookupOfAmount None Fixtures.shop
             = Js.Ok ((lookupOptions, Fixtures.fldAmount, Fixtures.fldLink), Fixtures.shop))
    by (eexists; vm_compute; reflexivity).
  destruct Hopts as (lookupOptions & Hopts).
  apply (@lookup_type_mismatch_is_rejected Fixtures.core Fixtures.textLookupOfAmount None
           Fixtures.shop Fixtures.shop lookupOptions Fixtures.fldAmount Fixtures.fldLink
           eq_refl Hopts).
  vm_compute. discriminate.
Defined.

(** A formula over the existing field fldOrderName and the missing field
    fldGhost is rejected: the message lists both. *)
Lemma formula_unresolved_reference_is_rejected_witness :
  @FieldSupplement.prepareField Fixtures.core Fixtures.ghostFormula None Fixtures.shop
  = Js.Throw (Js.BadRequestException
                "formula field reference fldOrderName,fldGhost not found").
Proof.
  assert (Hne : "fldGhost" <> "") by discriminate.
  destruct (@formula_unresolved_reference_is_rejected Fixtures.core Fixtures.ghostFormula None
              Fixtures.shop _ ["fldOrderName"; "fldGhost"] "fldGhost"
              eq_refl eq_refl eq_refl eq_refl eq_refl Hne)
    as (message & Hrun & -> & _).
  exact Hrun.
Defined.

(* ===================================================================== *)
(** ** Field maps, view statistics and totals                             *)
(* ===================================================================== *)

Section ViewFacts.
Import Js Aggregation.

(** Deleting the keys flagged hidden, one column meta entry at a time. *)
Lemma hidden_fold_lookup (columnMeta : gmap string bool)
    (fieldInstanceMap : gmap string IFieldInstance) (key : string) :
  map_fold (fun key (hidden : bool) m => if hidden then delete key m else m)
           fieldInstanceMap columnMeta !! key
  = if bool_decide (columnMeta !! key = Some true) then None
    else fieldInstanceMap !! key.
Proof.
  revert key.
  set (P := fun (r : gmap string IFieldInstance) (cm : gmap string bool) => forall key,
              r !! key = if bool_decide (cm !! key = Some true) then None
                         else fieldInstanceMap !! key).
  change (P (map_fold (fun key (hidden : bool) m => if hidden then delete key m else m)
                      fieldInstanceMap columnMeta) columnMeta).
  apply map_fold_weak_ind; unfold P; clear P.
  - intros key. rewrite lookup_empty. by rewrite bool_decide_eq_false_2.
  - intros i x m r Hi IH key. rewrite lookup_insert.
    case_decide as Hk.
    + subst key. specialize (IH i). rewrite Hi in IH.
      rewrite bool_decide_eq_false_2 in IH by done.
      destruct x.
      * rewrite lookup_delete_eq. by rewrite bool_decide_eq_true_2.
      * rewrite IH. by rewrite bool_decide_eq_false_2.
    + destruct x; [rewrite lookup_delete_ne by done|]; apply IH.
Qed.

(** X1.  The field map without hidden fields holds exactly the entries of
    the field map whose key has no column meta flagged hidden, each
    unchanged: a key flagged hidden is absent, whether or not the field map
    had it, and every other key leads to what it led to. *)
Theorem withoutHiddenFields_lookup (columnMeta : gmap string bool)
    (fieldInstanceMap : gmap string IFieldInstance) (key : string) :
  withoutHiddenFields columnMeta fieldInstanceMap !! key
  = if bool_decide (columnMeta !! key = Some true) then None
    else fieldInstanceMap !! key.
Proof. unfold withoutHiddenFields. apply hidden_fold_lookup. Qed.

(** Deleting from [m0] every key of [fim] outside the projection. *)
Lemma projection_fold_lookup (proj : list string)
    (fim m0 : gmap string IFieldInstance) (key : string) :
  map_fold (fun fieldId (_ : IFieldInstance) m =>
              if bool_decide (fieldId ∈ proj) then m else delete fieldId m) m0 fim !! key
  = if bool_decide (is_Some (fim !! key) /\ key ∉ proj) then None else m0 !! key.
Proof.
  revert key.
  set (P := fun (r fim : gmap string IFieldInstance) => forall key,
              r !! key = if bool_decide (is_Some (fim !! key) /\ key ∉ proj) then None
                         else m0 !! key).
  change (P (map_fold (fun fieldId (_ : IFieldInstance) m =>
                         if bool_decide (fieldId ∈ proj) then m else delete fieldId m)
                      m0 fim) fim).
  apply map_fold_weak_ind; unfold P; clear P.
  - intros key. rewrite lookup_empty. rewrite bool_decide_eq_false_2; [done|].
    intros [[? [=]] _].
  - intros i x m r Hi IH key. rewrite lookup_insert.
    case_decide as Hk.
    + subst key. specialize (IH i). rewrite Hi in IH.
      rewrite bool_decide_eq_false_2 in IH by (intros [[? [=]] _]).
      case_bool_decide as Hin.
      * rewrite bool_decide_eq_false_2 by (intros [_ ?]; done). done.
      * rewrite lookup_delete_eq. rewrite bool_decide_eq_true_2; [done|]. by split; [eexists|].
    + case_bool_decide; [|rewrite lookup_delete_ne by done]; apply IH.
Qed.

(** X2.  The field map searched by [getSearchCount] and
    [getRecordIndexBySearchOrder] holds exactly the entries of the field
    map that are not hidden by the view's column meta and, when a non-empty
    projection is given, whose key is in the projection. *)
Theorem searchFieldMap_lookup (fieldInstanceMap : gmap string IFieldInstance)
    (columnMeta : option (gmap string bool)) (projection : option (list string))
    (key : string) :
  searchFieldMap fieldInstanceMap columnMeta projection !! key
  = if match columnMeta with
       | Some columnMeta => bool_decide (columnMeta !! key = Some true)
       | None => false
       end
       || match projection with
          | Some (p :: ps) => negb (bool_decide (key ∈ p :: ps))
          | _ => false
          end
    then None else fieldInstanceMap !! key.
Proof.
  unfold searchFieldMap.
  set (m0 := match columnMeta with
             | Some cm => withoutHiddenFields cm fieldInstanceMap
             | None => fieldInstanceMap
             end).
  assert (Hm0 : m0 !! key
                = if match columnMeta with
                     | Some cm => bool_decide (cm !! key = Some true)
                     | None => false
                     end then None else fieldInstanceMap !! key).
  { subst m0. destruct columnMeta; [apply hidden_fold_lookup | done]. }
  destruct projection as [[|p ps]|]; rewrite ?orb_false_r; try exact Hm0.
  rewrite projection_fold_lookup, Hm0.
  destruct (match columnMeta with
            | Some cm => bool_decide (cm !! key = Some true)
            | None => false
            end); simpl.
  - by case_bool_decide.
  - case_bool_decide as Hout.
    + destruct Hout as [_ Hout]. by rewrite bool_decide_eq_false_2.
    + case_bool_decide as Hin; simpl; [done|].
      destruct (fieldInstanceMap !! key) eqn:Hk; [|done].
      exfalso. apply Hout. by split; [eexists|].
Qed.

Lemma pushStatisticFields_fold (columnMeta : option (gmap string ColumnMeta.t))
    (customFieldStats : option (list ICustomFieldStats.t))
    (fieldInstances : list IFieldInstance) (acc : option (list IAggregationField.t)) :
  match acc with Some [] => False | _ => True end ->
  let r := foldl (fun acc fieldInstance =>
                    pushStatisticFields acc
                      (statisticFieldListOf columnMeta customFieldStats fieldInstance))
                 acc fieldInstances in
  match r with Some [] => False | _ => True end
  /\ default [] r
     = default [] acc ++ flat_map (statisticFieldListOf columnMeta customFieldStats) fieldInstances.
Proof.
  revert acc. induction fieldInstances as [|fi fis IH]; intros acc Hacc; simpl.
  - split; [done|]. by rewrite app_nil_r.
  - destruct (IH (pushStatisticFields acc
                    (statisticFieldListOf columnMeta customFieldStats fi))) as [Hne Heq].
    { unfold pushStatisticFields.
      destruct (statisticFieldListOf columnMeta customFieldStats fi) as [|x l]; [done|].
      by destruct (default [] acc). }
    split; [done|]. rewrite Heq, app_assoc. f_equal.
    unfold pushStatisticFields.
    destruct (statisticFieldListOf columnMeta customFieldStats fi) as [|x l];
      [by rewrite app_nil_r | done].
Qed.

(** X3.  [getStatisticFields] returns [undefined] or a non-empty list,
    never the empty list: the statistics of each field instance, in the
    order of the instances, and [undefined] exactly when no instance has
    any. *)
Theorem getStatisticFields_never_empty (fieldInstances : list IFieldInstance)
    (columnMeta : option (gmap string ColumnMeta.t))
    (customFieldStats : option (list ICustomFieldStats.t)) :
  match getStatisticFields fieldInstances columnMeta customFieldStats with
  | None =>
      flat_map (statisticFieldListOf columnMeta customFieldStats) fieldInstances = []
  | Some statisticFields =>
      statisticFields <> []
      /\ statisticFields
         = flat_map (statisticFieldListOf columnMeta customFieldStats) fieldInstances
  end.
Proof.
  destruct (pushStatisticFields_fold columnMeta customFieldStats fieldInstances None I)
    as [Hne Heq].
  fold (getStatisticFields fieldInstances columnMeta customFieldStats) in Hne, Heq.
  destruct (getStatisticFields fieldInstances columnMeta customFieldStats) as [[|x l]|];
    simpl in *; [done | | by symmetry].
  split; [done | exact Heq].
Qed.

Lemma statisticFuncsOf_elem (customFieldStats : list ICustomFieldStats.t) (f : string) :
  f ∈ statisticFuncsOf customFieldStats ->
  truthy f = true
  /\ exists c, c ∈ customFieldStats /\ ICustomFieldStats.statisticFunc c = Some f.
Proof.
  unfold statisticFuncsOf. rewrite list_elem_of_omap. intros (c & Hc & Hf).
  destruct (ICustomFieldStats.statisticFunc c) as [g|] eqn:Hg; [|discriminate].
  destruct (truthy g) eqn:Ht; [|discriminate]. injection Hf as <-. eauto.
Qed.

Lemma customStatsOf_elem (customFieldStats : option (list ICustomFieldStats.t))
    (fieldId : string) (l : list ICustomFieldStats.t) (c : ICustomFieldStats.t) :
  customStatsOf customFieldStats fieldId = Some l -> c ∈ l ->
  c ∈ default [] customFieldStats /\ ICustomFieldStats.fieldId c = fieldId.
Proof.
  unfold customStatsOf. intros Hl Hc.
  assert (Hf : l = List.filter (fun c => String.eqb (ICustomFieldStats.fieldId c) fieldId)
                               (default [] customFieldStats)).
  { destruct (List.filter _ _); [discriminate | by injection Hl as <-]. }
  subst l. apply list_elem_of_In, filter_In in Hc as [Hin Heq].
  split; [by apply list_elem_of_In | by apply String.eqb_eq].
Qed.

(** X4.  Every statistic [getStatisticFields] returns belongs to one of the
    field instances, that field is not hidden in the column meta, the
    function is a non-empty string, and it is a function requested for that
    field in [customFieldStats] or, when none is requested, the view's own
    [statisticFunc] of the field. *)
Theorem getStatisticFields_sound (fieldInstances : list IFieldInstance)
    (columnMeta : option (gmap string ColumnMeta.t))
    (customFieldStats : option (list ICustomFieldStats.t))
    (statisticFields : list IAggregationField.t) (sf : IAggregationField.t) :
  getStatisticFields fieldInstances columnMeta customFieldStats = Some statisticFields ->
  sf ∈ statisticFields ->
  exists fieldInstance,
    fieldInstance ∈ fieldInstances
    /\ IAggregationField.fieldId sf = id fieldInstance
    /\ hiddenFlags (default ∅ columnMeta) !! id fieldInstance <> Some true
    /\ truthy (IAggregationField.statisticFunc sf) = true
    /\ ((exists c, c ∈ default [] customFieldStats
                   /\ ICustomFieldStats.fieldId c = id fieldInstance
                   /\ ICustomFieldStats.statisticFunc c
                      = Some (IAggregationField.statisticFunc sf))
        \/ (statisticFuncsOf
              (default [] (customStatsOf customFieldStats (id fieldInstance))) = []
            /\ (columnMeta ≫= (fun m => m !! id fieldInstance)) ≫= ColumnMeta.statisticFunc
               = Some (IAggregationField.statisticFunc sf))).
Proof.
  intros Hget Hsf.
  destruct (pushStatisticFields_fold columnMeta customFieldStats fieldInstances None I)
    as [_ Heq].
  fold (getStatisticFields fieldInstances columnMeta customFieldStats) in Heq.
  rewrite Hget in Heq. simpl in Heq. subst statisticFields.
  apply list_elem_of_In, in_flat_map in Hsf as (fi & Hfi & Hsf).
  exists fi. split; [by apply list_elem_of_In|].
  unfold statisticFieldListOf in Hsf.
  set (vcm := columnMeta ≫= (fun m => m !! id fi)) in *.
  set (cs := customStatsOf customFieldStats (id fi)) in *.
  assert (Hbody : In sf (if bool_decide (vcm ≫= ColumnMeta.hidden = Some true) then []
                         else map (fun item => {| IAggregationField.fieldId := id fi;
                                                  IAggregationField.statisticFunc := item |})
                                  (funcListOf vcm cs))).
  { destruct vcm, cs; exact Hsf. }
  clear Hsf. case_bool_decide as Hhid; [destruct Hbody|].
  apply in_map_iff in Hbody as (f & <- & Hf). simpl.
  assert (Hnot : hiddenFlags (default ∅ columnMeta) !! id fi <> Some true).
  { unfold hiddenFlags. rewrite lookup_fmap. subst vcm.
    destruct columnMeta as [m|]; simpl in *; [|by rewrite lookup_empty].
    destruct (m !! id fi) as [v|]; simpl in *; [|done].
    intros [= Hb]. by apply bool_decide_eq_true in Hb. }
  split; [done|]. split; [done|].
  unfold funcListOf in Hf.
  destruct (statisticFuncsOf <$> cs) as [[|g gs]|] eqn:Hcs.
  - destruct cs as [l|] eqn:Hl; [|discriminate]. simpl in Hcs. injection Hcs as Hcs.
    destruct (vcm ≫= ColumnMeta.statisticFunc) as [g|] eqn:Hg; [|destruct Hf].
    destruct (truthy g) eqn:Ht; [|destruct Hf].
    destruct Hf as [<-|[]]. split; [done|]. right. by split.
  - destruct cs as [l|] eqn:Hl; [|discriminate]. simpl in Hcs. injection Hcs as Hcs.
    assert (Hin : f ∈ statisticFuncsOf l) by (rewrite Hcs; by apply list_elem_of_In).
    apply statisticFuncsOf_elem in Hin as (Ht & c & Hc & Hfc).
    split; [done|]. left. exists c.
    destruct (customStatsOf_elem _ _ _ _ Hl Hc) as [Hc' Hid]. by split_and!.
  - destruct cs as [l|] eqn:Hl; [discriminate|].
    destruct (vcm ≫= ColumnMeta.statisticFunc) as [g|] eqn:Hg; [|destruct Hf].
    destruct (truthy g) eqn:Ht; [|destruct Hf].
    destruct Hf as [<-|[]]. split; [done|]. right. by split.
Qed.

Lemma fieldInstanceMap_fold (withName : option bool) (fieldInstances : list IFieldInstance)
    (acc : gmap string IFieldInstance) :
  let step := fun (map : gmap string IFieldInstance) field =>
                let map := <[id field := field]> map in
                if bool_decide (withName = Some false) then map
                else <[name field := field]> map in
  let m := foldl step acc fieldInstances in
  (forall k f, m !! k = Some f ->
     acc !! k = Some f
     \/ (f ∈ fieldInstances /\ (id f = k \/ (withName <> Some false /\ name f = k))))
  /\ (forall k, is_Some (acc !! k) -> is_Some (m !! k))
  /\ (forall f, f ∈ fieldInstances ->
        is_Some (m !! id f) /\ (withName <> Some false -> is_Some (m !! name f))).
Proof.
  revert acc. induction fieldInstances as [|x l IH]; intros acc; simpl.
  - split_and!; [by left | done |]. intros f Hf. by apply elem_of_nil in Hf.
  - set (acc' := if bool_decide (withName = Some false) then <[id x := x]> acc
                 else <[name x := x]> (<[id x := x]> acc)).
    destruct (IH acc') as (Hsound & Hkeep & Hall).
    assert (Hacc' : forall k, is_Some (acc !! k) \/ k = id x
                              \/ (withName <> Some false /\ k = name x) ->
                              is_Some (acc' !! k)).
    { intros k Hk. subst acc'. case_bool_decide as Hw.
      - rewrite lookup_insert. case_decide; [by eexists|].
        destruct Hk as [Hk|[->|[Hn _]]]; done.
      - rewrite !lookup_insert. repeat case_decide; try by eexists.
        destruct Hk as [Hk|[->|[_ ->]]]; done. }
    split_and!.
    + intros k f Hm. destruct (Hsound k f Hm) as [Hf|(Hf & Hk)].
      * subst acc'. case_bool_decide as Hw.
        -- rewrite lookup_insert in Hf. case_decide as Hk; [|by left].
           injection Hf as <-. right. split; [apply list_elem_of_here | by left].
        -- rewrite !lookup_insert in Hf. case_decide as Hn.
           ++ injection Hf as <-. right. split; [apply list_elem_of_here | by right].
           ++ case_decide as Hk; [|by left].
              injection Hf as <-. right. split; [apply list_elem_of_here | by left].
      * right. split; [by apply list_elem_of_further | done].
    + intros k Hk. apply Hkeep, Hacc'. by left.
    + intros f Hf. apply elem_of_cons in Hf as [->|Hf]; [|by apply Hall].
      split.
      * apply Hkeep, Hacc'. right. by left.
      * intros Hw. apply Hkeep, Hacc'. right. right. by split.
Qed.

(** X5.  [getFieldsData] returns live fields of the table only; every key
    of its map leads to one of them whose id or, unless [withName] is
    [false], whose name is that key; and every returned field can be looked
    up by its id, and by its name unless [withName] is [false]. *)
Theorem getFieldsData_map (fieldTable : list FieldRow) (tableId : string)
    (fieldIds : option (list string)) (withName : option bool) :
  let fieldInstances := fst (getFieldsData fieldTable tableId fieldIds withName) in
  let fieldInstanceMap := snd (getFieldsData fieldTable tableId fieldIds withName) in
  (forall f, f ∈ fieldInstances ->
     exists row, row ∈ fieldTable /\ fr_instance row = f
                 /\ fr_tableId row = tableId /\ fr_deletedTime row = None)
  /\ (forall k f, fieldInstanceMap !! k = Some f ->
        f ∈ fieldInstances /\ (id f = k \/ (withName <> Some false /\ name f = k)))
  /\ (forall f, f ∈ fieldInstances ->
        is_Some (fieldInstanceMap !! id f)
        /\ (withName <> Some false -> is_Some (fieldInstanceMap !! name f))).
Proof.
  unfold getFieldsData. cbn [fst snd].
  set (fieldsRaw := List.filter _ fieldTable).
  destruct (fieldInstanceMap_fold withName (map fr_instance fieldsRaw) ∅)
    as (Hsound & _ & Hall).
  split_and!.
  - intros f Hf. apply list_elem_of_In, in_map_iff in Hf as (row & <- & Hrow).
    subst fieldsRaw. apply filter_In in Hrow as [Hin Hcond].
    apply andb_true_iff in Hcond as [Hcond Hlive].
    apply andb_true_iff in Hcond as [Htable _].
    exists row. split_and!; [by apply list_elem_of_In | done | by apply String.eqb_eq |].
    by apply bool_decide_eq_true in Hlive.
  - intros k f Hm. destruct (Hsound k f Hm) as [Hempty|?]; [|done].
    by rewrite lookup_empty in Hempty.
  - exact Hall.
Qed.

(** The statistics pushed for a field instance carry its id. *)
Lemma statisticFieldListOf_fieldId (columnMeta : option (gmap string ColumnMeta.t))
    (customFieldStats : option (list ICustomFieldStats.t)) (fieldInstance : IFieldInstance)
    (sf : IAggregationField.t) :
  In sf (statisticFieldListOf columnMeta customFieldStats fieldInstance) ->
  IAggregationField.fieldId sf = id fieldInstance.
Proof.
  unfold statisticFieldListOf.
  destruct (columnMeta ≫= _), (customStatsOf customFieldStats (id fieldInstance));
    try (intros []); case_bool_decide; try (intros []);
    rewrite in_map_iff; by intros (f & <- & _).
Qed.

(** X24.  Statistics are computed for the requested fields only.  The
    statistic fields of [fetchStatisticsParams], those of the filtered field
    instances, each belong to a field instance of the table; with a
    non-empty [customFieldStats] the field is one named there, whatever
    [withFieldIds] says; without [customFieldStats] and with a non-empty
    [withFieldIds] it is one of these.  An empty [customFieldStats] or
    [withFieldIds] restricts nothing. *)
Theorem statistics_only_for_requested_fields (fieldInstances : list IFieldInstance)
    (columnMeta : option (gmap string ColumnMeta.t))
    (customFieldStats : option (list ICustomFieldStats.t))
    (withFieldIds : option (list string))
    (statisticFields : list IAggregationField.t) (sf : IAggregationField.t) :
  getStatisticFields (filterFieldInstances fieldInstances customFieldStats withFieldIds)
                     columnMeta customFieldStats
  = Some statisticFields ->
  sf ∈ statisticFields ->
  (exists fieldInstance,
      fieldInstance ∈ fieldInstances /\ id fieldInstance = IAggregationField.fieldId sf)
  /\ match customFieldStats, withFieldIds with
     | Some (c :: cs), _ =>
         exists c', c' ∈ c :: cs
                    /\ ICustomFieldStats.fieldId c' = IAggregationField.fieldId sf
     | None, Some (w :: ws) => IAggregationField.fieldId sf ∈ w :: ws
     | _, _ => True
     end.
Proof.
  intros Hget Hsf.
  destruct (pushStatisticFields_fold columnMeta customFieldStats
              (filterFieldInstances fieldInstances customFieldStats withFieldIds) None I)
    as [_ Heq].
  fold (getStatisticFields (filterFieldInstances fieldInstances customFieldStats withFieldIds)
          columnMeta customFieldStats) in Heq.
  rewrite Hget in Heq. simpl in Heq. subst statisticFields.
  apply list_elem_of_In, in_flat_map in Hsf as (fi & Hfi & Hsf).
  apply statisticFieldListOf_fieldId in Hsf. rewrite Hsf. clear Hsf.
  unfold filterFieldInstances in Hfi.
  destruct customFieldStats as [[|c cs]|]; [| |destruct withFieldIds as [[|w ws]|]].
  - split; [|done]. exists fi. split; [by apply list_elem_of_In | done].
  - cbn [map] in Hfi. apply filter_In in Hfi as [Hin Hid].
    apply bool_decide_eq_true in Hid.
    split; [exists fi; split; [by apply list_elem_of_In | done]|].
    change (ICustomFieldStats.fieldId c :: map ICustomFieldStats.fieldId cs)
      with (map ICustomFieldStats.fieldId (c :: cs)) in Hid.
    apply list_elem_of_In, in_map_iff in Hid as (c' & Hc' & Hin').
    exists c'. split; [by apply list_elem_of_In | done].
  - split; [|done]. exists fi. split; [by apply list_elem_of_In | done].
  - apply filter_In in Hfi as [Hin Hid]. apply bool_decide_eq_true in Hid.
    split; [|done]. exists fi. split; [by apply list_elem_of_In | done].
  - split; [|done]. exists fi. split; [by apply list_elem_of_In | done].
Qed.

End ViewFacts.

Section TotalsFacts.
Import Js Aggregation.
Context `{Numbers} `{!Dayjs.Unmodelled}.

Lemma splitKey_alias (fieldId statisticFunc : string) :
  occurs "_"%char fieldId = false ->
  occurs "_"%char statisticFunc = false ->
  splitKey (fieldId +:+ "_" +:+ statisticFunc) = (fieldId, Some statisticFunc).
Proof.
  intros Hf Hs. unfold splitKey.
  change ("_" +:+ statisticFunc) with (String "_"%char statisticFunc).
  by rewrite (split_app _ _ _ Hf), (split_no_sep _ _ Hs).
Qed.

(** X6.  The column alias [`${fieldId}_${statisticFunc}`] written for a
    statistic is read back by [performAggregation] as that field id and
    that function, when neither holds an underscore and neither is empty:
    the total pushed for the column is the converted value under that
    function. *)
Theorem total_of_alias (statisticField : IAggregationField.t) (currentValue : Value) :
  occurs "_"%char (IAggregationField.fieldId statisticField) = false ->
  occurs "_"%char (IAggregationField.statisticFunc statisticField) = false ->
  IAggregationField.fieldId statisticField <> "" ->
  IAggregationField.statisticFunc statisticField <> "" ->
  totalOf (aggKeyOf statisticField, currentValue)
  = rbind (formatConvertValue currentValue
             (Some (IAggregationField.statisticFunc statisticField)))
          (fun convertValue =>
             Ok (Some {| fieldId := IAggregationField.fieldId statisticField;
                         total :=
                           Some {| value := convertValue;
                                   aggFunc := IAggregationField.statisticFunc statisticField |};
                         group := None |})).
Proof.
  intros Hf Hs Hfne Hsne. unfold totalOf, aggKeyOf.
  rewrite (splitKey_alias _ _ Hf Hs).
  by rewrite (truthy_nonempty _ Hfne), (truthy_nonempty _ Hsne).
Qed.

Lemma split_first_no_sep (sep : ascii) (s : string) :
  occurs sep (default "" (split sep s !! 0%nat)) = false.
Proof.
  induction s as [|c s IH]; simpl; [done|].
  destruct (Ascii.eqb c sep) eqn:Hc; simpl; [done|].
  destruct (split sep s) as [|seg segs] eqn:Hs; simpl in *; by rewrite Hc.
Qed.

(** X7.  Every total [performAggregation] collects has a field id that is
    not empty and holds no underscore, has no group map yet, and carries a
    function that is not empty; there are at most as many as columns. *)
Theorem totalsOf_shape (entries : list (string * Value))
    (aggregations : list IRawAggregation) :
  totalsOf entries = Ok aggregations ->
  length aggregations <= length entries
  /\ Forall (fun a => fieldId a <> ""
                      /\ occurs "_"%char (fieldId a) = false
                      /\ group a = None
                      /\ forall t, total a = Some t -> aggFunc t <> "") aggregations.
Proof.
  revert aggregations. induction entries as [|[key v] rest IH]; simpl; intros aggs Hrun.
  - injection Hrun as <-. split; [done | constructor].
  - apply rbind_Ok in Hrun as (pushed & Hpush & Hrun).
    apply rbind_Ok in Hrun as (aggs' & Hrest & Hrun). injection Hrun as <-.
    destruct (IH _ Hrest) as [Hlen Hall].
    unfold totalOf, splitKey in Hpush.
    apply rbind_Ok in Hpush as (cv & _ & Hpush). cbv beta in Hpush.
    destruct (truthy (default "" (split "_" key !! 0%nat))) eqn:Hfid;
      injection Hpush as <-; [|split; [lia | done]].
    split; [simpl; lia|]. constructor; [|done]. simpl.
    split_and!; try done.
    + intros Hempty. by rewrite Hempty in Hfid.
    + apply split_first_no_sep.
    + intros t Ht. destruct (split "_" key !! 1%nat) as [f|]; [|discriminate].
      destruct (truthy f) eqn:Hf; [|discriminate]. injection Ht as <-. simpl.
      intros Hempty. by rewrite Hempty in Hf.
Qed.

(** X8.  A converted value is [null] exactly when the raw value is
    [undefined] or [null] and the function is none of the five percent
    functions. *)
Theorem formatConvertValue_null (currentValue : Value) (aggFunc : string) :
  formatConvertValue currentValue (Some aggFunc) = Ok Null
  <-> (currentValue = VUndefined \/ currentValue = VNull) /\ aggFunc ∉ defaultToZero.
Proof.
  split.
  - intros Hrun. destruct (decide (aggFunc ∈ defaultToZero)) as [Hin|Hout].
    + rewrite (formatConvertValue_percent _ _ Hin) in Hrun.
      apply rbind_Ok in Hrun as (v & _ & Hv). injection Hv as Hv.
      by destruct v.
    + split; [|done]. unfold formatConvertValue in Hrun.
      destruct currentValue as [| | | | | s |[iso|] ?|]; simpl in Hrun; try by eauto.
      all: destruct (truthy aggFunc); simpl in Hrun; try discriminate.
      all: unfold includes in Hrun;
        rewrite ?(bool_decide_eq_false_2 _ Hout) in Hrun;
        repeat (destruct (_ =? _)%string in Hrun); discriminate.
  - intros [Hv Hout]. unfold formatConvertValue, includes.
    rewrite (bool_decide_eq_false_2 _ Hout).
    destruct Hv as [-> | ->]; simpl; by destruct (truthy aggFunc).
Qed.

End TotalsFacts.

Section SearchFacts.
Import Js Aggregation.

(** X9.  In both compilers a search term whose apply flag is not set
    changes nothing: the statement compiled is the one compiled without the
    term. *)
Theorem search_applies_only_when_flagged (aggregation : AggregationParams)
    (rowCount : RowCountParams) (search : Search) :
  searchApplies search = false ->
  Aggregation.search aggregation = Some search ->
  rc_search rowCount = Some search ->
  compileAggregation aggregation
  = compileAggregation
      {| dbTableName := dbTableName aggregation;
         fieldInstanceMap := fieldInstanceMap aggregation;
         fieldInstanceMapWithoutHiddenFields :=
           fieldInstanceMapWithoutHiddenFields aggregation;
         filter := filter aggregation;
         groupBy := groupBy aggregation;
         search := None;
         statisticFields := statisticFields aggregation;
         withUserId := withUserId aggregation |}
  /\ compileRowCount rowCount
     = compileRowCount
         {| rc_tableId := rc_tableId rowCount;
            rc_dbTableName := rc_dbTableName rowCount;
            rc_fieldInstanceMap := rc_fieldInstanceMap rowCount;
            rc_fieldInstanceMapWithoutHiddenFields :=
              rc_fieldInstanceMapWithoutHiddenFields rowCount;
            rc_filter := rc_filter rowCount;
            rc_filterLinkCellCandidate := rc_filterLinkCellCandidate rowCount;
            rc_filterLinkCellSelected := rc_filterLinkCellSelected rowCount;
            rc_selectedRecordIds := rc_selectedRecordIds rowCount;
            rc_search := None;
            rc_withUserId := rc_withUserId rowCount |}.
Proof.
  intros Hoff Ha Hr. split.
  - by apply (compileAggregation_search_off aggregation search).
  - by apply (compileRowCount_search_off rowCount search).
Qed.

(** X10.  The count statement searches over the field map without hidden
    fields and over no other: its only search condition, present exactly
    when the term's apply flag is set, carries that map. *)
Theorem row_count_searches_visible_fields (params : RowCountParams)
    (fieldMap : gmap string IFieldInstance) (search : Search) :
  WSearch fieldMap search ∈ cq_wheres (compileRowCount params)
  <-> rc_search params = Some search
      /\ searchApplies search = true
      /\ fieldMap = rc_fieldInstanceMapWithoutHiddenFields params.
Proof.
  unfold compileRowCount. cbn [cq_wheres]. rewrite !elem_of_app. split.
  - intros [Hin|[Hin|[Hin|[Hin|Hin]]]].
    + destruct (rc_filter params); [|by apply elem_of_nil in Hin].
      apply list_elem_of_singleton in Hin. discriminate.
    + destruct (rc_search params) as [s|]; [|by apply elem_of_nil in Hin].
      destruct (searchApplies s) eqn:Hs; [|by apply elem_of_nil in Hin].
      apply list_elem_of_singleton in Hin. injection Hin as -> ->. done.
    + destruct (rc_selectedRecordIds params); [|by apply elem_of_nil in Hin].
      destruct (linkCellSet (rc_filterLinkCellCandidate params));
        apply list_elem_of_singleton in Hin; discriminate.
    + destruct (rc_filterLinkCellCandidate params) as [c|]; [|by apply elem_of_nil in Hin].
      destruct (linkCellSet (Some c)); [|by apply elem_of_nil in Hin].
      apply list_elem_of_singleton in Hin. discriminate.
    + destruct (rc_filterLinkCellSelected params) as [c|]; [|by apply elem_of_nil in Hin].
      destruct (linkCellSet (Some c)); [|by apply elem_of_nil in Hin].
      apply list_elem_of_singleton in Hin. discriminate.
  - intros (Hs & Hon & ->). right. left. rewrite Hs, Hon. apply list_elem_of_here.
Qed.

End SearchFacts.

(* ===================================================================== *)
(** ** More on the grouped aggregation                                    *)
(* ===================================================================== *)

Section FoldPreserves.
Import Js.
Context {A S : Type} (body : S -> A -> Result S) (Inv : S -> Prop).

(** A loop keeps what its body keeps on the elements it runs over. *)
Lemma foldM_preserves (l : list A) :
  (forall s x s', x ∈ l -> Inv s -> body s x = Ok s' -> Inv s') ->
  forall s s', Inv s -> foldM body l s = Ok s' -> Inv s'.
Proof.
  induction l as [|x l IH]; simpl; intros Hbody s s' Hs Hrun.
  - by injection Hrun as <-.
  - apply rbind_Ok in Hrun as (s1 & Hstep & Hrest).
    apply (IH (fun s x' s' Hx => Hbody s x' s' (list_elem_of_further _ _ _ Hx)) s1 s');
      [|done].
    by apply (Hbody s x s1 (list_elem_of_here _ _)).
Qed.

End FoldPreserves.

Section GroupedFrameFacts.
Import Js Aggregation.
Context `{Numbers} `{!Dayjs.Unmodelled} `{!Store} `{!Utils}.

Lemma groupByFieldsOf_Throw (fim : gmap string IFieldInstance)
    (groupBy : list IGroupItem.t) (e : Exception) :
  groupByFieldsOf fim groupBy = Throw e -> e = TypeError.
Proof.
  induction groupBy as [|g rest IH]; simpl; [discriminate|].
  destruct (fim !! IGroupItem.fieldId g); [|by intros [= <-]].
  destruct (groupByFieldsOf fim rest); simpl; [discriminate|].
  intros [= <-]. by apply IH.
Qed.

(** X11.  With at least one group field and an empty list of statistic
    fields the grouped aggregation throws a [TypeError]: the level
    statement is not run and its [undefined] result is iterated. *)
Theorem grouped_aggregation_without_statistics (params : GroupedParams)
    (g : IGroupItem.t) (gs : list IGroupItem.t) :
  g_groupBy params = Some (g :: gs) ->
  g_statisticFields params = Some [] ->
  performGroupedAggregation params = Throw TypeError.
Proof.
  intros Hg Hs. unfold performGroupedAggregation. rewrite Hg, Hs.
  destruct (groupByFieldsOf (g_fieldInstanceMap params) (g :: gs)) as [gfs|e] eqn:Hgfs.
  - reflexivity.
  - simpl. by rewrite (groupByFieldsOf_Throw _ _ _ Hgfs).
Qed.

Lemma keyBy_fold (l : list IRawAggregation) (acc : gmap string IRawAggregation) :
  let m := foldl (fun m a => <[fieldId a := a]> m) acc l in
  (forall k a, m !! k = Some a -> acc !! k = Some a \/ (a ∈ l /\ fieldId a = k))
  /\ (forall k, is_Some (acc !! k) -> is_Some (m !! k))
  /\ (forall a, a ∈ l -> is_Some (m !! fieldId a)).
Proof.
  revert acc. induction l as [|x l IH]; intros acc; simpl.
  - split_and!; [by left | done |]. intros a Ha. by apply elem_of_nil in Ha.
  - destruct (IH (<[fieldId x := x]> acc)) as (Hsound & Hkeep & Hall).
    split_and!.
    + intros k a Hm. destruct (Hsound k a Hm) as [Ha|[Ha Hk]].
      * rewrite lookup_insert in Ha. case_decide as Hx; [|by left].
        injection Ha as <-. right. split; [apply list_elem_of_here | done].
      * right. split; [by apply list_elem_of_further | done].
    + intros k Hk. apply Hkeep. rewrite lookup_insert. by case_decide; [eexists|].
    + intros a Ha. apply elem_of_cons in Ha as [->|Ha]; [|by apply Hall].
      apply Hkeep. rewrite lookup_insert_eq. by eexists.
Qed.

Lemma keyBy_fromAggregations (aggregations : list IRawAggregation) :
  fromAggregations aggregations (keyBy aggregations).
Proof.
  intros k a Hm. destruct (keyBy_fold aggregations ∅) as (Hsound & _ & _).
  destruct (Hsound k a Hm) as [Hempty|[Ha Hk]]; [by rewrite lookup_empty in Hempty|].
  split; [done|]. by exists a.
Qed.

Lemma statisticStep_frame (aggregations : list IRawAggregation) (row : Row) (gid : string)
    (m m' : gmap string IRawAggregation) (sf : IAggregationField.t) :
  fromAggregations aggregations m -> statisticStep row gid m sf = Ok m' ->
  fromAggregations aggregations m' /\ keeps m m' /\ True.
Proof.
  intros Hm Hstep. unfold statisticStep in Hstep.
  apply rbind_Ok in Hstep as (cv & _ & Hstep). cbv beta in Hstep.
  destruct (m !! IAggregationField.fieldId sf) as [cur|] eqn:Hcur; [|discriminate].
  injection Hstep as <-. split_and!; [| |done].
  - intros k a. rewrite lookup_insert. case_decide as Hk; [|by apply Hm].
    intros [= <-]. simpl. subst k. by apply Hm.
  - intros k Hk. rewrite lookup_insert. by case_decide; [eexists|].
Qed.

Lemma keeps_refl m : keeps m m.
Proof. by intros k. Qed.

Lemma keeps_trans m1 m2 m3 : keeps m1 m2 -> keeps m2 m3 -> keeps m1 m3.
Proof. intros H12 H23 k Hk. by apply H23, H12. Qed.

Lemma levelStep_frame (aggregations : list IRawAggregation) (params : GroupedParams)
    (groupBy : list IGroupItem.t) (sfs : list IAggregationField.t)
    (gfs : list GroupByField) (m m' : gmap string IRawAggregation) (i : nat) :
  fromAggregations aggregations m -> levelStep params groupBy sfs gfs m i = Ok m' ->
  fromAggregations aggregations m' /\ keeps m m' /\ True.
Proof.
  intros Hm Hrun. unfold levelStep in Hrun.
  apply rbind_Ok in Hrun as (raw & _ & Hrun).
  destruct raw as [rows|]; [|discriminate].
  destruct (gfs !! i) as [cur|]; [|discriminate].
  destruct (foldM_invariant (rowStep gfs i (gf_fieldId cur) sfs)
              (fromAggregations aggregations) keeps (fun _ _ => True)
              keeps_refl keeps_trans) with rows m m' as (Hinv & Hk & _); try done.
  intros s row s' Hs Hrow. unfold rowStep in Hrow.
  destruct (foldM_invariant
              (statisticStep row (groupIdOf gfs i (gf_fieldId cur) row))
              (fromAggregations aggregations) keeps (fun _ _ => True)
              keeps_refl keeps_trans) with sfs s s' as (Hinv & Hk & _); try done.
  intros s0 sf s0' Hs0 Hsf. by eapply statisticStep_frame.
Qed.

(** X12.  When group fields and statistic fields are both given, the
    grouped aggregation returns one entry per field id of the totals it was
    given: no field id twice, every returned entry has the id and the total
    of a given one, and every given field id is returned. *)
Theorem grouped_aggregation_keeps_totals (params : GroupedParams)
    (groupBy : list IGroupItem.t) (statisticFields : list IAggregationField.t)
    (result : list IRawAggregation) :
  g_groupBy params = Some groupBy ->
  g_statisticFields params = Some statisticFields ->
  performGroupedAggregation params = Ok result ->
  NoDup (map fieldId result)
  /\ (forall a, a ∈ result ->
        exists a0, a0 ∈ g_aggregations params
                   /\ fieldId a0 = fieldId a /\ total a0 = total a)
  /\ (forall a0, a0 ∈ g_aggregations params ->
        exists a, a ∈ result /\ fieldId a = fieldId a0).
Proof.
  intros HgroupBy Hsfs Hrun.
  unfold performGroupedAggregation in Hrun. rewrite HgroupBy, Hsfs in Hrun.
  apply rbind_Ok in Hrun as (gfs & _ & Hrun).
  apply rbind_Ok in Hrun as (final & Hfold & Hrun). injection Hrun as <-.
  destruct (foldM_invariant (levelStep params groupBy statisticFields gfs)
              (fromAggregations (g_aggregations params)) keeps (fun _ _ => True)
              keeps_refl keeps_trans)
    with (seq 0 (length groupBy)) (keyBy (g_aggregations params)) final
    as (Hinv & Hkeeps & _); try done.
  { intros s i s' Hs Hi. by apply (levelStep_frame _ params groupBy statisticFields gfs s s' i). }
  { apply keyBy_fromAggregations. }
  assert (Hfst : map fieldId (map snd (map_to_list final)) = map fst (map_to_list final)).
  { rewrite map_map. apply map_ext_in. intros [k a] Hin. simpl.
    apply list_elem_of_In, elem_of_map_to_list in Hin. by apply Hinv. }
  split_and!.
  - rewrite Hfst. apply NoDup_fst_map_to_list.
  - intros a Ha. apply list_elem_of_In, in_map_iff in Ha as ([k a'] & <- & Hin).
    apply list_elem_of_In, elem_of_map_to_list in Hin. simpl.
    destruct (Hinv k a' Hin) as (Hk & a0 & Ha0 & Hid & Htotal).
    exists a0. split_and!; [done | by rewrite Hk | done].
  - intros a0 Ha0. destruct (keyBy_fold (g_aggregations params) ∅) as (_ & _ & Hall).
    destruct (Hkeeps _ (Hall a0 Ha0)) as [a Ha].
    exists a. split; [|by apply Hinv].
    apply list_elem_of_In, in_map_iff. exists (fieldId a0, a).
    split; [done|]. by apply list_elem_of_In, elem_of_map_to_list.
Qed.

End GroupedFrameFacts.

Section GroupOriginFacts.
Import Js Aggregation.
Context `{Numbers} `{!Dayjs.Unmodelled} `{!Store} `{!Utils}.

Lemma statisticStep_origin (params : GroupedParams) (groupBy : list IGroupItem.t)
    (sfs : list IAggregationField.t) (gfs : list GroupByField)
    (i : nat) (g : IGroupItem.t) (cur : GroupByField) (rows : list Row) (row : Row)
    (m m' : gmap string IRawAggregation) (sf : IAggregationField.t) :
  Forall2 (groupByFieldOf (g_fieldInstanceMap params)) groupBy gfs ->
  groupBy !! i = Some g -> gfs !! i = Some cur ->
  handleAggregation (levelParams params groupBy sfs i) = Ok (Some rows) ->
  row ∈ rows -> sf ∈ sfs ->
  groupsHaveOrigin params groupBy sfs m ->
  statisticStep row (groupIdOf gfs i (gf_fieldId cur) row) m sf = Ok m' ->
  groupsHaveOrigin params groupBy sfs m'.
Proof.
  intros Hall Hg Hcur Hrows Hrow Hsf Hm Hstep. unfold statisticStep in Hstep.
  apply rbind_Ok in Hstep as (cv & Hcv & Hstep). cbv beta in Hstep.
  destruct (m !! IAggregationField.fieldId sf) as [old|] eqn:Hold; [|discriminate].
  injection Hstep as <-.
  intros fid a grp gid e. rewrite lookup_insert.
  case_decide as Hfid; [|by apply Hm].
  intros [= <-]. simpl. intros [= <-] He.
  assert (Hnew : forall (base : gmap string Aggregate),
             (forall gid0 e0, base !! gid0 = Some e0 ->
                              groupOrigin params groupBy sfs fid gid0 e0) ->
             <[groupIdOf gfs i (gf_fieldId cur) row :=
                 {| value := cv; aggFunc := IAggregationField.statisticFunc sf |}]> base
               !! gid = Some e ->
             groupOrigin params groupBy sfs fid gid e).
  { intros base Hbase. rewrite lookup_insert. case_decide as Hgid; [|by apply Hbase].
    intros [= <-]. exists i, g, rows, row, sf. split_and!; try done.
    rewrite <- Hgid. by apply (groupIdOf_spec _ _ gfs). }
  destruct (group old) as [g0|] eqn:Hg0.
  - apply (Hnew g0); [|done]. intros gid0 e0 He0. subst fid. by apply (Hm _ old g0).
  - apply (Hnew ∅); [|done]. intros gid0 e0. by rewrite lookup_empty.
Qed.

(** X13.  When the totals given have no group map yet, every entry of a
    group map the grouped aggregation returns stems from a row of the
    statement of some level: its key is that row's group id, its function
    a requested statistic of the field and its value the converted column
    of that statistic in the row. *)
Theorem grouped_aggregation_group_origin (params : GroupedParams)
    (groupBy : list IGroupItem.t) (statisticFields : list IAggregationField.t)
    (result : list IRawAggregation) :
  g_groupBy params = Some groupBy ->
  g_statisticFields params = Some statisticFields ->
  Forall (fun a => group a = None) (g_aggregations params) ->
  performGroupedAggregation params = Ok result ->
  forall a grp gid e,
    a ∈ result -> group a = Some grp -> grp !! gid = Some e ->
    groupOrigin params groupBy statisticFields (fieldId a) gid e.
Proof.
  intros HgroupBy Hsfs Hnone Hrun a grp gid e Ha Hgrp He.
  unfold performGroupedAggregation in Hrun. rewrite HgroupBy, Hsfs in Hrun.
  apply rbind_Ok in Hrun as (gfs & Hgfs & Hrun).
  apply rbind_Ok in Hrun as (final & Hfold & Hrun). injection Hrun as <-.
  pose proof (groupByFieldsOf_Ok _ _ _ Hgfs) as Hall.
  assert (Hkeyed : keyed final).
  { destruct (foldM_invariant (levelStep params groupBy statisticFields gfs) keyed grows
                (fun _ _ => True) grows_refl grows_trans)
      with (seq 0 (length groupBy)) (keyBy (g_aggregations params)) final
      as (Hk & _ & _); try done.
    - intros s i s' Hs Hi.
      destruct (levelStep_spec params groupBy statisticFields gfs s s' i Hs Hi)
        as (? & ? & _). done.
    - apply keyBy_keyed. }
  assert (Horigin : groupsHaveOrigin params groupBy statisticFields final).
  { apply (foldM_preserves (levelStep params groupBy statisticFields gfs)
             (groupsHaveOrigin params groupBy statisticFields)
             (seq 0 (length groupBy))) with (s := keyBy (g_aggregations params));
      [| |done].
    - intros s i s' Hi Hs Hlevel. unfold levelStep in Hlevel.
      apply rbind_Ok in Hlevel as (raw & Hraw & Hlevel).
      destruct raw as [rows|]; [|discriminate].
      destruct (gfs !! i) as [cur|] eqn:Hcur; [|discriminate].
      destruct (Forall2_lookup_r _ _ _ _ _ Hall Hcur) as (g & Hg & _).
      apply (foldM_preserves (rowStep gfs i (gf_fieldId cur) statisticFields)
               (groupsHaveOrigin params groupBy statisticFields) rows) with (s := s);
        [|done|done].
      intros s1 row s1' Hrow Hs1 Hrowstep. unfold rowStep in Hrowstep.
      apply (foldM_preserves
               (statisticStep row (groupIdOf gfs i (gf_fieldId cur) row))
               (groupsHaveOrigin params groupBy statisticFields) statisticFields)
        with (s := s1); [|done|done].
      intros s2 sf s2' Hsf Hs2 Hstat.
      by apply (statisticStep_origin params groupBy statisticFields gfs i g cur rows row
                  s2 s2' sf).
    - intros fid a0 g0 gid0 e0 Hlook Hg0.
      destruct (keyBy_fromAggregations (g_aggregations params) fid a0 Hlook) as [_ _].
      destruct (keyBy_fold (g_aggregations params) ∅) as (Hsound & _ & _).
      destruct (Hsound fid a0 Hlook) as [Hempty|[Hin _]];
        [by rewrite lookup_empty in Hempty|].
      rewrite Forall_forall in Hnone. by rewrite (Hnone a0 Hin) in Hg0. }
  apply list_elem_of_In, in_map_iff in Ha as ([k a'] & <- & Hin).
  apply list_elem_of_In, elem_of_map_to_list in Hin. simpl in *.
  rewrite (Hkeyed k a' Hin). by apply (Horigin k a' grp).
Qed.

End GroupOriginFacts.

(* ===================================================================== *)
(** ** Instances on the example view and the example shop                 *)
(* ===================================================================== *)

Section AggregationInstances.
Import Js Aggregation.

(** X4 on the view that counts fldA and hides fldB. *)
Lemma getStatisticFields_sound_witness :
  getStatisticFields [Fixtures.fldA; Fixtures.fldB] (Some Fixtures.viewColumnMeta) None
  = Some [Fixtures.countOfA]
  /\ exists fieldInstance,
      fieldInstance ∈ [Fixtures.fldA; Fixtures.fldB]
      /\ IAggregationField.fieldId Fixtures.countOfA = id fieldInstance
      /\ truthy (IAggregationField.statisticFunc Fixtures.countOfA) = true.
Proof.
  assert (Hget : getStatisticFields [Fixtures.fldA; Fixtures.fldB]
                   (Some Fixtures.viewColumnMeta) None = Some [Fixtures.countOfA])
    by (vm_compute; reflexivity).
  split; [exact Hget|].
  destruct (getStatisticFields_sound _ _ _ _ Fixtures.countOfA Hget (list_elem_of_here _ _))
    as (fieldInstance & Hin & Hid & _ & Htruthy & _).
  by exists fieldInstance.
Defined.

(** X24 on the view that counts fldA, asked for the field fldA only. *)
Lemma statistics_only_for_requested_fields_witness :
  getStatisticFields (filterFieldInstances [Fixtures.fldA; Fixtures.fldB] None (Some ["fldA"]))
                     (Some Fixtures.viewColumnMeta) None
  = Some [Fixtures.countOfA]
  /\ IAggregationField.fieldId Fixtures.countOfA ∈ ["fldA"].
Proof.
  assert (Hget : getStatisticFields
                   (filterFieldInstances [Fixtures.fldA; Fixtures.fldB] None (Some ["fldA"]))
                   (Some Fixtures.viewColumnMeta) None
                 = Some [Fixtures.countOfA])
    by (vm_compute; reflexivity).
  split; [exact Hget|].
  exact (proj2 (statistics_only_for_requested_fields _ _ None (Some ["fldA"]) _
                  Fixtures.countOfA Hget (list_elem_of_here _ _))).
Defined.

(** X6 on the count of fldA. *)
Lemma total_of_alias_witness :
  @totalOf Fixtures.intNumbers Fixtures.noDayjs
    (aggKeyOf Fixtures.countOfA, @VBigInt Fixtures.intNumbers 2)
  = Ok (Some {| fieldId := "fldA";
                total := Some {| value := @Num Fixtures.intNumbers 2%Z; aggFunc := "count" |};
                group := None |}).
Proof.
  assert (Hfield : IAggregationField.fieldId Fixtures.countOfA <> "") by discriminate.
  assert (Hfunc : IAggregationField.statisticFunc Fixtures.countOfA <> "") by discriminate.
  exact (@total_of_alias Fixtures.intNumbers Fixtures.noDayjs Fixtures.countOfA
           (@VBigInt Fixtures.intNumbers 2) eq_refl eq_refl Hfield Hfunc).
Defined.

(** X7 on a row with the count of fldA and a column without field id. *)
Lemma totalsOf_shape_witness :
  exists aggregations,
    @totalsOf Fixtures.intNumbers Fixtures.noDayjs
      [("fldA_count", @VBigInt Fixtures.intNumbers 2); ("_count", @VNull Fixtures.intNumbers)]
    = Ok aggregations
    /\ length aggregations <= 2
    /\ Forall (fun a => group a = None) aggregations.
Proof.
  assert (Hrun : exists aggregations,
             @totalsOf Fixtures.intNumbers Fixtures.noDayjs
               [("fldA_count", @VBigInt Fixtures.intNumbers 2);
                ("_count", @VNull Fixtures.intNumbers)]
             = Ok aggregations)
    by (eexists; vm_compute; reflexivity).
  destruct Hrun as [aggregations Hrun]. exists aggregations. split; [exact Hrun|].
  destruct (@totalsOf_shape Fixtures.intNumbers Fixtures.noDayjs _ _ Hrun) as [Hlen Hall].
  split; [exact Hlen|].
  apply (Forall_impl _ _ _ Hall). by intros a (_ & _ & Hgroup & _).
Defined.

(** X9 on a count with a term that is not applied. *)
Lemma search_applies_only_when_flagged_witness :
  compileRowCount (Fixtures.rowCountParams None None (Some Fixtures.idleSearch))
  = compileRowCount (Fixtures.rowCountParams None None None).
Proof.
  exact (proj2 (search_applies_only_when_flagged
                  {| dbTableName := "tbl";
                     fieldInstanceMap := Fixtures.fullMap;
                     fieldInstanceMapWithoutHiddenFields := Fixtures.visibleMap;
                     filter := None;
                     groupBy := None;
                     search := Some Fixtures.idleSearch;
                     statisticFields := Some [Fixtures.countOfA];
                     withUserId := None |}
                  (Fixtures.rowCountParams None None (Some Fixtures.idleSearch))
                  Fixtures.idleSearch eq_refl eq_refl eq_refl)).
Defined.

(** X11 on a grouping by fldA with an empty list of statistics. *)
Lemma grouped_aggregation_without_statistics_witness :
  @performGroupedAggregation Fixtures.intNumbers Fixtures.noDayjs
    Fixtures.oneRowStore Fixtures.lengthHash (Fixtures.groupedParamsWith (Some []))
  = Throw TypeError.
Proof.
  exact (@grouped_aggregation_without_statistics Fixtures.intNumbers Fixtures.noDayjs
           Fixtures.oneRowStore Fixtures.lengthHash (Fixtures.groupedParamsWith (Some []))
           Fixtures.groupByA [] eq_refl eq_refl).
Defined.

(** X12 on the count of fldA grouped by fldA. *)
Lemma grouped_aggregation_keeps_totals_witness :
  exists result,
    @performGroupedAggregation Fixtures.intNumbers Fixtures.noDayjs
      Fixtures.oneRowStore Fixtures.lengthHash Fixtures.groupedParams = Ok result
    /\ NoDup (map fieldId result)
    /\ exists a, a ∈ result /\ fieldId a = "fldA".
Proof.
  assert (Hrun : exists result,
             @performGroupedAggregation Fixtures.intNumbers Fixtures.noDayjs
               Fixtures.oneRowStore Fixtures.lengthHash Fixtures.groupedParams = Ok result)
    by (vm_compute; eauto).
  destruct Hrun as [result Hrun]. exists result. split; [exact Hrun|].
  destruct (@grouped_aggregation_keeps_totals Fixtures.intNumbers Fixtures.noDayjs
              Fixtures.oneRowStore Fixtures.lengthHash Fixtures.groupedParams
              [Fixtures.groupByA] [Fixtures.countOfA] result eq_refl eq_refl Hrun)
    as (Hnodup & _ & Hall).
  split; [exact Hnodup|].
  exact (Hall {| fieldId := "fldA";
                 total := Some {| value := @Num Fixtures.intNumbers 2%Z; aggFunc := "count" |};
                 group := None |} (list_elem_of_here _ _)).
Defined.

(** X13 on the count of fldA grouped by fldA: the entry under the group id
    of the row's value. *)
Lemma grouped_aggregation_group_origin_witness :
  exists result,
    @performGroupedAggregation Fixtures.intNumbers Fixtures.noDayjs
      Fixtures.oneRowStore Fixtures.lengthHash Fixtures.groupedParams = Ok result
    /\ @groupOrigin Fixtures.intNumbers Fixtures.noDayjs Fixtures.oneRowStore
         Fixtures.lengthHash Fixtures.groupedParams [Fixtures.groupByA] [Fixtures.countOfA]
         "fldA" "6" {| value := @Num Fixtures.intNumbers 2%Z; aggFunc := "count" |}.
Proof.
  set (e := {| value := @Num Fixtures.intNumbers 2%Z; aggFunc := "count" |}).
  set (a := {| fieldId := "fldA"; total := Some e; group := Some (<["6" := e]> ∅) |}).
  assert (Hrun : @performGroupedAggregation Fixtures.intNumbers Fixtures.noDayjs
                   Fixtures.oneRowStore Fixtures.lengthHash Fixtures.groupedParams = Ok [a])
    by (vm_compute; reflexivity).
  assert (Hnone : Forall (fun a => group a = None)
                     (@g_aggregations Fixtures.intNumbers Fixtures.groupedParams))
    by (repeat constructor).
  exists [a]. split; [exact Hrun|].
  exact (@grouped_aggregation_group_origin Fixtures.intNumbers Fixtures.noDayjs
           Fixtures.oneRowStore Fixtures.lengthHash Fixtures.groupedParams
           [Fixtures.groupByA] [Fixtures.countOfA] [a] eq_refl eq_refl
           Hnone Hrun a (<["6" := e]> ∅) "6" e
           (list_elem_of_here _ _) eq_refl (lookup_insert_eq _ _ _)).
Defined.

End AggregationInstances.

Section SupplementInstances.
Import Js FieldSupplement.

(** X14 on a lookup of the number field Amount through the orders' link. *)
Lemma lookup_prepared_from_persisted_fields_witness :
  exists a st1,
    @prepareField Fixtures.core Fixtures.numberLookupOfAmount None Fixtures.shop = Ok (a, st1)
    /\ st1 = Fixtures.shop
    /\ IFieldRo.id a = Some "fldLookup"
    /\ IFieldRo.type a = "number".
Proof.
  assert (Hrun : exists a st1,
             @prepareField Fixtures.core Fixtures.numberLookupOfAmount None Fixtures.shop
             = Ok (a, st1))
    by (eexists _, _; vm_compute; reflexivity).
  destruct Hrun as (a & st1 & Hrun). exists a, st1. split; [exact Hrun|].
  destruct (@lookup_prepared_from_persisted_fields Fixtures.core
              Fixtures.numberLookupOfAmount a None Fixtures.shop st1 eq_refl Hrun)
    as (Hst & given & link & source & linkOptions & _ & _ & _ & _ & _ & _ & _ & _ & _ & _ & _
        & Hid & Htype & _).
  by split_and!.
Defined.

(** X15 on a lookup without lookup options. *)
Lemma lookup_rejections_witness :
  @prepareField Fixtures.core (Fixtures.definition "number" (Some true) None None) None
    Fixtures.shop
  = Throw (BadRequestException "lookupOptions is required").
Proof.
  exact (proj1 (@lookup_rejections Fixtures.core
                  (Fixtures.definition "number" (Some true) None None) None Fixtures.shop
                  eq_refl)
               eq_refl).
Defined.

(** X16 on a OneMany link from orders to customers without an id: two ids
    are drawn, nothing else changes. *)
Lemma prepareField_reads_only_witness :
  exists a st1,
    @prepareField Fixtures.core (Fixtures.linkRequest OneMany) None Fixtures.shop = Ok (a, st1)
    /\ tableMeta st1 = tableMeta Fixtures.shop
    /\ FieldSupplement.field st1 = FieldSupplement.field Fixtures.shop
    /\ executed st1 = []
    /\ generated st1 = 2.
Proof.
  assert (Hrun : exists a st1,
             @prepareField Fixtures.core (Fixtures.linkRequest OneMany) None Fixtures.shop
             = Ok (a, st1))
    by (eexists _, _; vm_compute; reflexivity).
  destruct Hrun as (a & st1 & Hrun). exists a, st1. split; [exact Hrun|].
  exact (@prepareField_reads_only Fixtures.core (Fixtures.linkRequest OneMany) a None
           Fixtures.shop st1 Hrun).
Defined.

(** X17 on a link to a table that does not exist: no primary field of it
    is found. *)
Lemma link_rejections_witness :
  @prepareField Fixtures.core Fixtures.ghostLink None Fixtures.shop = Throw NotFoundError.
Proof.
  exact (proj1 (proj2 (@link_rejections Fixtures.core Fixtures.ghostLink None Fixtures.shop
                         eq_refl eq_refl)
                      (Fixtures.linkOptions OneMany "tblGhost") eq_refl)
               eq_refl).
Defined.

(** X18 on a OneMany link from orders to customers: the column goes on the
    customers' table, named after the symmetric field. *)
Lemma foreign_key_column_placement_witness :
  exists a b st1 st2 symmetricFieldId,
    @prepareField Fixtures.core (Fixtures.linkRequest OneMany) None Fixtures.shop = Ok (a, st1)
    /\ supplementByCreate "tblOrders" a st1 = Ok (b, st2)
    /\ IFieldRo.id b = Some symmetricFieldId
    /\ executed st2
       = [{| at_table := "customers";
             at_column := Some (getForeignKeyFieldName symmetricFieldId) |}].
Proof.
  destruct (@foreign_key_column_placement Fixtures.core Fixtures.shop "tblOrders"
              (Fixtures.linkRequest OneMany) None (shop_link_request_valid OneMany))
    as (a & b & fieldId & symmetricFieldId & r & foreignTableId & own & foreign & st1 & st2
        & Hprepare & Hsupplement & _ & Hid & Hr & Hforeign & _ & Htable & Hexecuted).
  injection Hr as <-. injection Hforeign as <-.
  vm_compute in Htable. injection Htable as <-.
  exists a, b, st1, st2, symmetricFieldId. by split_and!.
Defined.

(** X19 on a formula field, which is no link. *)
Lemma supplement_rejections_witness :
  supplementByCreate "tblOrders" Fixtures.sumFormula Fixtures.shop
  = Throw (Error "only link field need to create supplement field").
Proof.
  assert (Htype : IFieldRo.type Fixtures.sumFormula <> FieldType.Link) by discriminate.
  exact (proj1 (supplement_rejections "tblOrders" Fixtures.sumFormula Fixtures.shop) Htype).
Defined.

(** X20 on a formula over the fields fldOrderName and fldAmount. *)
Lemma formula_references_resolve_witness :
  exists a st1,
    @prepareField Fixtures.core Fixtures.sumFormula None Fixtures.shop = Ok (a, st1)
    /\ (Forall (referenceResolves Fixtures.shop None) ["fldOrderName"; "fldAmount"]
        \/ exists before after,
            ["fldOrderName"; "fldAmount"] = before ++ "" :: after
            /\ Forall (referenceResolves Fixtures.shop None) before).
Proof.
  assert (Hrun : exists a st1,
             @prepareField Fixtures.core Fixtures.sumFormula None Fixtures.shop = Ok (a, st1))
    by (eexists _, _; vm_compute; reflexivity).
  destruct Hrun as (a & st1 & Hrun). exists a, st1. split; [exact Hrun|].
  exact (@formula_references_resolve Fixtures.core Fixtures.sumFormula a None Fixtures.shop st1
           (Fixtures.formulaOptions "fldOrderName+fldAmount") ["fldOrderName"; "fldAmount"]
           eq_refl eq_refl eq_refl eq_refl Hrun).
Defined.

(** X21 on a OneMany link from orders to customers: the edge starts at the
    customers' primary field. *)
Lemma link_reference_from_foreign_primary_witness :
  exists a st1 fieldId,
    @prepareField Fixtures.core (Fixtures.linkRequest OneMany) None Fixtures.shop = Ok (a, st1)
    /\ IFieldRo.id a = Some fieldId
    /\ @createReference Fixtures.core a
       = Ok [{| fromFieldId := "fldCustomerName"; toFieldId := fieldId |}].
Proof.
  assert (Hrun : exists a st1,
             @prepareField Fixtures.core (Fixtures.linkRequest OneMany) None Fixtures.shop
             = Ok (a, st1))
    by (eexists _, _; vm_compute; reflexivity).
  destruct Hrun as (a & st1 & Hrun).
  destruct (@link_reference_from_foreign_primary Fixtures.core (Fixtures.linkRequest OneMany)
              a None Fixtures.shop st1 eq_refl eq_refl Hrun)
    as (primary & fieldId & Hprimary & Hid & Hreference).
  vm_compute in Hprimary. injection Hprimary as <-.
  exists a, st1, fieldId. by split_and!.
Defined.

(** X22 on the lookup of Amount under the id fldLookup. *)
Lemma lookup_reference_from_source_witness :
  exists a st1,
    @prepareField Fixtures.core Fixtures.numberLookupOfAmount None Fixtures.shop = Ok (a, st1)
    /\ @createReference Fixtures.core a
       = Ok [{| fromFieldId := "fldAmount"; toFieldId := "fldLookup" |}].
Proof.
  assert (Hrun : exists a st1,
             @prepareField Fixtures.core Fixtures.numberLookupOfAmount None Fixtures.shop
             = Ok (a, st1))
    by (eexists _, _; vm_compute; reflexivity).
  destruct Hrun as (a & st1 & Hrun). exists a, st1. split; [exact Hrun|].
  destruct (@lookup_reference_from_source Fixtures.core Fixtures.numberLookupOfAmount a None
              Fixtures.shop st1 "fldLookup" (or_introl eq_refl) eq_refl Hrun)
    as (given & Hgiven & Hreference).
  injection Hgiven as <-. exact Hreference.
Defined.

(** X23 on the formula over fldOrderName and fldAmount under the id
    fldSum. *)
Lemma formula_references_created_witness :
  exists a st1,
    @prepareField Fixtures.core Fixtures.sumFormula None Fixtures.shop = Ok (a, st1)
    /\ @createReference Fixtures.core a
       = Ok [{| fromFieldId := "fldOrderName"; toFieldId := "fldSum" |};
             {| fromFieldId := "fldAmount"; toFieldId := "fldSum" |}].
Proof.
  assert (Hrun : exists a st1,
             @prepareField Fixtures.core Fixtures.sumFormula None Fixtures.shop = Ok (a, st1))
    by (eexists _, _; vm_compute; reflexivity).
  destruct Hrun as (a & st1 & Hrun). exists a, st1. split; [exact Hrun|].
  exact (@formula_references_created Fixtures.core Fixtures.sumFormula a None Fixtures.shop st1
           (Fixtures.formulaOptions "fldOrderName+fldAmount") ["fldOrderName"; "fldAmount"]
           "fldSum" eq_refl eq_refl eq_refl eq_refl eq_refl Hrun).
Defined.

End SupplementInstances.
